(** * brickschema.validate: offending-triple discovery on top of pySHACL

    A shallow embedding of [src/brickschema/validate.py] (classes [Validate]
    and [ResultsSerialize], with the script [__main]) and the properties of
    it that the design document states, followed by further properties of
    the code: its failures, what it leaves untouched and how its methods
    compose.

    Conventions of the embedding:
    - an rdflib term is a [node]; Python's [None] is the constructor
      [PyNone], because the source puts it in the triple that it hands to
      [Graph.add] (line 206), which refuses it, and because a row of a query
      result holds it for a variable that the pattern does not bind;
    - an rdflib [Graph] is the list of its triples in iteration order,
      together with its prefix bindings; [Graph.add] keeps the list free of
      duplicates, so the list is a set with an (arbitrary, fixed) order; a
      graph that the caller or the engine hands over holds terms only, as
      every rdflib graph does;
    - a [Graph] that is the object of a triple is a reference [GraphRef i]
      into a store of graphs, since rdflib compares and hashes graphs by
      their identifier and not by their contents;
    - a Python [dict] is an association list in insertion order;
    - a character of a [string] is a code point below 256;
    - a method is a function from the instance to the instance and a
      [result]; what a method has mutated before it raises stays mutated. *)

From Stdlib Require Import String Ascii List Bool Arith ZArith Lia DecimalString.
Import ListNotations.
Open Scope string_scope.

(** ** Strings: the [str] methods the source calls *)

Module Str.

(** [s.split(c)] for a separator of one character. *)
Fixpoint split (c : ascii) (s : string) : list string :=
  match s with
  | EmptyString => [EmptyString]
  | String a r =>
      if Ascii.eqb a c then EmptyString :: split c r
      else match split c r with
           | h :: t => String a h :: t
           | [] => [String a EmptyString]
           end
  end.

(** The part before and the part after the first [c], if there is one. *)
Fixpoint cut (c : ascii) (s : string) : option (string * string) :=
  match s with
  | EmptyString => None
  | String a r =>
      if Ascii.eqb a c then Some (EmptyString, r)
      else match cut c r with
           | Some (p, l) => Some (String a p, l)
           | None => None
           end
  end.

Fixpoint mem (c : ascii) (s : string) : bool :=
  match s with
  | EmptyString => false
  | String a r => Ascii.eqb a c || mem c r
  end.

(** [s.startswith(p)] *)
Fixpoint startswith (s p : string) {struct p} : bool :=
  match p with
  | EmptyString => true
  | String b p' =>
      match s with
      | EmptyString => false
      | String a s' => Ascii.eqb a b && startswith s' p'
      end
  end.

(** [s.endswith(x)] *)
Definition endswith (s x : string) : bool :=
  Nat.leb (String.length x) (String.length s) &&
  String.eqb (String.substring (String.length s - String.length x)
                               (String.length x) s) x.

(** [s[:-n]] for [0 < n] *)
Definition drop_last (n : nat) (s : string) : string :=
  String.substring 0 (String.length s - n) s.

(** [x in s] *)
Fixpoint contains (s x : string) : bool :=
  startswith s x ||
  match s with
  | EmptyString => false
  | String _ r => contains r x
  end.

(** The characters that [str.strip()] removes: the white space of
    [str.isspace] below 256, that is the controls 9 to 13 and 28 to 31, the
    space, NEXT LINE (133) and NO-BREAK SPACE (160). *)
Definition is_space (a : ascii) : bool :=
  let n := nat_of_ascii a in
  (Nat.leb 9 n && Nat.leb n 13) || (Nat.leb 28 n && Nat.leb n 32) ||
  Nat.eqb n 133 || Nat.eqb n 160.

(** Truth value of [s.strip()]. *)
Fixpoint strip_nonempty (s : string) : bool :=
  match s with
  | EmptyString => false
  | String a r => negb (is_space a) || strip_nonempty r
  end.

(** [bytes.splitlines()]: lines end at LF, CR or CRLF; no empty last line. *)
Fixpoint splitlines_aux (s : string) (cur : string) : list string :=
  match s with
  | EmptyString => if String.eqb cur "" then [] else [cur]
  | String a r =>
      if Ascii.eqb a "010" then cur :: splitlines_aux r ""
      else if Ascii.eqb a "013" then
        match r with
        | String b r' =>
            if Ascii.eqb b "010" then cur :: splitlines_aux r' ""
            else cur :: splitlines_aux r ""
        | EmptyString => [cur]
        end
      else splitlines_aux r (cur ++ String a "")
  end.

Definition splitlines (s : string) : list string := splitlines_aux s "".

End Str.

(** ** RDF terms, triples and graphs *)

Inductive node : Type :=
| URIRef (iri : string)
| BNode (label : string)       (* a blank node read from a file *)
| GenBNode (n : nat)           (* the n-th result of [BNode()] *)
| Literal (lex : string)
| GraphRef (id : nat)          (* a [Graph] object used as a term *)
| PyNone.

Definition node_eq_dec (a b : node) : {a = b} + {a <> b}.
Proof. decide equality; auto using string_dec, Nat.eq_dec. Defined.

Arguments node_eq_dec : simpl never.

Definition node_eqb (a b : node) : bool :=
  if node_eq_dec a b then true else false.

Definition triple : Type := node * node * node.

Definition triple_eq_dec (a b : triple) : {a = b} + {a <> b}.
Proof. repeat decide equality; auto using string_dec, Nat.eq_dec. Defined.

Arguments triple_eq_dec : simpl never.

Definition subject (t : triple) : node := fst (fst t).
Definition predicate (t : triple) : node := snd (fst t).
Definition object (t : triple) : node := snd t.

(** A prefix table: [dict] from prefix to namespace IRI, insertion order. *)
Definition NamespaceDict : Type := list (string * string).

Fixpoint dict_get (d : NamespaceDict) (k : string) : option string :=
  match d with
  | [] => None
  | (k', v) :: d' => if String.eqb k k' then Some v else dict_get d' k
  end.

Definition dict_mem (d : NamespaceDict) (k : string) : bool :=
  match dict_get d k with Some _ => true | None => false end.

(** [d[k] = v] *)
Fixpoint dict_set (d : NamespaceDict) (k v : string) : NamespaceDict :=
  match d with
  | [] => [(k, v)]
  | (k', v') :: d' =>
      if String.eqb k k' then (k, v) :: d' else (k', v') :: dict_set d' k v
  end.

Record Graph : Type := mkGraph {
  triples : list triple;            (* iteration order *)
  namespaces : NamespaceDict        (* [g.namespaces()] *)
}.

(** [Graph()]; rdflib's four built-in bindings (xml, rdf, rdfs, xsd) only
    show in a serialization and are left out. *)
Definition Graph_new : Graph := mkGraph [] [].

Definition graph_mem (t : triple) (g : Graph) : bool :=
  if in_dec triple_eq_dec t (triples g) then true else false.

(** [g.add(t)]: a graph is a set. *)
Definition graph_add (t : triple) (g : Graph) : Graph :=
  if graph_mem t g then g
  else mkGraph (triples g ++ [t]) (namespaces g).

(** [g.bind(prefix, ns)] *)
Definition graph_bind (prefix ns : string) (g : Graph) : Graph :=
  mkGraph (triples g) (dict_set (namespaces g) prefix ns).

(** [g1 + g2]: a new graph with the bindings and the triples of both. *)
Definition graph_union (g1 g2 : Graph) : Graph :=
  let g := fold_left (fun acc b => graph_bind (fst b) (snd b) acc)
                     (namespaces g1 ++ namespaces g2) Graph_new in
  fold_left (fun acc t => graph_add t acc) (triples g1 ++ triples g2) g.

(** [len(g)] *)
Definition graph_len (g : Graph) : nat := length (triples g).

(** The W3C namespace of RDF Schema, which [rdfs:domain] and [rdfs:range]
    belong to. *)
Definition RDFS_ns : string := "http://www.w3.org/2000/01/rdf-schema#".
Definition RDFS (name : string) : node := URIRef (RDFS_ns ++ name).

(** ** Exceptions and the method monad *)

Inductive exn : Type :=
| AssertionError (msg : string)
| KeyError (key : string)
| ValueError (msg : string)
| AttributeError (attr : string)
| UnboundLocalError (var : string)
| TypeError (msg : string)
| SyntaxError (msg : string).       (* a query the SPARQL parser refuses *)

Inductive result (A : Type) : Type :=
| Ok (a : A)
| Raise (e : exn).
Arguments Ok {A} a.
Arguments Raise {A} e.

Definition is_ok {A} (r : result A) : bool :=
  match r with Ok _ => true | Raise _ => false end.

(** The instance of [Validate]. An attribute that no statement has assigned
    yet is [None]. The last three fields are not attributes: the store of
    the [Graph] objects that triples refer to, the number of [BNode()] calls
    so far, and the records handed to the logger. *)
Record Validate : Type := mkValidate {
  attachOffender : bool;
  brickG : Graph;
  shapeG : Graph;
  namespaceDict : NamespaceDict;
  data_graph : option Graph;
  conforms : option bool;
  results_graph : option Graph;
  results_text : option string;
  violationDict : option (list (node * Graph));
  store : list Graph;
  bnodes : nat;
  log : list (string * string)
}.

Definition M (A : Type) : Type := Validate -> Validate * result A.

Definition ret {A} (a : A) : M A := fun self => (self, Ok a).
Definition raise {A} (e : exn) : M A := fun self => (self, Raise e).
Definition bind {A B} (m : M A) (f : A -> M B) : M B :=
  fun self =>
    match m self with
    | (self', Ok a) => f a self'
    | (self', Raise e) => (self', Raise e)
    end.
Definition get {A} (f : Validate -> A) : M A := fun self => (self, Ok (f self)).
Definition modify (f : Validate -> Validate) : M unit :=
  fun self => (f self, Ok tt).

Declare Scope py_scope.
Delimit Scope py_scope with py.
Notation "x <- m ;; k" := (bind m (fun x => k))
  (at level 61, m at next level, right associativity) : py_scope.
Notation "m ;; k" := (bind m (fun _ => k))
  (at level 61, right associativity) : py_scope.
Open Scope py_scope.

(** [assert c, msg] *)
Definition py_assert (c : bool) (msg : string) : M unit :=
  if c then ret tt else raise (AssertionError msg).

(** [for x in l: body x] *)
Fixpoint for_each {A} (l : list A) (body : A -> M unit) : M unit :=
  match l with
  | [] => ret tt
  | x :: l' => body x ;; for_each l' body
  end.

Definition set_namespaceDict (d : NamespaceDict) (self : Validate) : Validate :=
  mkValidate (attachOffender self) (brickG self) (shapeG self) d
             (data_graph self) (conforms self) (results_graph self)
             (results_text self) (violationDict self) (store self)
             (bnodes self) (log self).

Definition set_brickG (g : Graph) (self : Validate) : Validate :=
  mkValidate (attachOffender self) g (shapeG self) (namespaceDict self)
             (data_graph self) (conforms self) (results_graph self)
             (results_text self) (violationDict self) (store self)
             (bnodes self) (log self).

Definition set_shapeG (g : Graph) (self : Validate) : Validate :=
  mkValidate (attachOffender self) (brickG self) g (namespaceDict self)
             (data_graph self) (conforms self) (results_graph self)
             (results_text self) (violationDict self) (store self)
             (bnodes self) (log self).

Definition set_data_graph (g : Graph) (self : Validate) : Validate :=
  mkValidate (attachOffender self) (brickG self) (shapeG self)
             (namespaceDict self) (Some g) (conforms self)
             (results_graph self) (results_text self) (violationDict self)
             (store self) (bnodes self) (log self).

Definition set_results (r : bool * Graph * string) (self : Validate) : Validate :=
  mkValidate (attachOffender self) (brickG self) (shapeG self)
             (namespaceDict self) (data_graph self) (Some (fst (fst r)))
             (Some (snd (fst r))) (Some (snd r)) (violationDict self)
             (store self) (bnodes self) (log self).

Definition set_violationDict (d : list (node * Graph)) (self : Validate)
  : Validate :=
  mkValidate (attachOffender self) (brickG self) (shapeG self)
             (namespaceDict self) (data_graph self) (conforms self)
             (results_graph self) (results_text self) (Some d)
             (store self) (bnodes self) (log self).

Definition set_store (h : list Graph) (self : Validate) : Validate :=
  mkValidate (attachOffender self) (brickG self) (shapeG self)
             (namespaceDict self) (data_graph self) (conforms self)
             (results_graph self) (results_text self) (violationDict self)
             h (bnodes self) (log self).

Definition set_bnodes (n : nat) (self : Validate) : Validate :=
  mkValidate (attachOffender self) (brickG self) (shapeG self)
             (namespaceDict self) (data_graph self) (conforms self)
             (results_graph self) (results_text self) (violationDict self)
             (store self) n (log self).

(** [self.log.<level>(msg)] *)
Definition log_record (level msg : string) : M unit :=
  modify (fun self =>
    mkValidate (attachOffender self) (brickG self) (shapeG self)
               (namespaceDict self) (data_graph self) (conforms self)
               (results_graph self) (results_text self) (violationDict self)
               (store self) (bnodes self) (log self ++ [(level, msg)])).

(** Reading an attribute: [AttributeError] while it is unassigned. *)
Definition attr {A} (name : string) (f : Validate -> option A) : M A :=
  fun self =>
    match f self with
    | Some a => (self, Ok a)
    | None => (self, Raise (AttributeError name))
    end.

(** ** [Validate.__buildNamespaceDict] (lines 148-156) *)

Definition buildNamespaceDict_step (b : string * string) : M unit :=
  let '(prefix, path) := b in
  d <- get namespaceDict ;;
  py_assert (negb (dict_mem d prefix) ||
             match dict_get d prefix with
             | Some old => String.eqb path old
             | None => false
             end)
            ("Same prefix '" ++ prefix ++ "' used for " ++
             match dict_get d prefix with Some old => old | None => "" end ++
             " and " ++ path) ;;
  if negb (dict_mem d prefix)
  then modify (fun self => set_namespaceDict
                             (dict_set (namespaceDict self) prefix path) self)
  else ret tt.

Definition buildNamespaceDict (g : Graph) : M unit :=
  for_each (namespaces g) buildNamespaceDict_step.

(** ** The query collaborator

    The source builds SPARQL text of one shape only, a [SELECT ?s ?p ?o]
    over a single triple pattern, prepared with [initNs=self.namespaceDict],
    and pastes text into the three places of the pattern. The model covers
    the texts that are the variable of the place or a prefixed name of the
    SPARQL grammar (a [PNAME_NS] or a [PNAME_LN] without escapes); such a
    name is resolved through [initNs] and an unknown prefix is refused when
    the query is prepared. Any other text is refused here as well: rdflib's
    parser refuses most of them and reads the others as syntax of another
    kind (a property path, a blank node, an escape), of which the model
    says nothing, so a statement about an accepted query is about names of
    the grammar. A row binds the three selected variables; a variable that
    the pattern does not mention stays unbound ([None]). *)

(** The character classes of the SPARQL grammar (rules 164 to 169), for code
    points below 256. *)
Definition pn_chars_base (a : ascii) : bool :=
  let n := nat_of_ascii a in
  (Nat.leb 65 n && Nat.leb n 90) || (Nat.leb 97 n && Nat.leb n 122) ||
  (Nat.leb 192 n && Nat.leb n 214) || (Nat.leb 216 n && Nat.leb n 246) ||
  Nat.leb 248 n.

Definition pn_chars_u (a : ascii) : bool :=
  pn_chars_base a || Ascii.eqb a "_".

Definition is_digit (a : ascii) : bool :=
  let n := nat_of_ascii a in Nat.leb 48 n && Nat.leb n 57.

Definition pn_chars (a : ascii) : bool :=
  pn_chars_u a || Ascii.eqb a "-" || is_digit a ||
  Nat.eqb (nat_of_ascii a) 183.

(** What follows the first character of a prefix ([colon = false]) or of a
    local name ([colon = true]): name characters and dots, and colons in a
    local name, the last of which is no dot. *)
Fixpoint pn_rest (colon : bool) (s : string) : bool :=
  match s with
  | EmptyString => true
  | String a r =>
      match r with
      | EmptyString => pn_chars a || (colon && Ascii.eqb a ":")
      | String _ _ =>
          (pn_chars a || Ascii.eqb a "." || (colon && Ascii.eqb a ":")) &&
          pn_rest colon r
      end
  end.

(** [PN_PREFIX] *)
Definition pn_prefix (s : string) : bool :=
  match s with
  | EmptyString => false
  | String a r => pn_chars_base a && pn_rest false r
  end.

(** [PN_LOCAL] without [PLX] *)
Definition pn_local (s : string) : bool :=
  match s with
  | EmptyString => false
  | String a r =>
      (pn_chars_u a || Ascii.eqb a ":" || is_digit a) && pn_rest true r
  end.

Inductive slot : Type :=
| Var
| Const (n : node).

(** The two parts of a prefixed name, before and after its first colon:
    an optional prefix and an optional local name. *)
Definition prefixed_name (pfx local : string) : bool :=
  (String.eqb pfx "" || pn_prefix pfx) &&
  (String.eqb local "" || pn_local local).

Definition expand (initNs : NamespaceDict) (pname : string) : result node :=
  match Str.cut ":" pname with
  | Some (pfx, local) =>
      if prefixed_name pfx local
      then match dict_get initNs pfx with
           | Some ns => Ok (URIRef (ns ++ local))
           | None => Raise (SyntaxError ("Unknown namespace prefix : " ++ pfx))
           end
      else Raise (SyntaxError pname)
  | None => Raise (SyntaxError pname)
  end.

(** The text of one place of the pattern, whose own variable is [var]. *)
Definition parse_slot (initNs : NamespaceDict) (var txt : string)
  : result slot :=
  if String.eqb txt var then Ok Var
  else match expand initNs txt with
       | Ok n => Ok (Const n)
       | Raise e => Raise e
       end.

Definition slot_match (sl : slot) (n : node) : bool :=
  match sl with
  | Var => true
  | Const c => node_eqb c n
  end.

Definition slot_row (sl : slot) (n : node) : node :=
  match sl with
  | Var => n
  | Const _ => PyNone
  end.

Definition pattern_match (s p o : slot) (t : triple) : bool :=
  slot_match s (subject t) && slot_match p (predicate t) &&
  slot_match o (object t).

Definition pattern_row (s p o : slot) (t : triple) : triple :=
  (slot_row s (subject t), slot_row p (predicate t), slot_row o (object t)).

(** [prepareQuery('SELECT ?s ?p ?o WHERE {s p o .}', initNs)] *)
Definition prepareQuery (initNs : NamespaceDict) (s p o : string)
  : result (slot * slot * slot) :=
  match parse_slot initNs "?s" s with
  | Raise e => Raise e
  | Ok ss =>
      match parse_slot initNs "?p" p with
      | Raise e => Raise e
      | Ok sp =>
          match parse_slot initNs "?o" o with
          | Raise e => Raise e
          | Ok so => Ok (ss, sp, so)
          end
      end
  end.

(** [g.query(q)]: one row per matching triple. *)
Definition graph_query (g : Graph) (q : slot * slot * slot) : list triple :=
  let '(ss, sp, so) := q in
  map (pattern_row ss sp so) (filter (pattern_match ss sp so) (triples g)).

Definition lift {A} (r : result A) : M A := fun self => (self, r).

(** [x if x else d] for an optional string *)
Definition str_or (x : option string) (d : string) : string :=
  match x with
  | Some EmptyString => d
  | Some s => s
  | None => d
  end.

(** ['%s' % x] for an optional string *)
Definition percent_s (x : option string) : string :=
  match x with
  | Some s => s
  | None => "None"
  end.

(** ** [Validate.__queryDataGraph] (lines 159-169) *)

(** The message of the assertion of lines 167-168. *)
Definition no_triple_like (s p o : option string) : string :=
  "Must have at lease one triple like '" ++ percent_s s ++ " " ++
  percent_s p ++ " " ++ percent_s o ++ "'".

Definition queryDataGraph (s p o : option string) : M (list triple) :=
  d <- get namespaceDict ;;
  q <- lift (prepareQuery d (str_or s "?s") (str_or p "?p") (str_or o "?o")) ;;
  dg <- attr "data_graph" data_graph ;;
  let res := graph_query dg q in
  py_assert (negb (Nat.eqb (length res) 0)) (no_triple_like s p o) ;;
  ret res.

(** ** [Validate.__violationPredicateObj] (lines 175-185) *)

Definition violationPredicateObj (violation : Graph) (predicate : string)
           (mustFind : bool) : M node :=
  d <- get namespaceDict ;;
  q <- lift (prepareQuery d "?s" predicate "?o") ;;
  let res := graph_query violation q in
  (if mustFind
   then py_assert (Nat.eqb (length res) 1) ("Must have predicate '" ++ predicate ++ "'")
   else ret tt) ;;
  match res with
  | (_, _, o) :: _ => ret o
  | [] => ret PyNone
  end.

(** ** Python values the resolver inspects *)

(** The label of the n-th generated blank node; rdflib draws it from a
    UUID, what matters here is that it is not empty and has no ['#']. *)
Definition gen_label (n : nat) : string :=
  "N" ++ String.concat "" (repeat "0" n).

(** [bool(x)]: a term is a string and true unless empty, a graph is true
    unless it has no triples. *)
Definition truthy (h : list Graph) (x : node) : bool :=
  match x with
  | URIRef s | BNode s | Literal s => negb (String.eqb s "")
  | GenBNode _ => true
  | GraphRef i =>
      match nth_error h i with
      | Some g => negb (Nat.eqb (graph_len g) 0)
      | None => false
      end
  | PyNone => false
  end.

(** [x.split('#')] *)
Definition py_split (x : node) : M (list string) :=
  match x with
  | URIRef s | BNode s | Literal s => ret (Str.split "#" s)
  | GenBNode n => ret (Str.split "#" (gen_label n))
  | GraphRef _ | PyNone => raise (AttributeError "split")
  end.

(** [(a, b) = l] *)
Definition unpack2 (l : list string) : M (string * string) :=
  match l with
  | [a; b] => ret (a, b)
  | _ => raise (ValueError "unpack")
  end.

(** [d[k]] *)
Definition dict_item (d : NamespaceDict) (k : string) : M string :=
  match dict_get d k with
  | Some v => ret v
  | None => raise (KeyError k)
  end.

(** Reading a local variable that may not have been assigned. *)
Definition local {A} (name : string) (v : option A) : M A :=
  match v with
  | Some a => ret a
  | None => raise (UnboundLocalError name)
  end.

(** [isinstance(x, Node)]: every term of the model but [None] is one. *)
Definition is_Node (x : node) : bool :=
  match x with
  | PyNone => false
  | _ => true
  end.

(** A new graph object that holds the triple [t], known by its index. *)
Definition Graph_of (t : triple) : M nat :=
  h <- get store ;;
  modify (set_store (h ++ [graph_add t Graph_new])) ;;
  ret (length h).

(** [g = Graph(); g.add(t)]. [Graph.add] of rdflib first asserts that the
    subject, the predicate and the object are rdflib terms, so a triple
    with [None] raises before the graph holds anything; the graph object
    created just before is then referred to by nothing and is not entered
    in the store. *)
Definition Graph_with (t : triple) : M nat :=
  let '(s, p, o) := t in
  py_assert (is_Node s) "Subject None must be an rdflib term" ;;
  py_assert (is_Node p) "Predicate None must be an rdflib term" ;;
  py_assert (is_Node o) "Object None must be an rdflib term" ;;
  Graph_of t.

Arguments Graph_with : simpl never.

(** [BNode()] *)
Definition BNode_fresh : M node :=
  n <- get bnodes ;;
  modify (set_bnodes (S n)) ;;
  ret (GenBNode n).

(** The violation dictionary: [dict] from a violation's node to its graph. *)
Definition ViolationDict : Type := list (node * Graph).

Fixpoint vdict_get (d : ViolationDict) (k : node) : option Graph :=
  match d with
  | [] => None
  | (k', g) :: d' => if node_eqb k k' then Some g else vdict_get d' k
  end.

Definition vdict_mem (d : ViolationDict) (k : node) : bool :=
  match vdict_get d k with Some _ => true | None => false end.

Fixpoint vdict_set (d : ViolationDict) (k : node) (g : Graph) : ViolationDict :=
  match d with
  | [] => [(k, g)]
  | (k', g') :: d' =>
      if node_eqb k k' then (k, g) :: d' else (k', g') :: vdict_set d' k g
  end.

(** The keyword arguments that [validate] hands on to the engine. *)
Record EngineOpts : Type := mkEngineOpts {
  inference : string;
  abort_on_error : bool;
  meta_shacl : bool;
  debug : bool
}.

(** [x if x else d] for an optional graph: a graph without triples is
    false as well. *)
Definition graph_or (x : option Graph) (d : Graph) : Graph :=
  match x with
  | Some g => if Nat.eqb (graph_len g) 0 then d else g
  | None => d
  end.

(** One call of [validate], with its arguments. *)
Record Call : Type := mkCall {
  call_data : Graph;
  call_shacl : option Graph;
  call_ont : option Graph;
  call_opts : EngineOpts
}.

Section Validator.

(** [SH] and [BSH] of [brickschema.namespaces]; that module is not among the
    sources, so the two namespace IRIs are parameters. *)
Variable SH_ns BSH_ns : string.

(** [pyshacl.validate], the external engine; it may raise. *)
Variable pyshacl_validate :
  Graph -> Graph -> Graph -> EngineOpts -> result (bool * Graph * string).

(** [g.serialize(format='ttl')] of rdflib, given the store of graph objects. *)
Variable serialize : list Graph -> Graph -> string.

Definition SH (name : string) : node := URIRef (SH_ns ++ name).
Definition BSH (name : string) : node := URIRef (BSH_ns ++ name).

(** ** [Validate.__triplesForOneViolation] (lines 190-243)

    The method mutates the graph it is given; here it returns the graph
    after the call. Every statement that can raise comes before the first
    [violation.add], so a call that raises has left the graph as it was.
    The name [g] is a local of the method (lines 205 and 234 assign it), so
    the read of [g] on line 240 is a read of that local. *)

(** The loop of lines 233-236. The assertions of [Graph.add] on line 235
    hold on every pass and are left out: [focusNode] has been split as a
    string on line 224, [URIRef(fullPath)] is a term, and [o] is the binding
    of [?o] in a row of the query, the object of a triple of the data graph,
    and an rdflib graph holds terms only. *)
Fixpoint attach_rows (focusNode : node) (fullPath : string)
         (res : list triple) (violation : Graph) : M Graph :=
  match res with
  | [] => ret violation
  | (_, _, o) :: res' =>
      g <- Graph_of (focusNode, URIRef fullPath, o) ;;
      b <- BNode_fresh ;;
      attach_rows focusNode fullPath res'
                  (graph_add (b, BSH "offendingTriple", GraphRef g) violation)
  end.

Definition triplesForOneViolation (violation : Graph) : M Graph :=
  resultPath <- violationPredicateObj violation "sh:resultPath" false ;;
  h <- get store ;;
  if truthy h resultPath then
    focusNode <- violationPredicateObj violation "sh:focusNode" true ;;
    valueNode <- violationPredicateObj violation "sh:value" false ;;
    g <- Graph_with (focusNode, resultPath, valueNode) ;;
    b <- BNode_fresh ;;
    ret (graph_add (b, BSH "offendingTriple", GraphRef g) violation)
  else
    sourceShape <- violationPredicateObj violation "sh:sourceShape" true ;;
    parts <- py_split sourceShape ;;
    bsh_shapeName <- unpack2 parts ;;
    let shapeName := snd bsh_shapeName in
    if Str.endswith shapeName "DomainShape" then
      let brickProp := Str.drop_last (String.length "DomainShape") shapeName in
      let path := "brick:" ++ brickProp in
      d <- get namespaceDict ;;
      brick <- dict_item d "brick" ;;
      let fullPath := brick ++ brickProp in
      focusNode <- violationPredicateObj violation "sh:focusNode" true ;;
      parts <- py_split focusNode ;;
      ns_name <- unpack2 parts ;;
      let '(ns, name) := ns_name in
      let namespaces :=
        map fst (filter (fun kv => String.eqb (ns ++ "#") (snd kv)) d) in
      py_assert (negb (Nat.eqb (length namespaces) 0))
                ("Must find a prefix for " ++ ns ++ "#" ++ name) ;;
      res <- queryDataGraph (Some (hd "" namespaces ++ ":" ++ name))
                            (Some path) None ;;
      attach_rows focusNode fullPath res violation
    else
      (* line 240 reads the local [g]; on this path nothing has assigned it *)
      g <- local "g" (@None nat) ;;
      h <- get store ;;
      log_record "ERROR"
        ("no triple finder for violation " ++
         serialize h (nth g h Graph_new)) ;;
      ret violation.

(** ** [Validate.__attachOffendingTriples] (lines 114-144) *)

(** Round 1, lines 132-136. *)
Definition round1_step (nsd : NamespaceDict) (d : ViolationDict) (t : triple)
  : ViolationDict :=
  let '(s, p, o) := t in
  if negb (vdict_mem d o) && node_eqb p (SH "result")
  then vdict_set d o
         (fold_left (fun g n => graph_bind (fst n) (snd n) g) nsd Graph_new)
  else d.

Definition round1 (nsd : NamespaceDict) (results : Graph) (d : ViolationDict)
  : ViolationDict :=
  fold_left (round1_step nsd) (triples results) d.

(** Round 2, lines 138-140. *)
Definition round2_step (d : ViolationDict) (t : triple) : ViolationDict :=
  let '(s, p, o) := t in
  match vdict_get d s with
  | Some g => vdict_set d s (graph_add (s, p, o) g)
  | None => d
  end.

Definition round2 (results : Graph) (d : ViolationDict) : ViolationDict :=
  fold_left round2_step (triples results) d.

(** The body of the loop of lines 143-144 for the entry of key [k]. *)
Definition resolve_entry (k : node) : M unit :=
  d <- attr "violationDict" violationDict ;;
  match vdict_get d k with
  | Some violation =>
      violation' <- triplesForOneViolation violation ;;
      modify (fun self => set_violationDict (vdict_set d k violation') self)
  | None => ret tt
  end.

Definition attachOffendingTriples : M unit :=
  log_record "INFO" "find offending triple(s) for each violation" ;;
  modify (set_namespaceDict []) ;;
  rg <- attr "results_graph" results_graph ;;
  buildNamespaceDict rg ;;
  dg <- attr "data_graph" data_graph ;;
  buildNamespaceDict dg ;;
  nsd <- get namespaceDict ;;
  modify (set_violationDict (round2 rg (round1 nsd rg []))) ;;
  d <- attr "violationDict" violationDict ;;
  for_each (map fst d) resolve_entry.

(** ** [Validate.validate] (lines 50-85)

    The keyword [advanced] of the source is accepted and not handed on to
    the engine, so it is no argument here. *)

Definition validate (data : Graph) (shacl_graph ont_graph : option Graph)
           (opts : EngineOpts) : M (bool * Graph * string) :=
  log_record "INFO" "wrapper function for pySHACL validate()" ;;
  sg <- get (fun self => graph_or shacl_graph (shapeG self)) ;;
  og <- get (fun self => graph_or ont_graph (brickG self)) ;;
  modify (set_data_graph data) ;;
  r <- lift (pyshacl_validate data sg og opts) ;;
  modify (set_results r) ;;
  let '(c, rg, text) := r in
  att <- get attachOffender ;;
  if c || negb att then ret (c, rg, text)
  else
    attachOffendingTriples ;;
    d <- attr "violationDict" violationDict ;;
    ret (c, fold_left (fun violationsG kv => graph_union violationsG (snd kv))
                      d Graph_new, text).

(** [Validate.accumulatedNamespaces] (lines 99-103) *)
Definition accumulatedNamespaces : M NamespaceDict := get namespaceDict.

(** [Validate.violationList] (lines 105-109) *)
Definition violationList : M (list Graph) :=
  d <- attr "violationDict" violationDict ;;
  ret (map snd d).

(** ** [Validate.__init__] (lines 24-47) *)

(** [g.update('DELETE { ?s p ?o .} WHERE { ?s p ?o . }', initNs)] *)
Definition delete_predicate (initNs : NamespaceDict) (p : string) (g : Graph)
  : result Graph :=
  match expand initNs p with
  | Ok pn => Ok (mkGraph (filter (fun t => negb (node_eqb (predicate t) pn))
                                 (triples g))
                         (namespaces g))
  | Raise e => Raise e
  end.

Definition update_brickG (p : string) : M unit :=
  d <- get namespaceDict ;;
  g <- get brickG ;;
  g' <- lift (delete_predicate d p g) ;;
  modify (set_brickG g').

(** The instance before the body of [__init__] has run; [Brick_ttl] and
    [BrickShape_ttl] are the two packaged files as parsed. *)
Definition blank (attach : bool) (Brick_ttl : Graph) : Validate :=
  mkValidate attach Brick_ttl Graph_new [] None None None None None [] 0 [].

Definition init (attach : bool) (Brick_ttl BrickShape_ttl : Graph)
  : Validate * result unit :=
  (log_record "INFO" "Validate init" ;;
   modify (set_namespaceDict []) ;;
   g <- get brickG ;;
   buildNamespaceDict g ;;
   update_brickG "rdfs:domain" ;;
   update_brickG "rdfs:range" ;;
   modify (set_shapeG BrickShape_ttl))
  (blank attach Brick_ttl).

(** ** Observations of the validator that the statements use *)

(** The objects of the [sh:result] triples of a list of triples. *)
Definition result_objects (ts : list triple) : list node :=
  map object (filter (fun t => node_eqb (predicate t) (SH "result")) ts).

(** The offending-triple attachments of a violation graph. *)
Definition attachments (g : Graph) : list triple :=
  filter (fun t => node_eqb (predicate t) (BSH "offendingTriple"))
         (triples g).

(** A violation graph after [n] attachments, the first with blank node [b]
    and inner graph [h]. *)
Fixpoint attach_all (b h n : nat) (violation : Graph) : Graph :=
  match n with
  | 0 => violation
  | S n' =>
      attach_all (S b) (S h) n'
        (graph_add (GenBNode b, BSH "offendingTriple", GraphRef h)
                   violation)
  end.

(** The instance after a sequence of calls of [validate], each of which may
    return or raise. *)
Definition after_calls (calls : list Call) (self : Validate) : Validate :=
  fold_left (fun s c => fst (validate (call_data c) (call_shacl c)
                                       (call_ont c) (call_opts c) s))
            calls self.

End Validator.

(** ** [ResultsSerialize] (lines 247-311)

    The output file is the sequence of the strings written to it. The
    methods get the store of graph objects, since a violation refers to its
    inner graphs. *)

Definition nl : string := String "010" EmptyString.

(** ['%d' % n] *)
Definition decimal (n : nat) : string := NilEmpty.string_of_uint (Nat.to_uint n).

Section ResultsSerialize.

Variable BSH_ns : string.
Variable serialize : list Graph -> Graph -> string.

Record ResultsSerialize : Type := mkResultsSerialize {
  violations : list Graph;          (* [self.violationList] *)
  outFile : list string;
  prefixes : NamespaceDict          (* [self.namespaceDict] *)
}.

Definition write (x : string) (self : ResultsSerialize) : ResultsSerialize :=
  mkResultsSerialize (violations self) (outFile self ++ [x]) (prefixes self).

(** The test of lines 271-273. *)
Definition kept (line : string) : bool :=
  negb (Str.startswith line "@prefix") &&
  negb (Str.contains line "offendingTriple") &&
  Str.strip_nonempty line.

(** What the loop of lines 268-275 writes for [g]. *)
Definition graph_lines (h : list Graph) (nsd : NamespaceDict) (g : Graph)
  : list string :=
  let g' := fold_left (fun acc n => graph_bind (fst n) (snd n) acc) nsd g in
  flat_map (fun line => [line; nl])
           (filter kept (Str.splitlines (serialize h g'))).

(** [ResultsSerialize.__appendGraph] (lines 262-275) *)
Definition appendGraph (h : list Graph) (msg : option string) (g : Graph)
           (self : ResultsSerialize) : ResultsSerialize :=
  let self1 := match msg with
               | Some EmptyString | None => self
               | Some m => write m self
               end in
  fold_left (fun acc x => write x acc) (graph_lines h (prefixes self) g) self1.

(** [for (s1, p1, o1) in o]: the triples of [o] when it is a graph. A term
    is a string; iterating it yields its characters, which do not unpack
    into three names. *)
Definition iter_triples (h : list Graph) (o : node) : result (list triple) :=
  match o with
  | GraphRef i => Ok (triples (nth i h Graph_new))
  | URIRef EmptyString | BNode EmptyString | Literal EmptyString => Ok []
  | URIRef _ | BNode _ | Literal _ | GenBNode _ =>
      Raise (ValueError "not enough values to unpack")
  | PyNone => Raise (TypeError "'NoneType' object is not iterable")
  end.

(** The loop of lines 283-289. *)
Fixpoint tripleGraphs (h : list Graph) (ts : list triple)
  : result (list Graph) :=
  match ts with
  | [] => Ok []
  | (s, p, o) :: ts' =>
      if node_eqb p (BSH BSH_ns "offendingTriple") then
        match iter_triples h o with
        | Raise e => Raise e
        | Ok inner =>
            let tripleG := fold_left (fun acc t => graph_add t acc)
                                     inner Graph_new in
            match tripleGraphs h ts' with
            | Ok l => Ok (tripleG :: l)
            | Raise e => Raise e
            end
        end
      else tripleGraphs h ts'
  end.

Definition placeholder : string :=
  "Please add triple finder for the above violation!!!" ++ nl.

(** [ResultsSerialize.__appendViolation] (lines 278-300) *)
Definition appendViolation (h : list Graph) (msg : option string) (g : Graph)
           (self : ResultsSerialize) : ResultsSerialize * result unit :=
  let self1 := appendGraph h msg g self in
  match tripleGraphs h (triples g) with
  | Raise e => (self1, Raise e)
  | Ok tgs =>
      if Nat.eqb (length tgs) 0 then (write placeholder self1, Ok tt)
      else
        let self2 :=
          if Nat.eqb (length tgs) 1
          then write ("Offending triple:" ++ nl) self1
          else write ("Potential offending triples:" ++ nl) self1 in
        (fold_left (fun acc tripleG => appendGraph h None tripleG acc)
                   tgs self2, Ok tt)
  end.

Fixpoint appendViolations (h : list Graph) (gs : list Graph)
         (self : ResultsSerialize) : ResultsSerialize * result unit :=
  match gs with
  | [] => (self, Ok tt)
  | g :: gs' =>
      match appendViolation h (Some (nl ++ "Constraint violation:" ++ nl))
                            g self with
      | (self', Ok _) => appendViolations h gs' self'
      | (self', Raise e) => (self', Raise e)
      end
  end.

(** [ResultsSerialize.appendToOutput] (lines 303-309) *)
Definition appendToOutput (h : list Graph) (self : ResultsSerialize)
  : ResultsSerialize * result unit :=
  appendViolations h (violations self)
    (write (nl ++ "Additional info (" ++ decimal (length (violations self)) ++
            " constraint violations with offending triples):" ++ nl) self).

End ResultsSerialize.

(** [ResultsSerialize.__init__] (lines 252-258). The level that it sets on
    the root logger is no part of the instance. *)
Definition ResultsSerialize_init (violationList : list Graph)
           (namespaceDict : NamespaceDict) (output : list string)
  : ResultsSerialize :=
  mkResultsSerialize violationList output namespaceDict.

(** ** [Validate.addShapeFile] (lines 87-96) *)

Section ShapeFiles.

(** [Graph().parse(source, format='turtle')] of rdflib: the graph that the
    source holds, or the exception of the reader. *)
Variable parse : string -> result Graph.

(** The method returns nothing; the value here is what its two [print]
    statements write to the standard output, one string per statement.
    Both follow the only statement that can raise, so a call that raises
    has printed nothing. *)
Definition addShapeFile (shapeFile : string) : M (list string) :=
  log_record "INFO" ("load shape file " ++ shapeFile) ;;
  g <- lift (parse shapeFile) ;;
  old <- get shapeG ;;
  let line1 := decimal (graph_len old) ++ " " ++ decimal (graph_len g) ++ nl in
  modify (fun self => set_shapeG (graph_union (shapeG self) g) self) ;;
  new <- get shapeG ;;
  ret [line1; decimal (graph_len new) ++ nl].

End ShapeFiles.

(** ** The command line: [__main] (lines 314-368)

    The function is modelled from the parsed arguments on. The option
    [-o] is declared with [nargs='?'] and without [const] (lines 336-339):
    [args.output] is the standard output when the option is absent, the
    file opened for writing when it comes with a name, and [None] when it
    comes without one. An output file is the sequence of the strings
    written to it and a flag that says whether it has been closed.
    [exit(c)] ends the script: the value [Ok c] says that the script has
    reached [exit(c)], and [Raise e] that the exception [e] has left it
    before. *)

Record Args : Type := mkArgs {
  arg_data : string;                (* the data graph file *)
  arg_shacl : option string;        (* [-s] *)
  arg_ont : option string;          (* [-e] *)
  arg_inference : string;           (* [-i] *)
  arg_metashacl : bool;             (* [-m] *)
  arg_advanced : bool;              (* [-a] *)
  arg_abort : bool;                 (* [--abort] *)
  arg_debug : bool;                 (* [-d] *)
  arg_output : option string        (* [-o]: the name of the open file,
                                       or [None] for a bare [-o] *)
}.

Record File : Type := mkFile {
  written : list string;
  closed : bool
}.

Definition file_write (x : string) (f : File) : File :=
  mkFile (written f ++ [x]) (closed f).

Definition file_close (f : File) : File := mkFile (written f) true.

Section Script.

Variable SH_ns BSH_ns : string.
Variable pyshacl_validate :
  Graph -> Graph -> Graph -> EngineOpts -> result (bool * Graph * string).
Variable serialize : list Graph -> Graph -> string.
Variable parse : string -> result Graph.

(** The two packaged files [ontologies/Brick.ttl] and
    [ontologies/BrickShape.ttl], as parsed. *)
Variable Brick_ttl BrickShape_ttl : Graph.

(** Lines 346-349 and 351-354: the graph of an optional file; an option
    that is absent or empty gives [None]. *)
Definition parse_optional (path : option string) : result (option Graph) :=
  match path with
  | Some EmptyString | None => Ok None
  | Some f =>
      match parse f with
      | Ok g => Ok (Some g)
      | Raise e => Raise e
      end
  end.

Definition main (args : Args) : File * result Z :=
  let output := mkFile [] false in
  match parse (arg_data args) with
  | Raise e => (output, Raise e)
  | Ok dataG =>
  match parse_optional (arg_shacl args) with
  | Raise e => (output, Raise e)
  | Ok shaclG =>
  match parse_optional (arg_ont args) with
  | Raise e => (output, Raise e)
  | Ok ontG =>
  match init true Brick_ttl BrickShape_ttl with
  | (_, Raise e) => (output, Raise e)
  | (vModule, Ok _) =>
  match validate SH_ns BSH_ns pyshacl_validate serialize dataG shaclG ontG
                 (mkEngineOpts (arg_inference args) (arg_abort args)
                               (arg_metashacl args) (arg_debug args))
                 vModule with
  | (_, Raise e) => (output, Raise e)
  | (vModule, Ok (conforms, results_graph, results_text)) =>
      match arg_output args with
      | None => (output, Raise (AttributeError "write"))   (* line 361 *)
      | Some _ =>
      let output := file_write results_text output in
      if negb conforms then
        match violationList vModule with
        | (_, Raise e) => (output, Raise e)
        | (vModule, Ok vl) =>
            match accumulatedNamespaces vModule with
            | (_, Raise e) => (output, Raise e)
            | (vModule, Ok nsd) =>
                match appendToOutput BSH_ns serialize (store vModule)
                        (ResultsSerialize_init vl nsd (written output)) with
                | (rs, Raise e) => (mkFile (outFile rs) (closed output), Raise e)
                | (rs, Ok _) =>
                    (file_close (mkFile (outFile rs) (closed output)),
                     Ok (-1)%Z)
                end
            end
        end
      else (file_close output, Ok 0%Z)
      end
  end end end end end.

End Script.

(** ** Vocabulary of the statements *)

(** [keeps f m]: running [m] does not change the observation [f] of the
    instance, whether [m] returns or raises. *)
Definition keeps {A B} (f : Validate -> B) (m : M A) : Prop :=
  forall self, f (fst (m self)) = f self.

(** An observation of the instance that does not read the store, the
    counter or the log. *)
Record stable {B} (f : Validate -> B) : Prop := mkStable {
  stable_store : forall h self, f (set_store h self) = f self;
  stable_bnodes : forall n self, f (set_bnodes n self) = f self;
  stable_log : forall a b c d e g h i j k l m m',
      f (mkValidate a b c d e g h i j k l m) =
      f (mkValidate a b c d e g h i j k l m')
}.

(** The instance when the engine has answered [r]. *)
Definition engine_answered (data : Graph) (r : bool * Graph * string)
           (self : Validate) : Validate :=
  set_results r
    (set_data_graph data
       (fst (log_record "INFO" "wrapper function for pySHACL validate()" self))).

(** The triples that round 2 adds to the graph of key [k]. *)
Definition own_triples (k : node) (ts : list triple) : list triple :=
  filter (fun t => node_eqb (subject t) k) ts.

(** The objects of the triples of [g] whose predicate is [p]. *)
Definition objects_of (p : node) (g : Graph) : list node :=
  map object (filter (fun t => node_eqb p (predicate t)) (triples g)).

(** The objects of the triples of [g] with subject [s] and predicate [p]. *)
Definition objects_at (s p : node) (g : Graph) : list node :=
  map object
      (filter (fun t => node_eqb s (subject t) && node_eqb p (predicate t))
              (triples g)).

(** The instance after the resolver has created the inner graphs [gs] and as
    many blank nodes. *)
Definition resolved (self : Validate) (gs : list Graph) : Validate :=
  set_bnodes (bnodes self + length gs) (set_store (store self ++ gs) self).

(** What [__appendGraph] writes first: the message, if it is given and not
    empty. *)
Definition heading (msg : option string) : list string :=
  match msg with
  | Some EmptyString | None => []
  | Some m => [m]
  end.

(** The copy that [__appendViolation] makes of the inner graph of an
    attachment. *)
Definition inner_copy (h : list Graph) (t : triple) : Graph :=
  match object t with
  | GraphRef i =>
      fold_left (fun acc x => graph_add x acc)
                (triples (nth i h Graph_new)) Graph_new
  | _ => Graph_new
  end.

(** A place of the pattern of [__queryDataGraph] that the model covers: it
    is left open, or it holds a prefixed name of the SPARQL grammar. *)
Definition pattern_text (x : option string) : bool :=
  match x with
  | None | Some EmptyString => true
  | Some txt =>
      match Str.cut ":" txt with
      | Some (pfx, local) => prefixed_name pfx local
      | None => false
      end
  end.

(** The i-th attachment of a resolution whose first attachment has the
    blank node [b] and the inner graph [h]. *)
Definition attachment (BSH_ns : string) (b h i : nat) : triple :=
  (GenBNode (b + i), BSH BSH_ns "offendingTriple", GraphRef (h + i)).

(** The heading over the inner graphs of a violation with [n] attachments
    (lines 295-298). *)
Definition section_label (n : nat) : string :=
  if Nat.eqb n 1 then "Offending triple:" ++ nl
  else "Potential offending triples:" ++ nl.

(** The line that [appendToOutput] writes first (lines 304-305). *)
Definition header (n : nat) : string :=
  nl ++ "Additional info (" ++ decimal n ++
  " constraint violations with offending triples):" ++ nl.

(** The message that [appendToOutput] hands to [__appendViolation]. *)
Definition violation_title : option string :=
  Some (nl ++ "Constraint violation:" ++ nl).

(** What the renderer writes for one violation all of whose attachments
    frame graphs: the title, the body and then the placeholder or the
    labelled inner graphs. *)
Definition violation_lines (BSH_ns : string)
           (serialize : list Graph -> Graph -> string)
           (h : list Graph) (nsd : NamespaceDict) (g : Graph) : list string :=
  (heading violation_title ++ graph_lines serialize h nsd g ++
   match attachments BSH_ns g with
   | [] => [placeholder]
   | a :: atts =>
       section_label (length (a :: atts)) ::
       flat_map (graph_lines serialize h nsd)
                (map (inner_copy h) (a :: atts))
   end)%list.

(** ** Concrete graphs, used where a statement is checked on an instance *)

Module Examples.

Definition SHn : string := "http://www.w3.org/ns/shacl#".
Definition BSHn : string := "https://brickschema.org/schema/1.1/BrickShape#".
Definition BRICKn : string := "https://brickschema.org/schema/1.1/Brick#".
Definition EXn : string := "http://example.com#".

(** An engine that reports [r] whatever it is given. *)
Definition engine (r : bool * Graph * string)
  : Graph -> Graph -> Graph -> EngineOpts -> result (bool * Graph * string) :=
  fun _ _ _ _ => Ok r.

Definition opts : EngineOpts := mkEngineOpts "rdfs" false true false.

(** A writer of one line per binding and one line per triple. *)
Definition node_text (x : node) : string :=
  match x with
  | URIRef s => "<" ++ s ++ ">"
  | BNode s => "_:" ++ s
  | GenBNode n => "_:" ++ gen_label n
  | Literal s => s
  | GraphRef _ => "[]"
  | PyNone => "None"
  end.

Definition turtle (h : list Graph) (g : Graph) : string :=
  String.concat ""
    (map (fun b => "@prefix " ++ fst b ++ ": <" ++ snd b ++ "> ." ++ nl)
         (namespaces g) ++
     map (fun t => node_text (subject t) ++ " " ++ node_text (predicate t)
                   ++ " " ++ node_text (object t) ++ " ." ++ nl)
         (triples g)).

Definition report : node := BNode "report".
Definition v1 : node := BNode "v1".
Definition Meter1 : node := URIRef (EXn ++ "Meter1").
Definition Point1 : node := URIRef (EXn ++ "Point1").
Definition hasPoint : node := URIRef (BRICKn ++ "hasPoint").

(** A small ontology with one domain and one range axiom. *)
Definition Brick_ttl : Graph :=
  mkGraph [ (hasPoint, RDFS "domain", URIRef (BRICKn ++ "Equipment"));
            (hasPoint, RDFS "range", URIRef (BRICKn ++ "Point"));
            (hasPoint, RDFS "label", Literal "Has point") ]
          [ ("rdfs", RDFS_ns); ("brick", BRICKn) ].

Definition BrickShape_ttl : Graph :=
  mkGraph [] [ ("sh", SHn); ("bsh", BSHn) ].

(** The data graph of scenario B. *)
Definition data : Graph :=
  mkGraph [ (Meter1, hasPoint, Point1) ]
          [ ("brick", BRICKn); ("ex", EXn) ].

(** The same resource without the property assertion. *)
Definition data_without : Graph :=
  mkGraph [ (Meter1, URIRef (BRICKn ++ "feeds"), Point1) ]
          [ ("brick", BRICKn); ("ex", EXn) ].

(** The data graph of scenario B with one more prefix. *)
Definition BLDGn : string := "http://example.com/building#".

Definition data_more : Graph :=
  mkGraph [ (Meter1, hasPoint, Point1) ]
          [ ("brick", BRICKn); ("ex", EXn); ("bldg", BLDGn) ].

(** A data graph that declares no prefix of its own. *)
Definition data_bare : Graph := mkGraph [ (Meter1, hasPoint, Point1) ] [].

(** A data graph that uses [sh] for another namespace. *)
Definition data_clash : Graph :=
  mkGraph [ (Meter1, hasPoint, Point1) ] [ ("sh", EXn) ].

Definition results_ns : NamespaceDict := [ ("sh", SHn); ("bsh", BSHn) ].

(** A report without violations. *)
Definition results_none : Graph :=
  mkGraph [ (report, URIRef (SHn ++ "conforms"), Literal "true") ] results_ns.

(** A report that lists no violation although it does not conform. *)
Definition results_empty : Graph :=
  mkGraph [ (report, URIRef (SHn ++ "conforms"), Literal "false") ] results_ns.

(** Scenario A: a path violation without a value. *)
Definition results_path : Graph :=
  mkGraph [ (report, URIRef (SHn ++ "result"), v1);
            (v1, URIRef (SHn ++ "focusNode"), Meter1);
            (v1, URIRef (SHn ++ "resultPath"), hasPoint);
            (v1, URIRef (SHn ++ "sourceShape"), URIRef (BSHn ++ "MeterShape")) ]
          results_ns.

(** A path violation that names the value at fault. *)
Definition results_value : Graph :=
  mkGraph [ (report, URIRef (SHn ++ "result"), v1);
            (v1, URIRef (SHn ++ "focusNode"), Meter1);
            (v1, URIRef (SHn ++ "resultPath"), hasPoint);
            (v1, URIRef (SHn ++ "value"), Point1);
            (v1, URIRef (SHn ++ "sourceShape"), URIRef (BSHn ++ "MeterShape")) ]
          results_ns.

(** A path violation that names no focus node. *)
Definition violation_no_focus : Graph :=
  mkGraph [ (v1, URIRef (SHn ++ "resultPath"), hasPoint);
            (v1, URIRef (SHn ++ "sourceShape"), URIRef (BSHn ++ "MeterShape")) ]
          results_ns.

(** Scenario B: a violation of the domain shape of [brick:hasPoint]. *)
Definition results_domain : Graph :=
  mkGraph [ (report, URIRef (SHn ++ "result"), v1);
            (report, URIRef (SHn ++ "conforms"), Literal "false");
            (v1, URIRef (SHn ++ "focusNode"), Meter1);
            (v1, URIRef (SHn ++ "sourceShape"),
             URIRef (BSHn ++ "hasPointDomainShape")) ]
          results_ns.

(** Scenario D: neither a result path nor a domain shape. *)
Definition results_other : Graph :=
  mkGraph [ (report, URIRef (SHn ++ "result"), v1);
            (v1, URIRef (SHn ++ "focusNode"), Meter1);
            (v1, URIRef (SHn ++ "sourceShape"), URIRef (BSHn ++ "MeterShape")) ]
          results_ns.

(** The violation sub-graphs of the three reports, as the grouper leaves
    them. *)
Definition violation_of (results : Graph) : Graph :=
  mkGraph (filter (fun t => node_eqb (subject t) v1) (triples results))
          (results_ns ++ namespaces data)%list.

(** A validator as [__init__] leaves it, and one that has a data graph and
    the registry of an attachment pass over [data]. *)
Definition fresh : Validate := fst (init true Brick_ttl BrickShape_ttl).

Definition resolving (dg : Graph) : Validate :=
  set_namespaceDict (results_ns ++ namespaces dg)%list
                    (set_data_graph dg fresh).

(** The validator after scenario B, the violation graph it holds, and a
    renderer for it. *)
Definition after_domain : Validate :=
  fst (validate SHn BSHn (engine (false, results_domain, "report")) turtle
                data None None opts fresh).

Definition enriched : Graph :=
  match violationDict after_domain with
  | Some ((_, g) :: _) => g
  | _ => Graph_new
  end.

Definition renderer : ResultsSerialize :=
  mkResultsSerialize [enriched] [] (namespaceDict after_domain).

Definition title : option string :=
  Some (nl ++ "Constraint violation:" ++ nl).

(** [validate] with the engine that reports [r], and no optional graph. *)
Definition validate_with (r : bool * Graph * string) (dg : Graph)
  : M (bool * Graph * string) :=
  validate SHn BSHn (engine r) turtle dg None None opts.

Definition resolve : Graph -> M Graph := triplesForOneViolation BSHn turtle.

(** An engine that finds every data graph conforming and answers the
    ontology it was given in place of a results graph. *)
Definition echo_engine
  : Graph -> Graph -> Graph -> EngineOpts -> result (bool * Graph * string) :=
  fun _ _ ont_graph _ => Ok (true, ont_graph, "ontology").

(** An engine that fails. *)
Definition failing_engine
  : Graph -> Graph -> Graph -> EngineOpts -> result (bool * Graph * string) :=
  fun _ _ _ _ => Raise (ValueError "engine").

(** A shapes file, and a reader that knows a data file and a shapes file. *)
Definition shapes : Graph :=
  mkGraph [ (URIRef (BSHn ++ "MeterShape"), URIRef (SHn ++ "targetClass"),
             URIRef (BRICKn ++ "Meter")) ]
          [ ("sh", SHn); ("bsh", BSHn) ].

Definition reader (source : string) : result Graph :=
  if String.eqb source "data.ttl" then Ok data
  else if String.eqb source "shapes.ttl" then Ok shapes
  else Raise (ValueError "not a Turtle file").

(** The command line [validate.py data.ttl], and one that names a file the
    reader refuses. *)
Definition args : Args :=
  mkArgs "data.ttl" None None "rdfs" false false false false
         (Some "<stdout>").

Definition args_unreadable : Args :=
  mkArgs "data.csv" None None "rdfs" false false false false
         (Some "<stdout>").

(** The command line [validate.py data.ttl -o]. *)
Definition args_bare_output : Args :=
  mkArgs "data.ttl" None None "rdfs" false false false false None.

Definition script (r : bool * Graph * string) : Args -> File * result Z :=
  main SHn BSHn (engine r) turtle reader Brick_ttl BrickShape_ttl.

(** A violation with an attachment that frames a term and no graph. *)
Definition violation_framing_a_term : Graph :=
  mkGraph [ (v1, URIRef (SHn ++ "focusNode"), Meter1);
            (BNode "b1", URIRef (BSHn ++ "offendingTriple"), Meter1) ]
          results_ns.

(** A validator built with attachment disabled. *)
Definition fresh_without_attachment : Validate :=
  fst (init false Brick_ttl BrickShape_ttl).


(** A violation whose source shape is a blank node. *)
Definition violation_blank_shape : Graph :=
  mkGraph [ (v1, URIRef (SHn ++ "focusNode"), Meter1);
            (v1, URIRef (SHn ++ "sourceShape"), BNode "shape1") ]
          results_ns.

(** A data graph that binds [brick] and no prefix for its own resources. *)
Definition data_without_ex : Graph :=
  mkGraph [ (Meter1, hasPoint, Point1) ] [ ("brick", BRICKn) ].

(** What [validate] returns in scenario B. *)
Definition returned_domain : bool * Graph * string :=
  (false,
   mkGraph [ (v1, URIRef (SHn ++ "focusNode"), Meter1);
             (v1, URIRef (SHn ++ "sourceShape"),
              URIRef (BSHn ++ "hasPointDomainShape"));
             (GenBNode 0, URIRef (BSHn ++ "offendingTriple"), GraphRef 0) ]
           (results_ns ++ namespaces data)%list,
   "report").

End Examples.

(** * Properties *)

(** ** Dictionaries *)

Lemma dict_get_set_same (d : NamespaceDict) (k v : string) :
  dict_get (dict_set d k v) k = Some v.
Proof.
  induction d as [|[k' v'] d IH]; simpl.
  - now rewrite String.eqb_refl.
  - destruct (String.eqb k k') eqn:E; simpl; rewrite ?String.eqb_refl, ?E; auto.
Qed.

Lemma dict_get_set_other (d : NamespaceDict) (k k' v : string) :
  k <> k' -> dict_get (dict_set d k' v) k = dict_get d k.
Proof.
  intros Hne. induction d as [|[k0 v0] d IH]; simpl.
  - destruct (String.eqb_spec k k'); congruence.
  - destruct (String.eqb_spec k' k0) as [->|Hk]; simpl.
    + destruct (String.eqb_spec k k0); congruence.
    + destruct (String.eqb_spec k k0); auto.
Qed.

Lemma dict_get_In (d : NamespaceDict) (k v : string) :
  dict_get d k = Some v -> In (k, v) d.
Proof.
  induction d as [|[k' v'] d IH]; simpl; [discriminate|].
  destruct (String.eqb_spec k k') as [->|]; intros H.
  - injection H as ->. now left.
  - right. auto.
Qed.

Lemma dict_set_In (d : NamespaceDict) (k v k0 v0 : string) :
  In (k0, v0) (dict_set d k v) -> In (k0, v0) d \/ (k0, v0) = (k, v).
Proof.
  induction d as [|[k' v'] d IH]; simpl.
  - intros [H|[]]. right. congruence.
  - destruct (String.eqb k k'); simpl; intros [H|H]; auto.
    destruct (IH H); auto.
Qed.

Lemma dict_In_get (d : NamespaceDict) (k v : string) :
  NoDup (map fst d) -> In (k, v) d -> dict_get d k = Some v.
Proof.
  induction d as [|[k' v'] d IH]; simpl; [tauto|].
  intros Hnd [Heq|Hin]; inversion Hnd as [|? ? Hout Hnd']; subst.
  - injection Heq as -> ->. now rewrite String.eqb_refl.
  - destruct (String.eqb_spec k k') as [->|Hne]; auto.
    exfalso. apply Hout. now apply (in_map fst _ (k', v)).
Qed.

(** The first prefix that the registry binds to a namespace. *)
Lemma first_prefix_bound (d : NamespaceDict) (ns pfx : string)
      (rest : list string) :
  NoDup (map fst d) ->
  map fst (filter (fun kv => String.eqb ns (snd kv)) d) = pfx :: rest ->
  dict_get d pfx = Some ns.
Proof.
  intros Hnd Hf. apply dict_In_get; [exact Hnd|].
  assert (Hin : In pfx (map fst (filter (fun kv => String.eqb ns (snd kv)) d)))
    by (rewrite Hf; now left).
  apply in_map_iff in Hin as ([k v] & <- & Hin).
  apply filter_In in Hin as [Hin Hv]. simpl in *.
  apply String.eqb_eq in Hv. now subst.
Qed.

(** ** Strings *)

Lemma split_no_sep (c : ascii) (s : string) :
  Str.mem c s = false -> Str.split c s = [s].
Proof.
  induction s as [|a s IH]; simpl; [reflexivity|].
  destruct (Ascii.eqb a c); simpl; [discriminate|].
  intros H. now rewrite IH.
Qed.

Lemma split_join (c : ascii) (a b : string) :
  Str.mem c a = false -> Str.mem c b = false ->
  Str.split c (a ++ String c b) = [a; b].
Proof.
  intros Ha Hb. induction a as [|x a IH]; simpl in *.
  - now rewrite Ascii.eqb_refl, split_no_sep.
  - destruct (Ascii.eqb x c); simpl in *; [discriminate|].
    now rewrite IH.
Qed.

Lemma cut_join (c : ascii) (a b : string) :
  Str.mem c a = false -> Str.cut c (a ++ String c b) = Some (a, b).
Proof.
  intros Ha. induction a as [|x a IH]; simpl in *.
  - now rewrite Ascii.eqb_refl.
  - destruct (Ascii.eqb x c); simpl in *; [discriminate|].
    now rewrite IH.
Qed.

Lemma substring_app_left (a b : string) :
  String.substring 0 (String.length a) (a ++ b) = a.
Proof. induction a as [|x a IH]; simpl; [now destruct b|now rewrite IH]. Qed.

Lemma substring_app_right (a b : string) :
  String.substring (String.length a) (String.length b) (a ++ b) = b.
Proof.
  induction a as [|x a IH]; simpl; [|exact IH].
  induction b as [|y b IHb]; simpl; [reflexivity|now rewrite IHb].
Qed.

Lemma string_length_app (a b : string) :
  String.length (a ++ b) = String.length a + String.length b.
Proof. induction a as [|x a IH]; simpl; auto. Qed.

Lemma endswith_app (a x : string) : Str.endswith (a ++ x) x = true.
Proof.
  unfold Str.endswith. rewrite string_length_app.
  replace (String.length a + String.length x - String.length x)
    with (String.length a) by lia.
  rewrite substring_app_right, String.eqb_refl.
  rewrite andb_true_r. apply Nat.leb_le. lia.
Qed.

Lemma drop_last_app (a x : string) :
  Str.drop_last (String.length x) (a ++ x) = a.
Proof.
  unfold Str.drop_last. rewrite string_length_app.
  replace (String.length a + String.length x - String.length x)
    with (String.length a) by lia.
  apply substring_app_left.
Qed.

Lemma mem_app (c : ascii) (a b : string) :
  Str.mem c (a ++ b) = Str.mem c a || Str.mem c b.
Proof.
  induction a as [|x a IH]; simpl; [reflexivity|].
  now rewrite IH, orb_assoc.
Qed.

Lemma app_assoc_string (a b c : string) : (a ++ b) ++ c = a ++ (b ++ c).
Proof. induction a as [|x a IH]; simpl; [|rewrite IH]; reflexivity. Qed.

Lemma str_or_some (s d : string) : s <> EmptyString -> str_or (Some s) d = s.
Proof. destruct s; [congruence|reflexivity]. Qed.

Lemma join_not_empty (a b : string) (c : ascii) : a ++ String c b <> EmptyString.
Proof. destruct a; discriminate. Qed.

(** ** Graphs as sets *)

Lemma graph_add_In (x t : triple) (g : Graph) :
  In t (triples (graph_add x g)) <-> t = x \/ In t (triples g).
Proof.
  unfold graph_add, graph_mem.
  destruct (in_dec triple_eq_dec x (triples g)) as [Hin|Hout]; simpl.
  - split; [now right|]. intros [->|H]; auto.
  - rewrite in_app_iff. simpl. intuition.
Qed.

Lemma graph_add_NoDup (x : triple) (g : Graph) :
  NoDup (triples g) -> NoDup (triples (graph_add x g)).
Proof.
  intros Hnd. unfold graph_add, graph_mem.
  destruct (in_dec triple_eq_dec x (triples g)) as [Hin|Hout]; simpl; auto.
  apply NoDup_app; auto.
  - constructor; [intros []|constructor].
  - intros y Hy [<-|[]]. contradiction.
Qed.

Lemma graph_add_all_In (ts : list triple) (g : Graph) (t : triple) :
  In t (triples (fold_left (fun acc x => graph_add x acc) ts g)) <->
  In t (triples g) \/ In t ts.
Proof.
  revert g. induction ts as [|x ts IH]; intros g; simpl.
  - intuition.
  - rewrite IH, graph_add_In. intuition.
Qed.

Lemma graph_add_all_NoDup (ts : list triple) (g : Graph) :
  NoDup (triples g) ->
  NoDup (triples (fold_left (fun acc x => graph_add x acc) ts g)).
Proof.
  revert g. induction ts as [|x ts IH]; intros g Hnd; simpl; auto.
  apply IH. now apply graph_add_NoDup.
Qed.

Lemma graph_bind_all_triples (l : NamespaceDict) (g : Graph) :
  triples (fold_left (fun acc b => graph_bind (fst b) (snd b) acc) l g) =
  triples g.
Proof. revert g. induction l as [|b l IH]; intros g; simpl; [|rewrite IH]; auto. Qed.

Lemma graph_union_In (g1 g2 : Graph) (t : triple) :
  In t (triples (graph_union g1 g2)) <->
  In t (triples g1) \/ In t (triples g2).
Proof.
  unfold graph_union. rewrite graph_add_all_In, graph_bind_all_triples.
  simpl. rewrite in_app_iff. intuition.
Qed.

Lemma graph_union_all_In (d : ViolationDict) (g0 : Graph) (t : triple) :
  In t (triples (fold_left (fun acc kv => graph_union acc (snd kv)) d g0)) <->
  In t (triples g0) \/ exists k v, In (k, v) d /\ In t (triples v).
Proof.
  revert g0. induction d as [|[k v] d IH]; intros g0; simpl.
  - split; [now left|]. intros [H|(k & v & [] & _)]. exact H.
  - rewrite IH, graph_union_In. simpl. split.
    + intros [[H|H]|(k' & v' & Hin & H)]; eauto 6.
    + intros [H|(k' & v' & [Heq|Hin] & H)]; eauto 6.
      injection Heq as <- <-. auto.
Qed.

Lemma graph_or_same (g : Graph) : graph_or (Some g) g = g.
Proof. unfold graph_or. now destruct (Nat.eqb (graph_len g) 0). Qed.

(** ** The violation dictionary *)

Lemma vdict_mem_In (d : ViolationDict) (k : node) :
  vdict_mem d k = true <-> In k (map fst d).
Proof.
  unfold vdict_mem. induction d as [|[k' g] d IH]; simpl.
  - split; [discriminate|tauto].
  - unfold node_eqb. destruct (node_eq_dec k k') as [->|Hne].
    + split; auto.
    + rewrite IH. split; auto. intros [H|H]; auto. congruence.
Qed.

Lemma vdict_get_In (d : ViolationDict) (k : node) (g : Graph) :
  vdict_get d k = Some g -> In (k, g) d.
Proof.
  induction d as [|[k' g'] d IH]; simpl; [discriminate|].
  unfold node_eqb. destruct (node_eq_dec k k') as [->|Hne]; intros H.
  - injection H as ->. now left.
  - right. auto.
Qed.

Lemma vdict_In_get (d : ViolationDict) (k : node) (g : Graph) :
  NoDup (map fst d) -> In (k, g) d -> vdict_get d k = Some g.
Proof.
  induction d as [|[k' g'] d IH]; simpl; [tauto|].
  intros Hnd [Heq|Hin]; inversion Hnd as [|? ? Hout Hnd']; subst.
  - injection Heq as -> ->. unfold node_eqb.
    now destruct (node_eq_dec k k).
  - unfold node_eqb. destruct (node_eq_dec k k') as [->|Hne]; auto.
    exfalso. apply Hout. now apply (in_map fst _ (k', g)).
Qed.

Lemma vdict_set_absent (d : ViolationDict) (k : node) (g : Graph) :
  vdict_mem d k = false -> vdict_set d k g = (d ++ [(k, g)])%list.
Proof.
  unfold vdict_mem. induction d as [|[k' g'] d IH]; simpl; auto.
  destruct (node_eqb k k'); [discriminate|].
  intros H. now rewrite IH.
Qed.

Lemma vdict_set_keys (d : ViolationDict) (k : node) (g : Graph) :
  vdict_mem d k = true -> map fst (vdict_set d k g) = map fst d.
Proof.
  unfold vdict_mem. induction d as [|[k' g'] d IH]; simpl; [discriminate|].
  unfold node_eqb. destruct (node_eq_dec k k') as [->|Hne]; simpl; auto.
  intros H. now rewrite IH.
Qed.

Lemma vdict_get_set (d : ViolationDict) (k k' : node) (g : Graph) :
  vdict_get (vdict_set d k' g) k =
  if node_eqb k k' then Some g else vdict_get d k.
Proof.
  induction d as [|[k0 g0] d IH]; simpl.
  - reflexivity.
  - destruct (node_eqb k' k0) eqn:E1; simpl.
    + unfold node_eqb in *.
      destruct (node_eq_dec k' k0) as [->|]; [|discriminate].
      now destruct (node_eq_dec k k0).
    + rewrite IH. unfold node_eqb in *.
      destruct (node_eq_dec k' k0) as [|Hne]; [discriminate|].
      destruct (node_eq_dec k k0) as [->|]; [|reflexivity].
      destruct (node_eq_dec k0 k'); congruence.
Qed.

Lemma own_triples_cons (k s p o : node) (ts : list triple) :
  own_triples k ((s, p, o) :: ts) =
  if node_eqb s k then (s, p, o) :: own_triples k ts else own_triples k ts.
Proof. reflexivity. Qed.

Lemma own_triples_In (k : node) (ts : list triple) (t : triple) :
  In t (own_triples k ts) <-> In t ts /\ subject t = k.
Proof.
  unfold own_triples. rewrite filter_In. unfold node_eqb.
  destruct (node_eq_dec (subject t) k); intuition congruence.
Qed.

Lemma round2_spec (ts : list triple) (d : ViolationDict) :
  map fst (fold_left round2_step ts d) = map fst d /\
  forall k,
    vdict_get (fold_left round2_step ts d) k =
    match vdict_get d k with
    | Some g => Some (fold_left (fun acc t => graph_add t acc)
                                (own_triples k ts) g)
    | None => None
    end.
Proof.
  revert d. induction ts as [|[[s p] o] ts IH]; intros d.
  - simpl. split; [reflexivity|]. intros k. now destruct (vdict_get d k).
  - cbn [fold_left]. unfold round2_step at 2 4.
    destruct (vdict_get d s) as [g|] eqn:Hs.
    + destruct (IH (vdict_set d s (graph_add (s, p, o) g))) as [H1 H2].
      split.
      * rewrite H1. apply vdict_set_keys. unfold vdict_mem. now rewrite Hs.
      * intros k. rewrite H2, vdict_get_set, own_triples_cons.
        unfold node_eqb. destruct (node_eq_dec k s) as [->|Hne].
        -- rewrite Hs. now destruct (node_eq_dec s s).
        -- destruct (node_eq_dec s k); [congruence|reflexivity].
    + destruct (IH d) as [H1 H2]. split; [exact H1|].
      intros k. rewrite H2, own_triples_cons.
      unfold node_eqb. destruct (node_eq_dec s k) as [<-|Hne]; [|reflexivity].
      now rewrite Hs.
Qed.

(** ** The method monad *)

Lemma bind_unfold {A B} (m : M A) (k : A -> M B) (self : Validate) :
  bind m k self =
  match m self with
  | (self', Ok a) => k a self'
  | (self', Raise e) => (self', Raise e)
  end.
Proof. reflexivity. Qed.

Lemma for_each_cons {A} (x : A) (l : list A) (body : A -> M unit)
      (self : Validate) :
  for_each (x :: l) body self =
  match body x self with
  | (self', Ok _) => for_each l body self'
  | (self', Raise e) => (self', Raise e)
  end.
Proof. reflexivity. Qed.

(** ** The registry: one step and one pass of [__buildNamespaceDict] *)

Lemma buildNamespaceDict_step_cases (prefix path : string) (self : Validate) :
  match dict_get (namespaceDict self) prefix with
  | None =>
      buildNamespaceDict_step (prefix, path) self =
      (set_namespaceDict (dict_set (namespaceDict self) prefix path) self, Ok tt)
  | Some old =>
      if String.eqb path old
      then buildNamespaceDict_step (prefix, path) self = (self, Ok tt)
      else exists msg, buildNamespaceDict_step (prefix, path) self =
                       (self, Raise (AssertionError msg))
  end.
Proof.
  unfold buildNamespaceDict_step, bind, get, py_assert, dict_mem, modify, ret,
    raise.
  destruct (dict_get (namespaceDict self) prefix) as [old|]; simpl; auto.
  destruct (String.eqb path old); simpl; eauto.
Qed.

Lemma buildNamespaceDict_step_keeps (b : string * string) (self : Validate)
      (k v : string) :
  dict_get (namespaceDict self) k = Some v ->
  dict_get (namespaceDict (fst (buildNamespaceDict_step b self))) k = Some v.
Proof.
  destruct b as [prefix path]. intros Hk.
  pose proof (buildNamespaceDict_step_cases prefix path self) as H.
  destruct (dict_get (namespaceDict self) prefix) as [old|] eqn:E.
  - destruct (String.eqb path old).
    + now rewrite H.
    + destruct H as [msg ->]. exact Hk.
  - rewrite H. simpl. rewrite dict_get_set_other; auto. congruence.
Qed.

Lemma buildNamespaceDict_step_result (b : string * string) (self : Validate) :
  snd (buildNamespaceDict_step b self) = Ok tt \/
  exists msg, snd (buildNamespaceDict_step b self) = Raise (AssertionError msg).
Proof.
  destruct b as [prefix path].
  pose proof (buildNamespaceDict_step_cases prefix path self) as H.
  destruct (dict_get (namespaceDict self) prefix) as [old|].
  - destruct (String.eqb path old).
    + rewrite H. now left.
    + destruct H as [msg ->]. right. now exists msg.
  - rewrite H. now left.
Qed.

Lemma buildNamespaceDict_keeps (g : Graph) (self : Validate) (k v : string) :
  dict_get (namespaceDict self) k = Some v ->
  dict_get (namespaceDict (fst (buildNamespaceDict g self))) k = Some v.
Proof.
  unfold buildNamespaceDict. generalize (namespaces g) as l.
  intros l; revert self. induction l as [|b l IH]; intros self Hk; [exact Hk|].
  rewrite for_each_cons.
  pose proof (buildNamespaceDict_step_keeps b self k v Hk) as Hs.
  destruct (buildNamespaceDict_step b self) as [self' [u|e]]; simpl in *; auto.
Qed.

Lemma buildNamespaceDict_conflict (g : Graph) (self : Validate)
      (prefix path old : string) :
  dict_get (namespaceDict self) prefix = Some old ->
  old <> path ->
  In (prefix, path) (namespaces g) ->
  exists msg, snd (buildNamespaceDict g self) = Raise (AssertionError msg).
Proof.
  unfold buildNamespaceDict. generalize (namespaces g) as l.
  intros l; revert self. induction l as [|b l IH]; intros self Hk Hne Hin.
  - destruct Hin.
  - rewrite for_each_cons.
    pose proof (buildNamespaceDict_step_keeps b self prefix old Hk) as Hs.
    destruct Hin as [->|Hin].
    + pose proof (buildNamespaceDict_step_cases prefix path self) as H.
      rewrite Hk in H. destruct (String.eqb_spec path old) as [->|_].
      * congruence.
      * destruct H as [msg ->]. now exists msg.
    + destruct (buildNamespaceDict_step_result b self) as [H|[msg H]];
        destruct (buildNamespaceDict_step b self) as [self' [u|e]];
        simpl in *; try discriminate.
      * now apply IH.
      * exists msg. exact H.
Qed.

Lemma buildNamespaceDict_same (g : Graph) (self : Validate) :
  (forall prefix path, In (prefix, path) (namespaces g) ->
                       dict_get (namespaceDict self) prefix = Some path) ->
  buildNamespaceDict g self = (self, Ok tt).
Proof.
  unfold buildNamespaceDict. generalize (namespaces g) as l.
  induction l as [|[prefix path] l IH]; intros Hall; [reflexivity|].
  rewrite for_each_cons.
  pose proof (buildNamespaceDict_step_cases prefix path self) as H.
  rewrite (Hall prefix path (or_introl eq_refl)), String.eqb_refl in H.
  rewrite H. apply IH. intros p q Hin. apply Hall. now right.
Qed.

(** Every binding that a pass adds comes from the graph it registers. *)
Lemma buildNamespaceDict_from (g : Graph) (L : NamespaceDict) (self : Validate) :
  incl (namespaces g) L ->
  incl (namespaceDict self) L ->
  incl (namespaceDict (fst (buildNamespaceDict g self))) L.
Proof.
  unfold buildNamespaceDict. generalize (namespaces g) as l.
  intros l; revert self. induction l as [|[prefix path] l IH];
    intros self Hl Hd; [exact Hd|].
  rewrite for_each_cons.
  pose proof (buildNamespaceDict_step_cases prefix path self) as H.
  assert (Hl' : incl l L) by (intros x Hx; apply Hl; now right).
  destruct (dict_get (namespaceDict self) prefix) as [old|].
  - destruct (String.eqb path old).
    + rewrite H. now apply IH.
    + destruct H as [msg ->]. exact Hd.
  - rewrite H. apply IH; auto. simpl.
    intros [k v] Hin. destruct (dict_set_In _ _ _ _ _ Hin) as [Hold|Hnew].
    + now apply Hd.
    + rewrite Hnew. apply Hl. now left.
Qed.

Lemma buildNamespaceDict_get (g : Graph) (self : Validate) :
  snd (buildNamespaceDict g self) = Ok tt ->
  forall k,
    dict_get (namespaceDict (fst (buildNamespaceDict g self))) k =
    match dict_get (namespaceDict self) k with
    | Some v => Some v
    | None => dict_get (namespaces g) k
    end.
Proof.
  unfold buildNamespaceDict. generalize (namespaces g) as l.
  intros l; revert self. induction l as [|[prefix path] l IH]; intros self.
  - intros _ k. simpl. now destruct (dict_get (namespaceDict self) k).
  - rewrite for_each_cons.
    pose proof (buildNamespaceDict_step_cases prefix path self) as H.
    destruct (dict_get (namespaceDict self) prefix) as [old|] eqn:E.
    + destruct (String.eqb path old) eqn:Ep.
      * rewrite H. intros Hok k. rewrite (IH self Hok). simpl.
        destruct (dict_get (namespaceDict self) k) eqn:Ek; [reflexivity|].
        destruct (String.eqb_spec k prefix); [congruence|reflexivity].
      * destruct H as [msg ->]. discriminate.
    + rewrite H. intros Hok k. rewrite (IH _ Hok). simpl.
      destruct (String.eqb_spec k prefix) as [->|Hne].
      * now rewrite dict_get_set_same, E.
      * now rewrite dict_get_set_other.
Qed.

(** C3. Registering a graph that binds a prefix to another namespace than
    the registry does raises an assertion error and the registry still holds
    the old binding; registering bindings the registry already holds
    succeeds and leaves the instance as it was; and whatever the outcome,
    no binding of the registry is overwritten. *)
Theorem C3_conflicting_prefix_raises :
  (forall (g : Graph) (self : Validate) (prefix path old : string),
      dict_get (namespaceDict self) prefix = Some old ->
      old <> path ->
      In (prefix, path) (namespaces g) ->
      (exists msg, snd (buildNamespaceDict g self) = Raise (AssertionError msg)) /\
      dict_get (namespaceDict (fst (buildNamespaceDict g self))) prefix
      = Some old) /\
  (forall (g : Graph) (self : Validate),
      (forall prefix path, In (prefix, path) (namespaces g) ->
                           dict_get (namespaceDict self) prefix = Some path) ->
      buildNamespaceDict g self = (self, Ok tt)) /\
  (forall (g : Graph) (self : Validate) (prefix ns : string),
      dict_get (namespaceDict self) prefix = Some ns ->
      dict_get (namespaceDict (fst (buildNamespaceDict g self))) prefix
      = Some ns).
Proof.
  split; [|split].
  - intros g self prefix path old Hk Hne Hin. split.
    + eapply buildNamespaceDict_conflict; eauto.
    + now apply buildNamespaceDict_keeps.
  - apply buildNamespaceDict_same.
  - intros. now apply buildNamespaceDict_keeps.
Qed.

(** ** What a method leaves untouched *)

Lemma keeps_ret {A B} (f : Validate -> B) (a : A) : keeps f (ret a).
Proof. now intros self. Qed.

Lemma keeps_raise {A B} (f : Validate -> B) (e : exn) : keeps f (@raise A e).
Proof. now intros self. Qed.

Lemma keeps_lift {A B} (f : Validate -> B) (r : result A) : keeps f (lift r).
Proof. now intros self. Qed.

Lemma keeps_get {A B} (f : Validate -> B) (g : Validate -> A) : keeps f (get g).
Proof. now intros self. Qed.

Lemma keeps_attr {A B} (f : Validate -> B) (n : string)
      (g : Validate -> option A) : keeps f (attr n g).
Proof. intros self. unfold attr. now destruct (g self). Qed.

Lemma keeps_modify {B} (f : Validate -> B) (g : Validate -> Validate) :
  (forall self, f (g self) = f self) -> keeps f (modify g).
Proof. intros H self. apply H. Qed.

Lemma keeps_bind {A B C} (f : Validate -> C) (m : M A) (k : A -> M B) :
  keeps f m -> (forall a, keeps f (k a)) -> keeps f (bind m k).
Proof.
  intros Hm Hk self. unfold bind. specialize (Hm self).
  destruct (m self) as [self' [a|e]]; simpl in *.
  - now rewrite Hk.
  - exact Hm.
Qed.

Lemma keeps_assert {B} (f : Validate -> B) (c : bool) (msg : string) :
  keeps f (py_assert c msg).
Proof. intros self. unfold py_assert. now destruct c. Qed.

Lemma keeps_local {A B} (f : Validate -> B) (n : string) (v : option A) :
  keeps f (local n v).
Proof. intros self. unfold local. now destruct v. Qed.

Lemma keeps_for_each {A B} (f : Validate -> B) (l : list A)
      (body : A -> M unit) :
  (forall x, keeps f (body x)) -> keeps f (for_each l body).
Proof.
  intros H. induction l as [|x l IH]; simpl.
  - apply keeps_ret.
  - apply keeps_bind; auto.
Qed.

Lemma keeps_log {B} (f : Validate -> B) (level msg : string) :
  (forall a b c d e g h i j k l m m',
      f (mkValidate a b c d e g h i j k l m) =
      f (mkValidate a b c d e g h i j k l m')) ->
  keeps f (log_record level msg).
Proof.
  intros H self. unfold log_record, modify. simpl. destruct self. apply H.
Qed.

Create HintDb keeps.

#[local] Hint Resolve keeps_ret keeps_raise keeps_lift keeps_get keeps_attr
  keeps_assert keeps_local : keeps.

(** Splits a goal [keeps f m] along the binds of [m]. *)
Ltac keeps_step :=
  match goal with
  | |- keeps _ (bind _ _) => apply keeps_bind; [| intros ?]
  | |- keeps _ (if ?c then _ else _) => destruct c
  | |- keeps _ (match ?x with _ => _ end) => destruct x
  | |- keeps _ (modify _) => apply keeps_modify; intros []; reflexivity
  | |- keeps _ (log_record _ _) => apply keeps_log; reflexivity
  | |- keeps _ (for_each _ _) => apply keeps_for_each; intros ?
  | |- keeps _ _ => solve [auto with keeps]
  end.

Lemma keeps_queryDataGraph {B} (f : Validate -> B) (s p o : option string) :
  keeps f (queryDataGraph s p o).
Proof. unfold queryDataGraph. cbv zeta. repeat keeps_step. Qed.

Lemma keeps_violationPredicateObj {B} (f : Validate -> B) (v : Graph)
      (p : string) (mustFind : bool) :
  keeps f (violationPredicateObj v p mustFind).
Proof. unfold violationPredicateObj. cbv zeta. repeat keeps_step. Qed.

Lemma keeps_py_split {B} (f : Validate -> B) (x : node) : keeps f (py_split x).
Proof. unfold py_split. destruct x; auto with keeps. Qed.

Lemma keeps_unpack2 {B} (f : Validate -> B) (l : list string) :
  keeps f (unpack2 l).
Proof. unfold unpack2. repeat keeps_step. Qed.

Lemma keeps_dict_item {B} (f : Validate -> B) (d : NamespaceDict) (k : string) :
  keeps f (dict_item d k).
Proof. unfold dict_item. repeat keeps_step. Qed.

#[local] Hint Resolve keeps_queryDataGraph keeps_violationPredicateObj
  keeps_py_split keeps_unpack2 keeps_dict_item : keeps.

Lemma keeps_Graph_of {B} (f : Validate -> B) (t : triple) :
  (forall h self, f (set_store h self) = f self) -> keeps f (Graph_of t).
Proof.
  intros H. unfold Graph_of.
  apply keeps_bind; [auto with keeps|intros h].
  apply keeps_bind; [|auto with keeps].
  apply keeps_modify. apply H.
Qed.

Lemma keeps_Graph_with {B} (f : Validate -> B) (t : triple) :
  (forall h self, f (set_store h self) = f self) -> keeps f (Graph_with t).
Proof.
  intros H. unfold Graph_with. destruct t as [[s p] o].
  repeat (apply keeps_bind; [auto with keeps|intros _]).
  now apply keeps_Graph_of.
Qed.

Lemma keeps_BNode_fresh {B} (f : Validate -> B) :
  (forall n self, f (set_bnodes n self) = f self) -> keeps f BNode_fresh.
Proof.
  intros H. unfold BNode_fresh.
  apply keeps_bind; [auto with keeps|intros n].
  apply keeps_bind; [|auto with keeps].
  apply keeps_modify. apply H.
Qed.

Lemma keeps_buildNamespaceDict {B} (f : Validate -> B) (g : Graph) :
  (forall d self, f (set_namespaceDict d self) = f self) ->
  keeps f (buildNamespaceDict g).
Proof.
  intros H. unfold buildNamespaceDict. apply keeps_for_each.
  intros [prefix path]. unfold buildNamespaceDict_step.
  apply keeps_bind; [auto with keeps|intros d].
  apply keeps_bind; [auto with keeps|intros _].
  destruct (negb (dict_mem d prefix)); [|auto with keeps].
  apply keeps_modify. intros self. apply H.
Qed.

Lemma stable_namespaceDict : stable namespaceDict.
Proof. split; reflexivity. Qed.

Lemma stable_brickG : stable brickG.
Proof. split; reflexivity. Qed.

Lemma stable_violationDict : stable violationDict.
Proof. split; reflexivity. Qed.

(** ** The query collaborator *)

(** The characters of a prefixed name: neither part has a ['#'], and the
    prefix has no colon. *)
Lemma pn_rest_mem (colon : bool) (c : ascii) (s : string) :
  pn_chars c = false ->
  Ascii.eqb c "." = false ->
  (colon = true -> Ascii.eqb c ":" = false) ->
  pn_rest colon s = true ->
  Str.mem c s = false.
Proof.
  intros Hc Hdot Hcolon.
  assert (Hchar : forall a,
             pn_chars a || Ascii.eqb a "." || (colon && Ascii.eqb a ":") = true ->
             Ascii.eqb a c = false).
  { intros a Ha. destruct (Ascii.eqb_spec a c) as [->|]; [|reflexivity].
    rewrite Hc, Hdot in Ha. destruct colon; [|discriminate].
    now rewrite Hcolon in Ha. }
  induction s as [|a s IH]; [reflexivity|].
  cbn [pn_rest Str.mem]. destruct s as [|b s].
  - intros Ha. rewrite Hchar; [reflexivity|].
    destruct (pn_chars a); [reflexivity|]. simpl in *.
    rewrite Ha. apply orb_true_r.
  - intros Ha. apply andb_true_iff in Ha as [Ha Hs].
    rewrite (Hchar a Ha). now apply IH.
Qed.

Lemma pn_prefix_mem (c : ascii) (s : string) :
  pn_chars c = false ->
  Ascii.eqb c "." = false ->
  pn_prefix s = true ->
  Str.mem c s = false.
Proof.
  intros Hc Hdot. destruct s as [|a s]; [discriminate|].
  cbn [pn_prefix Str.mem]. intros H. apply andb_true_iff in H as [Ha Hs].
  rewrite (pn_rest_mem false c s Hc Hdot) by (discriminate || exact Hs).
  destruct (Ascii.eqb_spec a c) as [->|]; [|reflexivity].
  unfold pn_chars, pn_chars_u in Hc. now rewrite Ha in Hc.
Qed.

Lemma pn_local_mem (c : ascii) (s : string) :
  pn_chars c = false ->
  Ascii.eqb c "." = false ->
  Ascii.eqb c ":" = false ->
  pn_local s = true ->
  Str.mem c s = false.
Proof.
  intros Hc Hdot Hcolon. destruct s as [|a s]; [discriminate|].
  cbn [pn_local Str.mem]. intros H. apply andb_true_iff in H as [Ha Hs].
  rewrite (pn_rest_mem true c s Hc Hdot) by (intros _; exact Hcolon) || exact Hs.
  destruct (Ascii.eqb_spec a c) as [->|]; [|reflexivity].
  unfold pn_chars in Hc. rewrite Hcolon in Ha.
  destruct (pn_chars_u c); [discriminate|].
  destruct (is_digit c); [|discriminate].
  simpl in Hc. now rewrite orb_true_r in Hc.
Qed.

Lemma prefixed_name_prefix (pfx local : string) :
  prefixed_name pfx local = true -> Str.mem ":" pfx = false.
Proof.
  unfold prefixed_name. intros H. apply andb_true_iff in H as [H _].
  apply orb_true_iff in H as [H|H].
  - apply String.eqb_eq in H. now subst.
  - now apply pn_prefix_mem.
Qed.

Lemma prefixed_name_local (pfx local : string) :
  prefixed_name pfx local = true -> Str.mem "#" local = false.
Proof.
  unfold prefixed_name. intros H. apply andb_true_iff in H as [_ H].
  apply orb_true_iff in H as [H|H].
  - apply String.eqb_eq in H. now subst.
  - now apply pn_local_mem.
Qed.

Lemma expand_bound (d : NamespaceDict) (pname pfx local ns : string) :
  Str.cut ":" pname = Some (pfx, local) ->
  prefixed_name pfx local = true ->
  dict_get d pfx = Some ns ->
  expand d pname = Ok (URIRef (ns ++ local)).
Proof. intros Hc Hw Hd. unfold expand. now rewrite Hc, Hw, Hd. Qed.

(** A text with a colon is no variable. *)
Lemma cut_not_variable (pname var : string) (x : string * string) :
  Str.cut ":" pname = Some x ->
  Str.cut ":" var = None ->
  String.eqb pname var = false.
Proof.
  intros Hc Hv. destruct (String.eqb_spec pname var) as [->|]; congruence.
Qed.

Lemma prepareQuery_predicate (d : NamespaceDict)
      (pname pfx local ns : string) :
  Str.cut ":" pname = Some (pfx, local) ->
  prefixed_name pfx local = true ->
  dict_get d pfx = Some ns ->
  prepareQuery d "?s" pname "?o" =
  Ok (Var, Const (URIRef (ns ++ local)), Var).
Proof.
  intros Hc Hw Hd. unfold prepareQuery, parse_slot. cbn [String.eqb Ascii.eqb].
  rewrite (cut_not_variable _ "?p" _ Hc eq_refl).
  now rewrite (expand_bound _ _ _ _ _ Hc Hw Hd).
Qed.

Lemma graph_query_predicate (g : Graph) (p : node) :
  graph_query g (Var, Const p, Var) =
  map (fun t => (subject t, PyNone, object t))
      (filter (fun t => node_eqb p (predicate t)) (triples g)).
Proof.
  unfold graph_query. induction (triples g) as [|t ts IH]; [reflexivity|].
  simpl. unfold pattern_match at 1. cbn [slot_match andb].
  rewrite andb_true_r.
  destruct (node_eqb p (predicate t)); simpl; now rewrite IH.
Qed.

(** The query of line 229, with its subject and predicate resolved. *)
Lemma graph_query_subject_predicate (g : Graph) (s p : node) :
  graph_query g (Const s, Const p, Var) =
  map (fun t => (PyNone, PyNone, object t))
      (filter (fun t => node_eqb s (subject t) && node_eqb p (predicate t))
              (triples g)).
Proof.
  unfold graph_query. induction (triples g) as [|t ts IH]; [reflexivity|].
  simpl. unfold pattern_match at 1. cbn [slot_match]. rewrite andb_true_r.
  destruct (node_eqb s (subject t) && node_eqb p (predicate t)); simpl;
    now rewrite IH.
Qed.

(** ** The instance after a resolution *)

Lemma resolved_cons (self : Validate) (g : Graph) (gs : list Graph) :
  resolved (set_bnodes (S (bnodes self)) (set_store (store self ++ [g]) self)) gs
  = resolved self (g :: gs).
Proof.
  destruct self. unfold resolved, set_bnodes, set_store. simpl.
  rewrite <- app_assoc. simpl. f_equal. lia.
Qed.

Lemma resolved_nil (self : Validate) : resolved self [] = self.
Proof.
  destruct self. unfold resolved, set_bnodes, set_store. simpl.
  rewrite app_nil_r. f_equal. lia.
Qed.

Lemma store_resolved (self : Validate) (gs : list Graph) :
  store (resolved self gs) = (store self ++ gs)%list.
Proof. now destruct self. Qed.

(** ** Construction *)

Lemma delete_predicate_bound (d : NamespaceDict) (g : Graph)
      (pname pfx local ns : string) :
  Str.cut ":" pname = Some (pfx, local) ->
  prefixed_name pfx local = true ->
  dict_get d pfx = Some ns ->
  delete_predicate d pname g =
  Ok (mkGraph (filter (fun t => negb (node_eqb (predicate t)
                                               (URIRef (ns ++ local))))
                      (triples g))
              (namespaces g)).
Proof.
  intros Hc Hw Hd. unfold delete_predicate.
  now rewrite (expand_bound _ _ _ _ _ Hc Hw Hd).
Qed.

Lemma filter_out_predicate (p : node) (ts : list triple) (t : triple) :
  In t (filter (fun t => negb (node_eqb (predicate t) p)) ts) ->
  In t ts /\ predicate t <> p.
Proof.
  intros H. apply filter_In in H as [Hin Hp]. split; [exact Hin|].
  unfold node_eqb in Hp. now destruct (node_eq_dec (predicate t) p).
Qed.

(** The instance that [__init__] returns, when it returns. *)
Lemma init_brickG (attach : bool) (Brick_ttl BrickShape_ttl : Graph)
      (self : Validate) :
  init attach Brick_ttl BrickShape_ttl = (self, Ok tt) ->
  dict_get (namespaces Brick_ttl) "rdfs" = Some RDFS_ns ->
  triples (brickG self) =
  filter (fun t => negb (node_eqb (predicate t) (RDFS "range")))
         (filter (fun t => negb (node_eqb (predicate t) (RDFS "domain")))
                 (triples Brick_ttl)).
Proof.
  unfold init. intros Hinit Hrdfs.
  rewrite bind_unfold in Hinit. simpl in Hinit.
  rewrite bind_unfold in Hinit. simpl in Hinit.
  rewrite bind_unfold in Hinit. simpl in Hinit.
  rewrite bind_unfold in Hinit.
  match type of Hinit with
  | context [buildNamespaceDict Brick_ttl ?s] => set (s0 := s) in *
  end.
  pose proof (buildNamespaceDict_get Brick_ttl s0) as Hget.
  pose proof (keeps_buildNamespaceDict brickG Brick_ttl
                (fun d self => eq_refl) s0) as Hb.
  destruct (buildNamespaceDict Brick_ttl s0) as [s1 [[]|e]];
    [|discriminate].
  simpl in Hget, Hb. specialize (Hget eq_refl "rdfs"). simpl in Hget.
  rewrite Hrdfs in Hget.
  rewrite bind_unfold in Hinit. unfold update_brickG at 1 in Hinit.
  rewrite bind_unfold in Hinit. cbn [get] in Hinit.
  rewrite bind_unfold in Hinit. cbn [get] in Hinit.
  rewrite bind_unfold in Hinit. unfold lift at 1 in Hinit.
  rewrite (delete_predicate_bound _ _ "rdfs:domain" "rdfs" "domain" RDFS_ns
             eq_refl eq_refl Hget) in Hinit.
  cbn [modify] in Hinit.
  rewrite bind_unfold in Hinit. unfold update_brickG at 1 in Hinit.
  rewrite bind_unfold in Hinit. cbn [get] in Hinit.
  rewrite bind_unfold in Hinit. cbn [get] in Hinit.
  rewrite bind_unfold in Hinit. unfold lift at 1 in Hinit.
  rewrite (delete_predicate_bound _ _ "rdfs:range" "rdfs" "range" RDFS_ns
             eq_refl eq_refl) in Hinit by (destruct s1; exact Hget).
  cbn [modify] in Hinit. injection Hinit as <-.
  destruct s1. simpl in *. now rewrite Hb.
Qed.

(** ** The output file *)

Lemma write_all_outFile (xs : list string) (self : ResultsSerialize) :
  outFile (fold_left (fun acc x => write x acc) xs self) =
  (outFile self ++ xs)%list /\
  prefixes (fold_left (fun acc x => write x acc) xs self) = prefixes self.
Proof.
  revert self. induction xs as [|x xs IH]; intros self; simpl.
  - now rewrite app_nil_r.
  - destruct (IH (write x self)) as [H1 H2]. rewrite H1, H2. simpl.
    now rewrite <- app_assoc.
Qed.

Lemma inner_copy_In (h : list Graph) (a : triple) (i : nat) (t : triple) :
  object a = GraphRef i ->
  In t (triples (inner_copy h a)) <-> In t (triples (nth i h Graph_new)).
Proof.
  intros Ha. unfold inner_copy. rewrite Ha, graph_add_all_In. simpl. tauto.
Qed.

Section Properties.

Set Default Proof Using "Type".

(** [SH] of [brickschema.namespaces]. *)
Variable SH_ns : string.

Local Abbreviation result_objects' := (result_objects SH_ns).

(** ** The two rounds of the grouper *)

Lemma result_objects_In (ts : list triple) (k : node) :
  In k (result_objects' ts) <-> exists s, In (s, SH SH_ns "result", k) ts.
Proof.
  unfold result_objects'. rewrite in_map_iff. split.
  - intros ([[s p] o] & <- & Hin). apply filter_In in Hin as [Hin Hp].
    unfold node_eqb, predicate in Hp. cbn [fst snd] in Hp.
    destruct (node_eq_dec p (SH SH_ns "result")) as [->|]; [|discriminate].
    now exists s.
  - intros [s Hin]. exists (s, SH SH_ns "result", k). split; [reflexivity|].
    apply filter_In. split; [exact Hin|]. unfold node_eqb, predicate.
    cbn [fst snd].
    now destruct (node_eq_dec (SH SH_ns "result") (SH SH_ns "result")).
Qed.

Lemma result_objects_cons (t : triple) (ts : list triple) (k : node) :
  In k (result_objects' (t :: ts)) <->
  (node_eqb (predicate t) (SH SH_ns "result") = true /\ k = object t) \/
  In k (result_objects' ts).
Proof.
  unfold result_objects'. simpl.
  destruct (node_eqb (predicate t) (SH SH_ns "result")); simpl.
  - intuition.
  - intuition discriminate.
Qed.

Lemma round1_spec (nsd : NamespaceDict) (ts : list triple) (d : ViolationDict) :
  NoDup (map fst d) ->
  NoDup (map fst (fold_left (round1_step SH_ns nsd) ts d)) /\
  (forall k, In k (map fst (fold_left (round1_step SH_ns nsd) ts d)) <->
             In k (map fst d) \/ In k (result_objects' ts)) /\
  (forall k g, In (k, g) (fold_left (round1_step SH_ns nsd) ts d) ->
               In (k, g) d \/ triples g = []).
Proof.
  revert d. induction ts as [|[[s p] o] ts IH]; intros d Hnd.
  - simpl. repeat split; auto. intros [H|[]]. exact H.
  - cbn [fold_left]. unfold round1_step at 2 4 6.
    destruct (vdict_mem d o) eqn:Hmem; simpl negb; cbn [andb].
    + destruct (IH d Hnd) as (H1 & H2 & H3).
      split; [exact H1|split; [|exact H3]].
      intros k. rewrite H2, result_objects_cons.
      apply vdict_mem_In in Hmem. unfold object. simpl.
      intuition (subst; auto).
    + destruct (node_eqb p (SH SH_ns "result")) eqn:Hp.
      * rewrite vdict_set_absent by exact Hmem.
        set (g0 := fold_left _ nsd Graph_new).
        assert (Hnd' : NoDup (map fst (d ++ [(o, g0)]))).
        { rewrite map_app. apply NoDup_app; auto.
          - simpl. constructor; [intros []|constructor].
          - intros x Hx Hin. simpl in Hin. destruct Hin as [<-|[]].
            apply vdict_mem_In in Hx. congruence. }
        destruct (IH _ Hnd') as (H1 & H2 & H3).
        split; [exact H1|split].
        -- intros k. rewrite H2, result_objects_cons, map_app, in_app_iff.
           unfold object, predicate. simpl. rewrite Hp.
           intuition (subst; auto).
        -- intros k g H. apply H3 in H. rewrite in_app_iff in H.
           destruct H as [[H|[H|[]]]|H]; auto.
           injection H as <- <-. right. unfold g0.
           apply graph_bind_all_triples.
      * destruct (IH d Hnd) as (H1 & H2 & H3).
        split; [exact H1|split; [|exact H3]].
        intros k. rewrite H2, result_objects_cons.
        unfold predicate. simpl. rewrite Hp. intuition discriminate.
Qed.

(** C4. The two rounds of the grouper leave one entry per distinct object of
    an [sh:result] triple of the results graph; the graph of key [k] holds,
    once each, exactly the triples of the results graph whose subject is
    [k]. So a triple whose subject is a key is in the graph of that key and
    of no other, and a triple whose subject is no key is in no graph. *)
Theorem C4_grouper_partitions_by_subject :
  forall (nsd : NamespaceDict) (results : Graph),
    let d := round2 results (round1 SH_ns nsd results []) in
    NoDup (map fst d) /\
    (forall k, In k (map fst d) <->
               exists s, In (s, SH SH_ns "result", k) (triples results)) /\
    length d = length (nodup node_eq_dec (result_objects' (triples results))) /\
    (forall k g, In (k, g) d ->
                 NoDup (triples g) /\
                 forall t, In t (triples g) <->
                           In t (triples results) /\ subject t = k).
Proof.
  intros nsd results d. subst d. unfold round2, round1.
  destruct (round1_spec nsd (triples results) [] (NoDup_nil _))
    as (Hnd & Hkeys & Hempty).
  set (d1 := fold_left (round1_step SH_ns nsd) (triples results) []) in *.
  destruct (round2_spec (triples results) d1) as [Hk2 Hget].
  set (d2 := fold_left round2_step (triples results) d1) in *.
  assert (Hnd2 : NoDup (map fst d2)) by now rewrite Hk2.
  assert (Hin2 : forall k, In k (map fst d2) <->
                           In k (result_objects' (triples results))).
  { intros k. rewrite Hk2, Hkeys. simpl. tauto. }
  split; [exact Hnd2|]. split; [|split].
  - intros k. rewrite Hin2. apply result_objects_In.
  - rewrite <- (length_map fst d2). apply Nat.le_antisymm.
    + apply NoDup_incl_length; [exact Hnd2|].
      intros k Hk. apply nodup_In. now apply Hin2.
    + apply NoDup_incl_length; [apply NoDup_nodup|].
      intros k Hk. apply nodup_In in Hk. now apply Hin2.
  - intros k g Hin. apply (vdict_In_get _ _ _ Hnd2) in Hin.
    rewrite Hget in Hin.
    destruct (vdict_get d1 k) as [g1|] eqn:Hg1; [|discriminate].
    injection Hin as <-.
    apply vdict_get_In, Hempty in Hg1. destruct Hg1 as [[]|Hg1].
    split.
    + apply graph_add_all_NoDup. rewrite Hg1. constructor.
    + intros t. rewrite graph_add_all_In, Hg1, own_triples_In. simpl. tauto.
Qed.

(** [BSH] of [brickschema.namespaces], the engine and the serializer. *)
Variable BSH_ns : string.
Variable pyshacl_validate :
  Graph -> Graph -> Graph -> EngineOpts -> result (bool * Graph * string).
Variable serialize : list Graph -> Graph -> string.

Local Abbreviation triplesForOneViolation' :=
  (triplesForOneViolation BSH_ns serialize).
Local Abbreviation attachOffendingTriples' :=
  (attachOffendingTriples SH_ns BSH_ns serialize).
Local Abbreviation validate' :=
  (validate SH_ns BSH_ns pyshacl_validate serialize).
Local Abbreviation after_calls' :=
  (after_calls SH_ns BSH_ns pyshacl_validate serialize).
Local Abbreviation attachments' := (attachments BSH_ns).
Local Abbreviation attach_all' := (attach_all BSH_ns).
Local Abbreviation appendGraph' := (appendGraph serialize).
Local Abbreviation appendViolation' := (appendViolation BSH_ns serialize).
Local Abbreviation graph_lines' := (graph_lines serialize).

(** ** The resolver and the pass leave the rest of the instance alone *)

Lemma keeps_attach_rows {B} (f : Validate -> B) (focus : node) (path : string)
      (res : list triple) (v : Graph) :
  stable f -> keeps f (attach_rows BSH_ns focus path res v).
Proof.
  intros [Hs Hb _]. revert v.
  induction res as [|[[s p] o] res IH]; intros v; simpl.
  - auto with keeps.
  - apply keeps_bind; [now apply keeps_Graph_of|intros g].
    apply keeps_bind; [now apply keeps_BNode_fresh|intros b]. apply IH.
Qed.

Lemma keeps_triplesForOneViolation {B} (f : Validate -> B) (v : Graph) :
  stable f -> keeps f (triplesForOneViolation' v).
Proof.
  intros Hf. pose proof Hf as [Hs Hb Hl]. unfold triplesForOneViolation.
  apply keeps_bind; [auto with keeps|intros resultPath].
  apply keeps_bind; [auto with keeps|intros h].
  destruct (truthy h resultPath).
  - apply keeps_bind; [auto with keeps|intros focusNode].
    apply keeps_bind; [auto with keeps|intros valueNode].
    apply keeps_bind; [now apply keeps_Graph_with|intros g].
    apply keeps_bind; [now apply keeps_BNode_fresh|intros b].
    auto with keeps.
  - apply keeps_bind; [auto with keeps|intros sourceShape].
    apply keeps_bind; [auto with keeps|intros parts].
    apply keeps_bind; [auto with keeps|intros [bsh shapeName]]. simpl.
    destruct (Str.endswith shapeName "DomainShape").
    + apply keeps_bind; [auto with keeps|intros d].
      apply keeps_bind; [auto with keeps|intros brick].
      apply keeps_bind; [auto with keeps|intros focusNode].
      apply keeps_bind; [auto with keeps|intros parts'].
      apply keeps_bind; [auto with keeps|intros [ns name]].
      apply keeps_bind; [auto with keeps|intros _].
      apply keeps_bind; [auto with keeps|intros res].
      now apply keeps_attach_rows.
    + apply keeps_bind; [auto with keeps|intros g].
      apply keeps_bind; [auto with keeps|intros h'].
      apply keeps_bind; [|auto with keeps].
      apply keeps_log. apply Hl.
Qed.

Lemma keeps_resolve_entry {B} (f : Validate -> B) (k : node) :
  stable f ->
  (forall d self, f (set_violationDict d self) = f self) ->
  keeps f (resolve_entry BSH_ns serialize k).
Proof.
  intros Hf Hv. unfold resolve_entry.
  apply keeps_bind; [auto with keeps|intros d].
  destruct (vdict_get d k) as [violation|]; [|auto with keeps].
  apply keeps_bind; [now apply keeps_triplesForOneViolation|intros v'].
  apply keeps_modify. intros self. apply Hv.
Qed.

(** The registry after the attachment pass holds bindings of the results
    graph and of the data graph only. *)
Lemma attachOffendingTriples_registry (self : Validate) (rg dg : Graph) :
  results_graph self = Some rg ->
  data_graph self = Some dg ->
  incl (namespaceDict (fst (attachOffendingTriples' self)))
       (namespaces rg ++ namespaces dg).
Proof.
  intros Hrg Hdg. unfold attachOffendingTriples.
  set (L := (namespaces rg ++ namespaces dg)%list).
  rewrite bind_unfold. simpl. rewrite bind_unfold. simpl.
  rewrite bind_unfold. unfold attr at 1. simpl. rewrite Hrg.
  rewrite bind_unfold.
  match goal with |- context [buildNamespaceDict rg ?s] => set (s0 := s) end.
  assert (H1 : incl (namespaceDict (fst (buildNamespaceDict rg s0))) L).
  { apply buildNamespaceDict_from.
    - intros x Hx. apply in_or_app. now left.
    - intros x []. }
  assert (H1d : data_graph (fst (buildNamespaceDict rg s0)) = Some dg).
  { rewrite (keeps_buildNamespaceDict data_graph rg); [exact Hdg|reflexivity]. }
  destruct (buildNamespaceDict rg s0) as [s1 [u1|e1]]; simpl in *; [|exact H1].
  rewrite bind_unfold. unfold attr at 1. rewrite H1d.
  rewrite bind_unfold.
  assert (H2 : incl (namespaceDict (fst (buildNamespaceDict dg s1))) L).
  { apply buildNamespaceDict_from; [|exact H1].
    intros x Hx. apply in_or_app. now right. }
  destruct (buildNamespaceDict dg s1) as [s2 [u2|e2]]; simpl in *; [|exact H2].
  rewrite bind_unfold. simpl. rewrite bind_unfold. simpl.
  rewrite bind_unfold. simpl.
  rewrite (keeps_for_each namespaceDict).
  - exact H2.
  - intros k. apply keeps_resolve_entry; [apply stable_namespaceDict|reflexivity].
Qed.

Lemma resolve_entry_has_dict (k : node) (self : Validate) :
  violationDict self <> None ->
  violationDict (fst (resolve_entry BSH_ns serialize k self)) <> None.
Proof.
  intros Hd. unfold resolve_entry. rewrite bind_unfold. unfold attr.
  destruct (violationDict self) as [d|] eqn:E; [|congruence].
  destruct (vdict_get d k) as [violation|]; simpl; [|congruence].
  rewrite bind_unfold.
  pose proof (keeps_triplesForOneViolation violationDict violation
                stable_violationDict self) as Hk.
  destruct (triplesForOneViolation' violation self) as [s' [v'|e]];
    simpl in *; congruence.
Qed.

Lemma resolve_all_has_dict (ks : list node) (self : Validate) :
  violationDict self <> None ->
  violationDict (fst (for_each ks (resolve_entry BSH_ns serialize) self))
  <> None.
Proof.
  revert self. induction ks as [|k ks IH]; intros self Hd; [exact Hd|].
  rewrite for_each_cons.
  pose proof (resolve_entry_has_dict k self Hd) as H.
  destruct (resolve_entry BSH_ns serialize k self) as [s' [u|e]]; simpl in *;
    auto.
Qed.

(** A pass that completes has built the violation dictionary. *)
Lemma attachOffendingTriples_has_dict (self : Validate) :
  snd (attachOffendingTriples' self) = Ok tt ->
  violationDict (fst (attachOffendingTriples' self)) <> None.
Proof.
  destruct (attachOffendingTriples' self) as [s r] eqn:E. simpl.
  unfold attachOffendingTriples in E.
  rewrite bind_unfold in E. simpl in E. rewrite bind_unfold in E. simpl in E.
  rewrite bind_unfold in E. unfold attr at 1 in E. simpl in E.
  destruct (results_graph self) as [rg|]; [|now inversion E].
  rewrite bind_unfold in E.
  destruct (buildNamespaceDict rg _) as [s1 [u1|e1]]; [|now inversion E].
  rewrite bind_unfold in E. unfold attr at 1 in E.
  destruct (data_graph s1) as [dg|]; [|now inversion E].
  rewrite bind_unfold in E.
  destruct (buildNamespaceDict dg s1) as [s2 [u2|e2]]; [|now inversion E].
  rewrite bind_unfold in E. simpl in E. rewrite bind_unfold in E. simpl in E.
  rewrite bind_unfold in E. simpl in E. intros _.
  match type of E with
  | for_each ?ks _ ?s3 = _ =>
      pose proof (resolve_all_has_dict ks s3) as H
  end.
  rewrite E in H. apply H. simpl. discriminate.
Qed.

Lemma keeps_attachOffendingTriples_brickG :
  keeps brickG attachOffendingTriples'.
Proof.
  unfold attachOffendingTriples.
  apply keeps_bind; [apply keeps_log; reflexivity|intros _].
  apply keeps_bind; [apply keeps_modify; reflexivity|intros _].
  apply keeps_bind; [auto with keeps|intros rg].
  apply keeps_bind; [apply keeps_buildNamespaceDict; reflexivity|intros _].
  apply keeps_bind; [auto with keeps|intros dg].
  apply keeps_bind; [apply keeps_buildNamespaceDict; reflexivity|intros _].
  apply keeps_bind; [auto with keeps|intros nsd].
  apply keeps_bind; [apply keeps_modify; reflexivity|intros _].
  apply keeps_bind; [auto with keeps|intros d].
  apply keeps_for_each. intros k.
  apply keeps_resolve_entry; [apply stable_brickG|reflexivity].
Qed.

Lemma keeps_validate_brickG (data : Graph) (sg og : option Graph)
      (opts : EngineOpts) :
  keeps brickG (validate' data sg og opts).
Proof.
  unfold validate.
  apply keeps_bind; [apply keeps_log; reflexivity|intros _].
  apply keeps_bind; [auto with keeps|intros sg'].
  apply keeps_bind; [auto with keeps|intros og'].
  apply keeps_bind; [apply keeps_modify; reflexivity|intros _].
  apply keeps_bind; [auto with keeps|intros [[c rg] text]].
  apply keeps_bind; [apply keeps_modify; reflexivity|intros _].
  apply keeps_bind; [auto with keeps|intros att].
  destruct (c || negb att); [auto with keeps|].
  apply keeps_bind; [apply keeps_attachOffendingTriples_brickG|intros _].
  apply keeps_bind; auto with keeps.
Qed.

Lemma after_calls_brickG (calls : list Call) (self : Validate) :
  brickG (after_calls' calls self) = brickG self.
Proof.
  unfold after_calls'. revert self.
  induction calls as [|c calls IH]; intros self; simpl; [reflexivity|].
  rewrite IH. apply keeps_validate_brickG.
Qed.

(** ** [validate] *)

Lemma validate_unfold (self : Validate) (data : Graph)
      (sg og : option Graph) (opts : EngineOpts)
      (c : bool) (rg : Graph) (text : string) :
  pyshacl_validate data (graph_or sg (shapeG self)) (graph_or og (brickG self))
                   opts = Ok (c, rg, text) ->
  validate' data sg og opts self =
  if c || negb (attachOffender self)
  then (engine_answered data (c, rg, text) self, Ok (c, rg, text))
  else
    match attachOffendingTriples' (engine_answered data (c, rg, text) self) with
    | (self2, Ok _) =>
        match violationDict self2 with
        | Some d =>
            (self2,
             Ok (c, fold_left (fun acc kv => graph_union acc (snd kv)) d
                              Graph_new, text))
        | None => (self2, Raise (AttributeError "violationDict"))
        end
    | (self2, Raise e) => (self2, Raise e)
    end.
Proof.
  intros Heng. unfold validate, engine_answered.
  rewrite bind_unfold. simpl. rewrite bind_unfold. simpl.
  rewrite bind_unfold. simpl. rewrite bind_unfold. simpl.
  rewrite bind_unfold. unfold lift at 1. rewrite Heng.
  rewrite bind_unfold. simpl. rewrite bind_unfold. simpl.
  destruct (c || negb (attachOffender self)); [reflexivity|].
  rewrite bind_unfold.
  match goal with
  | |- context [attachOffendingTriples' ?s] =>
      destruct (attachOffendingTriples' s) as [self2 [u|e]]
  end; [|reflexivity].
  rewrite bind_unfold. unfold attr.
  destruct (violationDict self2); reflexivity.
Qed.

(** C2, as amended. One registration never removes or changes a binding of
    the registry. Across calls of [validate] the registry is not kept: a call
    that finds the data not conforming, with attachment enabled, empties the
    registry first, so that afterwards it holds bindings of that call's
    results graph and data graph only; a call that conforms, or runs with
    attachment disabled, leaves the registry as it was. *)
Theorem C2_registry_rebuilt_by_each_pass :
  (forall (g : Graph) (self : Validate) (prefix ns : string),
      dict_get (namespaceDict self) prefix = Some ns ->
      dict_get (namespaceDict (fst (buildNamespaceDict g self))) prefix
      = Some ns) /\
  (forall (self : Validate) (data : Graph) (sg og : option Graph)
          (opts : EngineOpts) (rg : Graph) (text : string),
      pyshacl_validate data (graph_or sg (shapeG self))
                       (graph_or og (brickG self)) opts = Ok (false, rg, text) ->
      attachOffender self = true ->
      incl (namespaceDict (fst (validate' data sg og opts self)))
           (namespaces rg ++ namespaces data)) /\
  (forall (self : Validate) (data : Graph) (sg og : option Graph)
          (opts : EngineOpts) (c : bool) (rg : Graph) (text : string),
      pyshacl_validate data (graph_or sg (shapeG self))
                       (graph_or og (brickG self)) opts = Ok (c, rg, text) ->
      c = true \/ attachOffender self = false ->
      namespaceDict (fst (validate' data sg og opts self)) = namespaceDict self).
Proof.
  split; [|split].
  - intros. now apply buildNamespaceDict_keeps.
  - intros self data sg og opts rg text Heng Hatt.
    rewrite (validate_unfold _ _ _ _ _ _ _ _ Heng), Hatt. simpl.
    pose proof (attachOffendingTriples_registry
                  (engine_answered data (false, rg, text) self) rg data
                  eq_refl eq_refl) as H.
    destruct (attachOffendingTriples' _) as [self2 [u|e]]; simpl in *; auto.
    destruct (violationDict self2); exact H.
  - intros self data sg og opts c rg text Heng Hc.
    rewrite (validate_unfold _ _ _ _ _ _ _ _ Heng).
    assert (Hb : c || negb (attachOffender self) = true).
    { destruct Hc as [->| ->]; [reflexivity|apply orb_true_r]. }
    rewrite Hb. reflexivity.
Qed.

(** C7, as amended. When the engine reports conformance, or attachment was
    disabled at construction, [validate] returns the engine's three results
    unchanged. Otherwise the attachment pass runs: if it raises, [validate]
    raises the same exception and returns nothing; if it completes,
    [validate] returns the engine's flag and text and, in place of the
    results graph, the union of the graphs of the violation dictionary as the
    pass has left them. *)
Theorem C7_validate_returns :
  forall (self : Validate) (data : Graph) (sg og : option Graph)
         (opts : EngineOpts) (c : bool) (rg : Graph) (text : string),
    pyshacl_validate data (graph_or sg (shapeG self))
                     (graph_or og (brickG self)) opts = Ok (c, rg, text) ->
    (c = true \/ attachOffender self = false ->
     snd (validate' data sg og opts self) = Ok (c, rg, text)) /\
    (c = false -> attachOffender self = true ->
     (forall e,
         snd (attachOffendingTriples' (engine_answered data (c, rg, text) self))
         = Raise e ->
         snd (validate' data sg og opts self) = Raise e) /\
     (snd (attachOffendingTriples' (engine_answered data (c, rg, text) self))
      = Ok tt ->
      exists d G,
        violationDict (fst (validate' data sg og opts self)) = Some d /\
        snd (validate' data sg og opts self) = Ok (c, G, text) /\
        forall t, In t (triples G) <->
                  exists k v, In (k, v) d /\ In t (triples v))).
Proof.
  intros self data sg og opts c rg text Heng.
  rewrite (validate_unfold _ _ _ _ _ _ _ _ Heng). split.
  - intros Hc.
    assert (Hb : c || negb (attachOffender self) = true).
    { destruct Hc as [->| ->]; [reflexivity|apply orb_true_r]. }
    now rewrite Hb.
  - intros -> ->. simpl.
    pose proof (attachOffendingTriples_has_dict
                  (engine_answered data (false, rg, text) self)) as Hd.
    destruct (attachOffendingTriples' _) as [self2 [u|e]]; simpl in *.
    + split; [discriminate|]. intros _. destruct u.
      destruct (violationDict self2) as [d|] eqn:Ed; [|now destruct Hd].
      exists d, (fold_left (fun acc kv => graph_union acc (snd kv)) d Graph_new).
      simpl. split; [exact Ed|split; [reflexivity|]].
      intros t. rewrite graph_union_all_In. simpl.
      split; [intros [[]|H]; exact H|intros H; now right].
    + split; [|discriminate]. intros e' H. congruence.
Qed.

(** C8, as amended. When the engine reports conformance, [validate] returns
    [conforms = true] with the engine's results graph and text, whatever the
    attachment setting, and does not touch the violation dictionary; the
    violation list asked for next is therefore the one of the latest
    attachment pass, and on an instance that never ran one the attribute
    does not exist and the query raises. *)
Theorem C8_conforming_leaves_violations_alone :
  forall (self : Validate) (data : Graph) (sg og : option Graph)
         (opts : EngineOpts) (rg : Graph) (text : string),
    pyshacl_validate data (graph_or sg (shapeG self))
                     (graph_or og (brickG self)) opts = Ok (true, rg, text) ->
    snd (validate' data sg og opts self) = Ok (true, rg, text) /\
    violationDict (fst (validate' data sg og opts self)) = violationDict self /\
    snd (violationList (fst (validate' data sg og opts self))) =
    match violationDict self with
    | Some d => Ok (map snd d)
    | None => Raise (AttributeError "violationDict")
    end.
Proof.
  intros self data sg og opts rg text Heng.
  rewrite (validate_unfold _ _ _ _ _ _ _ _ Heng). simpl.
  repeat split. unfold violationList. rewrite bind_unfold. unfold attr. simpl.
  destruct (violationDict self); reflexivity.
Qed.

(** C10. If the packaged ontology binds the prefix [rdfs] to the RDF Schema
    namespace, then a validator whose construction has returned holds, and
    keeps holding over any sequence of [validate] calls, a default ontology
    graph without any [rdfs:domain] or [rdfs:range] triple; and a call
    without the ontology argument hands that graph, and no other, to the
    engine as the ontology: whatever the engine, if it raises on the data
    graph, the shapes graph and that ontology, the call raises the same; if
    it answers, its answer is what the call records and, when the data
    conforms or attachment is disabled, returns, and otherwise what the
    attachment pass starts from. *)
Theorem C10_default_ontology_has_no_domain_or_range :
  forall (attach : bool) (Brick_ttl BrickShape_ttl : Graph) (self0 : Validate),
    init attach Brick_ttl BrickShape_ttl = (self0, Ok tt) ->
    dict_get (namespaces Brick_ttl) "rdfs" = Some RDFS_ns ->
    forall (calls : list Call),
      let self := after_calls' calls self0 in
      (forall t, In t (triples (brickG self)) ->
                 predicate t <> RDFS "domain" /\ predicate t <> RDFS "range") /\
      (forall (data : Graph) (sg : option Graph) (opts : EngineOpts),
          let answer :=
            pyshacl_validate data (graph_or sg (shapeG self)) (brickG self)
                             opts in
          (forall e, answer = Raise e ->
                     snd (validate' data sg None opts self) = Raise e) /\
          (forall c rg text,
              answer = Ok (c, rg, text) ->
              (c = true \/ attachOffender self = false ->
               validate' data sg None opts self =
               (engine_answered data (c, rg, text) self, Ok (c, rg, text))) /\
              (c = false -> attachOffender self = true ->
               fst (validate' data sg None opts self) =
               fst (attachOffendingTriples'
                      (engine_answered data (c, rg, text) self))))).
Proof.
  intros attach Brick_ttl BrickShape_ttl self0 Hinit Hrdfs calls self.
  split.
  - intros t Ht. unfold self in Ht. rewrite after_calls_brickG in Ht.
    rewrite (init_brickG _ _ _ _ Hinit Hrdfs) in Ht.
    apply filter_out_predicate in Ht as [Ht Hrange].
    apply filter_out_predicate in Ht as [_ Hdomain]. now split.
  - intros data sg opts answer. split.
    + intros e He. unfold answer in He. unfold validate.
      rewrite bind_unfold. simpl. rewrite bind_unfold. simpl.
      rewrite bind_unfold. simpl. rewrite bind_unfold. simpl.
      rewrite bind_unfold. unfold lift at 1. now rewrite He.
    + intros c rg text Hans.
      pose proof (validate_unfold self data sg None opts c rg text Hans) as Hv.
      split.
      * intros Hc. rewrite Hv.
        assert (Hb : c || negb (attachOffender self) = true).
        { destruct Hc as [->| ->]; [reflexivity|apply orb_true_r]. }
        now rewrite Hb.
      * intros -> Hatt. rewrite Hv, Hatt. cbn [orb negb].
        destruct (attachOffendingTriples' _) as [self2 [u|e]]; [|reflexivity].
        destruct (violationDict self2); reflexivity.
Qed.

(** ** The resolver *)

(** What [__violationPredicateObj] answers for a predicate of the SHACL
    vocabulary, when the registry binds [sh] to that vocabulary. *)
Lemma violationPredicateObj_sh (violation : Graph) (pname local : string)
      (mustFind : bool) (self : Validate) :
  Str.cut ":" pname = Some ("sh", local) ->
  prefixed_name "sh" local = true ->
  dict_get (namespaceDict self) "sh" = Some SH_ns ->
  violationPredicateObj violation pname mustFind self =
  (self,
   if mustFind && negb (Nat.eqb (length (objects_of (SH SH_ns local) violation)) 1)
   then Raise (AssertionError ("Must have predicate '" ++ pname ++ "'"))
   else Ok (hd PyNone (objects_of (SH SH_ns local) violation))).
Proof.
  intros Hc Hq Hd. unfold violationPredicateObj.
  rewrite bind_unfold. cbn [get]. rewrite bind_unfold. unfold lift at 1.
  rewrite (prepareQuery_predicate _ _ _ _ _ Hc Hq Hd). cbv zeta.
  rewrite graph_query_predicate. unfold objects_of, SH.
  set (rows := filter _ (triples violation)).
  rewrite length_map. rewrite bind_unfold.
  destruct mustFind; cbn [andb].
  - unfold py_assert. rewrite length_map.
    destruct (Nat.eqb (length rows) 1); cbn [negb ret raise]; [|reflexivity].
    destruct rows as [|t rows]; reflexivity.
  - cbn [ret]. destruct rows as [|t rows]; reflexivity.
Qed.

Lemma attachments_add_fresh (t : triple) (g : Graph) :
  predicate t = BSH BSH_ns "offendingTriple" ->
  ~ In t (triples g) ->
  attachments' (graph_add t g) = (attachments' g ++ [t])%list.
Proof.
  intros Hp Hout. unfold attachments', graph_add, graph_mem.
  destruct (in_dec triple_eq_dec t (triples g)) as [Hin|_]; [contradiction|].
  simpl. rewrite filter_app. simpl. rewrite Hp. unfold node_eqb.
  now destruct (node_eq_dec (BSH BSH_ns "offendingTriple")
                            (BSH BSH_ns "offendingTriple")).
Qed.

(** C1: what the code does with an unhandled violation. For a violation
    without a result path whose one source shape is named [bsh#shapeName]
    with [shapeName] not ending in [DomainShape], the resolver raises
    [UnboundLocalError] for the local [g] that line 240 reads, before
    anything is logged; the instance is as it was. *)
Theorem C1_unhandled_violation_raises :
  forall (self : Validate) (violation : Graph) (s bsh shapeName : string),
    dict_get (namespaceDict self) "sh" = Some SH_ns ->
    objects_of (SH SH_ns "resultPath") violation = [] ->
    objects_of (SH SH_ns "sourceShape") violation = [URIRef s] ->
    Str.split "#" s = [bsh; shapeName] ->
    Str.endswith shapeName "DomainShape" = false ->
    triplesForOneViolation' violation self =
    (self, Raise (UnboundLocalError "g")).
Proof.
  intros self violation s bsh shapeName Hsh Hrp Hss Hsplit Hend.
  unfold triplesForOneViolation.
  rewrite bind_unfold.
  rewrite (violationPredicateObj_sh violation "sh:resultPath" "resultPath"
             false self eq_refl eq_refl Hsh).
  rewrite Hrp. cbn [andb hd]. rewrite bind_unfold. cbn [get truthy].
  rewrite bind_unfold.
  rewrite (violationPredicateObj_sh violation "sh:sourceShape" "sourceShape"
             true self eq_refl eq_refl Hsh).
  rewrite Hss. cbn [andb hd length Nat.eqb negb].
  rewrite bind_unfold. cbn [py_split ret]. rewrite Hsplit.
  rewrite bind_unfold. cbn [unpack2 ret snd]. rewrite Hend.
  reflexivity.
Qed.

(** [Graph.add] on terms and on [None]. *)
Lemma Graph_with_terms (s p o : node) (self : Validate) :
  is_Node s = true -> is_Node p = true -> is_Node o = true ->
  Graph_with (s, p, o) self =
  (set_store (store self ++ [mkGraph [(s, p, o)] []]) self,
   Ok (length (store self))).
Proof.
  intros Hs Hp Ho. unfold Graph_with. rewrite Hs, Hp, Ho. reflexivity.
Qed.

Lemma Graph_with_outcome (t : triple) (self : Validate) :
  (exists msg, Graph_with t self = (self, Raise (AssertionError msg))) \/
  Graph_with t self =
  (set_store (store self ++ [mkGraph [t] []]) self, Ok (length (store self))).
Proof.
  destruct t as [[s p] o]. unfold Graph_with.
  destruct (is_Node s); [|left; eexists; reflexivity].
  destruct (is_Node p); [|left; eexists; reflexivity].
  destruct (is_Node o); [|left; eexists; reflexivity].
  right. reflexivity.
Qed.

Lemma truthy_is_Node (h : list Graph) (x : node) :
  truthy h x = true -> is_Node x = true.
Proof. destruct x; simpl; congruence. Qed.

(** C5, on the code. Take a violation whose first result-path object [r] is
    a non-empty term, a registry that binds [sh] to the SHACL namespace, and
    let the violation name exactly one focus node [f], a term. If the
    violation has a value object, the resolver takes the first one, [v],
    creates one inner graph that holds the single triple [(f, r, v)], adds
    the one attachment [(fresh blank node, bsh:offendingTriple, inner graph)]
    to the violation and returns. If the violation has no value object, the
    lookup of line 202 answers [None], the third component of the triple of
    line 206 is [None], and [Graph.add] refuses it: the resolver raises an
    assertion error, nothing is attached and the instance is as it was. If
    the violation names no focus node, or several, the resolver raises the
    assertion error of the lookup and leaves the instance as it was. *)
Theorem C5_path_violation_without_value_raises :
  forall (self : Validate) (violation : Graph) (r : node) (rs : list node),
    dict_get (namespaceDict self) "sh" = Some SH_ns ->
    objects_of (SH SH_ns "resultPath") violation = r :: rs ->
    truthy (store self) r = true ->
    (forall f,
        objects_of (SH SH_ns "focusNode") violation = [f] ->
        is_Node f = true ->
        (forall v vs,
            objects_of (SH SH_ns "value") violation = v :: vs ->
            is_Node v = true ->
            let attachment :=
              (GenBNode (bnodes self), BSH BSH_ns "offendingTriple",
               GraphRef (length (store self))) in
            triplesForOneViolation' violation self =
            (set_bnodes (S (bnodes self))
               (set_store (store self ++ [mkGraph [(f, r, v)] []]) self),
             Ok (graph_add attachment violation)) /\
            ((forall t, In t (triples violation) ->
                        subject t <> GenBNode (bnodes self)) ->
             attachments' (graph_add attachment violation) =
             (attachments' violation ++ [attachment])%list)) /\
        (objects_of (SH SH_ns "value") violation = [] ->
         triplesForOneViolation' violation self =
         (self,
          Raise (AssertionError "Object None must be an rdflib term")))) /\
    (length (objects_of (SH SH_ns "focusNode") violation) <> 1 ->
     triplesForOneViolation' violation self =
     (self, Raise (AssertionError "Must have predicate 'sh:focusNode'"))).
Proof.
  intros self violation r rs Hsh Hrp Htrue.
  assert (Hstart :
            triplesForOneViolation' violation self =
            (focusNode <- violationPredicateObj violation "sh:focusNode" true ;;
             valueNode <- violationPredicateObj violation "sh:value" false ;;
             g <- Graph_with (focusNode, r, valueNode) ;;
             b <- BNode_fresh ;;
             ret (graph_add (b, BSH BSH_ns "offendingTriple", GraphRef g)
                            violation)) self).
  { unfold triplesForOneViolation.
    rewrite bind_unfold.
    rewrite (violationPredicateObj_sh violation "sh:resultPath" "resultPath"
               false self eq_refl eq_refl Hsh).
    rewrite Hrp. cbn [andb hd]. rewrite bind_unfold. cbn [get].
    now rewrite Htrue. }
  rewrite Hstart. clear Hstart.
  rewrite bind_unfold.
  rewrite (violationPredicateObj_sh violation "sh:focusNode" "focusNode"
             true self eq_refl eq_refl Hsh).
  cbn [andb]. split.
  - intros f Hfn Hf. rewrite Hfn. cbn [hd length Nat.eqb negb].
    rewrite bind_unfold.
    rewrite (violationPredicateObj_sh violation "sh:value" "value"
               false self eq_refl eq_refl Hsh).
    cbn [andb]. pose proof (truthy_is_Node _ _ Htrue) as Hr. split.
    + intros v vs Hv Hvn. cbv zeta. rewrite Hv. cbn [hd]. split.
      * rewrite bind_unfold, (Graph_with_terms f r v self Hf Hr Hvn).
        reflexivity.
      * intros Hfresh. apply attachments_add_fresh; [reflexivity|].
        intros Hin. now apply (Hfresh _ Hin).
    + intros Hv. rewrite Hv. cbn [hd]. rewrite bind_unfold.
      unfold Graph_with. rewrite Hf, Hr. reflexivity.
  - intros Hlen. apply Nat.eqb_neq in Hlen. now rewrite Hlen.
Qed.

(** ** Domain-shape resolution *)

Lemma attach_rows_spec (focus : node) (path : string) (rows : list triple)
      (violation : Graph) (self : Validate) :
  attach_rows BSH_ns focus path rows violation self =
  (resolved self
     (map (fun row => mkGraph [(focus, URIRef path, object row)] []) rows),
   Ok (attach_all' (bnodes self) (length (store self)) (length rows) violation)).
Proof.
  revert violation self.
  induction rows as [|[[s p] o] rows IH]; intros violation self.
  - simpl. now rewrite resolved_nil.
  - cbn [attach_rows]. rewrite bind_unfold.
    unfold Graph_of at 1. rewrite bind_unfold. cbn [get].
    rewrite bind_unfold. cbn [modify]. cbn [ret].
    rewrite bind_unfold. unfold BNode_fresh at 1.
    rewrite bind_unfold. cbn [get]. rewrite bind_unfold. cbn [modify ret].
    rewrite IH. cbn [map length attach_all' object snd].
    change (graph_add (focus, URIRef path, o) Graph_new)
      with (mkGraph [(focus, URIRef path, o)] []).
    set (g := mkGraph [(focus, URIRef path, o)] []).
    rewrite <- (resolved_cons self g). f_equal. f_equal.
    destruct self. simpl. rewrite List.length_app. simpl.
    now rewrite Nat.add_1_r.
Qed.

Lemma attach_all_In (n b h : nat) (violation : Graph) (t : triple) :
  In t (triples (attach_all' b h n violation)) <->
  In t (triples violation) \/
  exists i, i < n /\
            t = (GenBNode (b + i), BSH BSH_ns "offendingTriple", GraphRef (h + i)).
Proof.
  revert b h violation. induction n as [|n IH]; intros b h violation; simpl.
  - split; [now left|]. intros [H|(i & Hi & _)]; [exact H|lia].
  - rewrite IH, graph_add_In. split.
    + intros [[->|H]|(i & Hi & ->)].
      * right. exists 0. rewrite !Nat.add_0_r. split; [lia|reflexivity].
      * now left.
      * right. exists (S i). rewrite <- !Nat.add_succ_comm.
        split; [lia|reflexivity].
    + intros [H|(i & Hi & ->)]; [now left; right|].
      destruct i as [|i].
      * left. left. now rewrite !Nat.add_0_r.
      * right. exists i. rewrite <- !Nat.add_succ_comm.
        split; [lia|reflexivity].
Qed.

(** The resolver on a domain-shape violation, in one equation. *)
Lemma triplesForOneViolation_domain (self : Validate) (violation dg : Graph)
      (shns P ns name brick pfx : string) (rest : list string) :
  dict_get (namespaceDict self) "sh" = Some SH_ns ->
  dict_get (namespaceDict self) "brick" = Some brick ->
  NoDup (map fst (namespaceDict self)) ->
  map fst (filter (fun kv => String.eqb (ns ++ "#") (snd kv))
                  (namespaceDict self)) = pfx :: rest ->
  prefixed_name pfx name = true ->
  prefixed_name "brick" P = true ->
  data_graph self = Some dg ->
  objects_of (SH SH_ns "resultPath") violation = [] ->
  objects_of (SH SH_ns "sourceShape") violation =
    [URIRef (shns ++ "#" ++ P ++ "DomainShape")] ->
  Str.mem "#" shns = false ->
  objects_of (SH SH_ns "focusNode") violation = [URIRef (ns ++ "#" ++ name)] ->
  Str.mem "#" ns = false ->
  let focus := URIRef (ns ++ "#" ++ name) in
  let prop := URIRef (brick ++ P) in
  let os := objects_at focus prop dg in
  triplesForOneViolation' violation self =
  match os with
  | [] => (self,
           Raise (AssertionError
                    (no_triple_like (Some (pfx ++ ":" ++ name))
                                    (Some ("brick:" ++ P)) None)))
  | _ :: _ =>
      (resolved self (map (fun o => mkGraph [(focus, prop, o)] []) os),
       Ok (attach_all' (bnodes self) (length (store self)) (length os)
                      violation))
  end.
Proof.
  intros Hsh Hbrick Hnd Hpfx Hwn HwP Hdg Hrp Hss Hsh1 Hfn Hns
         focus prop os.
  pose proof (prefixed_name_prefix _ _ Hwn) as Hcolon.
  pose proof (prefixed_name_local _ _ Hwn) as Hname.
  pose proof (prefixed_name_local _ _ HwP) as HP.
  unfold triplesForOneViolation.
  rewrite bind_unfold.
  rewrite (violationPredicateObj_sh violation "sh:resultPath" "resultPath"
             false self eq_refl eq_refl Hsh).
  rewrite Hrp. cbn [andb hd]. rewrite bind_unfold. cbn [get truthy].
  rewrite bind_unfold.
  rewrite (violationPredicateObj_sh violation "sh:sourceShape" "sourceShape"
             true self eq_refl eq_refl Hsh).
  rewrite Hss. cbn [andb hd length Nat.eqb negb].
  rewrite bind_unfold. cbn [py_split ret].
  change (shns ++ "#" ++ P ++ "DomainShape")
    with (shns ++ String "#" (P ++ "DomainShape")).
  rewrite split_join; [|exact Hsh1|now rewrite mem_app, HP].
  rewrite bind_unfold. cbn [unpack2 ret snd].
  rewrite endswith_app.
  change (String.length "DomainShape") with (String.length "DomainShape").
  rewrite drop_last_app.
  rewrite bind_unfold. cbn [get]. rewrite bind_unfold.
  unfold dict_item at 1. rewrite Hbrick. cbn [ret].
  rewrite bind_unfold.
  rewrite (violationPredicateObj_sh violation "sh:focusNode" "focusNode"
             true self eq_refl eq_refl Hsh).
  rewrite Hfn. cbn [andb hd length Nat.eqb negb].
  rewrite bind_unfold. cbn [py_split ret].
  change (ns ++ "#" ++ name) with (ns ++ String "#" name).
  rewrite split_join by assumption.
  rewrite bind_unfold. cbn [unpack2 ret].
  change (ns ++ "#") with (ns ++ "#") in Hpfx.
  rewrite Hpfx. cbn [length Nat.eqb negb hd].
  rewrite bind_unfold. cbn [py_assert ret].
  rewrite bind_unfold. unfold queryDataGraph.
  rewrite bind_unfold. cbn [get]. rewrite bind_unfold. unfold lift at 1.
  change (pfx ++ ":" ++ name) with (pfx ++ String ":" name).
  rewrite (str_or_some (pfx ++ String ":" name)) by apply join_not_empty.
  cbn [str_or append].
  assert (Hprep : prepareQuery (namespaceDict self) (pfx ++ String ":" name)
                               ("brick:" ++ P) "?o" =
                  Ok (Const focus, Const prop, Var)).
  { unfold prepareQuery, parse_slot.
    rewrite (cut_not_variable _ "?s" _ (cut_join ":" pfx name Hcolon) eq_refl).
    unfold expand. rewrite (cut_join ":" pfx name Hcolon), Hwn.
    rewrite (first_prefix_bound _ _ _ _ Hnd Hpfx).
    cbn [String.eqb Str.cut Ascii.eqb Bool.eqb andb append].
    rewrite HwP, Hbrick. unfold focus. now rewrite app_assoc_string. }
  cbn [append] in Hprep. rewrite Hprep.
  rewrite bind_unfold. unfold attr at 1. rewrite Hdg. cbv zeta.
  rewrite graph_query_subject_predicate.
  fold (objects_at focus prop dg). unfold objects_at.
  set (rows := filter _ (triples dg)).
  assert (Hos : os = map object rows) by reflexivity.
  rewrite bind_unfold. unfold py_assert. rewrite length_map.
  destruct rows as [|t rows].
  - rewrite Hos. reflexivity.
  - rewrite Hos. cbn [length Nat.eqb negb ret map].
    rewrite attach_rows_spec. cbn [map length object snd].
    rewrite !length_map, !map_map. reflexivity.
Qed.

(** C6, as amended. Take a violation without a result path, with exactly one
    source shape [shns#PDomainShape] and exactly one focus node [ns#name], a
    registry (one entry per prefix) that binds [sh] to the SHACL namespace,
    [brick] to the Brick namespace and, first among the prefixes of [ns#], a
    prefix [pfx], and the data-graph triples with the subject [ns#name] and
    the predicate [brick:P], that is the Brick namespace followed by [P].
    The two texts that line 229 pastes into the query, [pfx:name] and
    [brick:P], are prefixed names of the SPARQL grammar. If there is at
    least one such triple, the resolver returns without raising and has
    added, for the i-th of them with object [o], the inner graph of the
    single triple [(ns#name, brick:P, o)] and one attachment that refers to
    it; it has added nothing else to the violation and removed nothing. If
    there is none, the resolver raises the assertion error of the query
    helper and leaves the instance as it was. *)
Theorem C6_domain_shape_attachments :
  forall (self : Validate) (violation dg : Graph)
         (shns P ns name brick pfx : string) (rest : list string),
    dict_get (namespaceDict self) "sh" = Some SH_ns ->
    dict_get (namespaceDict self) "brick" = Some brick ->
    NoDup (map fst (namespaceDict self)) ->
    map fst (filter (fun kv => String.eqb (ns ++ "#") (snd kv))
                    (namespaceDict self)) = pfx :: rest ->
    prefixed_name pfx name = true ->
    prefixed_name "brick" P = true ->
    data_graph self = Some dg ->
    objects_of (SH SH_ns "resultPath") violation = [] ->
    objects_of (SH SH_ns "sourceShape") violation =
      [URIRef (shns ++ "#" ++ P ++ "DomainShape")] ->
    Str.mem "#" shns = false ->
    objects_of (SH SH_ns "focusNode") violation = [URIRef (ns ++ "#" ++ name)] ->
    Str.mem "#" ns = false ->
    let focus := URIRef (ns ++ "#" ++ name) in
    let prop := URIRef (brick ++ P) in
    let os := objects_at focus prop dg in
    let attachment i := (GenBNode (bnodes self + i),
                         BSH BSH_ns "offendingTriple",
                         GraphRef (length (store self) + i)) in
    (os <> [] ->
     exists self' violation',
       triplesForOneViolation' violation self = (self', Ok violation') /\
       (forall i o, nth_error os i = Some o ->
                    nth_error (store self') (length (store self) + i) =
                    Some (mkGraph [(focus, prop, o)] []) /\
                    In (attachment i) (triples violation')) /\
       (forall t, In t (triples violation') ->
                  In t (triples violation) \/
                  exists i, i < length os /\ t = attachment i) /\
       (forall t, In t (triples violation) -> In t (triples violation'))) /\
    (os = [] ->
     triplesForOneViolation' violation self =
     (self,
      Raise (AssertionError
               (no_triple_like (Some (pfx ++ ":" ++ name))
                               (Some ("brick:" ++ P)) None)))).
Proof.
  intros self violation dg shns P ns name brick pfx rest
         Hsh Hbrick Hnd Hpfx Hwn HwP Hdg Hrp Hss Hsh1 Hfn Hns
         focus prop os attachment.
  pose proof (triplesForOneViolation_domain self violation dg shns P ns name
                brick pfx rest Hsh Hbrick Hnd Hpfx Hwn HwP Hdg Hrp Hss Hsh1
                Hfn Hns) as Heq.
  cbv zeta in Heq. fold focus prop os in Heq.
  split; [intros Hos|intros Hos; now rewrite Heq, Hos].
  destruct os as [|o1 os'] eqn:Eos; [congruence|]. rewrite <- Eos in *.
  assert (Heq' : triplesForOneViolation' violation self =
                 (resolved self (map (fun o => mkGraph [(focus, prop, o)] []) os),
                  Ok (attach_all' (bnodes self) (length (store self))
                                 (length os) violation))).
  { rewrite Heq, Eos. reflexivity. }
  clear Heq. eexists _, _. split; [exact Heq'|]. split; [|split].
  - intros i o Hi. split.
    + rewrite store_resolved, nth_error_app2 by lia.
      replace (length (store self) + i - length (store self)) with i by lia.
      now rewrite nth_error_map, Hi.
    + apply attach_all_In. right. exists i. split; [|reflexivity].
      apply nth_error_Some. congruence.
  - intros t Ht. now apply attach_all_In in Ht.
  - intros t Ht. apply attach_all_In. now left.
Qed.

(** ** The report renderer *)

Lemma appendGraph_outFile (h : list Graph) (msg : option string) (g : Graph)
      (self : ResultsSerialize) :
  outFile (appendGraph' h msg g self) =
  (outFile self ++ heading msg ++ graph_lines' h (prefixes self) g)%list /\
  prefixes (appendGraph' h msg g self) = prefixes self.
Proof.
  unfold appendGraph.
  destruct (write_all_outFile
              (graph_lines' h (prefixes self) g)
              match msg with
              | Some EmptyString | None => self
              | Some m => write m self
              end) as [H1 H2].
  rewrite H1, H2. destruct msg as [[|a m]|]; simpl.
  - split; reflexivity.
  - now rewrite <- app_assoc.
  - split; reflexivity.
Qed.

Lemma appendGraph_all_outFile (h : list Graph) (gs : list Graph)
      (self : ResultsSerialize) :
  outFile (fold_left (fun acc g => appendGraph' h None g acc) gs self) =
  (outFile self ++ flat_map (graph_lines' h (prefixes self)) gs)%list /\
  prefixes (fold_left (fun acc g => appendGraph' h None g acc) gs self) =
  prefixes self.
Proof.
  revert self. induction gs as [|g gs IH]; intros self; simpl.
  - now rewrite app_nil_r.
  - destruct (IH (appendGraph' h None g self)) as [H1 H2].
    destruct (appendGraph_outFile h None g self) as [H3 H4].
    rewrite H1, H2, H3, H4. simpl. now rewrite <- app_assoc.
Qed.

Lemma tripleGraphs_spec (h : list Graph) (ts : list triple) :
  (forall t, In t ts ->
             predicate t = BSH BSH_ns "offendingTriple" ->
             exists i, object t = GraphRef i) ->
  tripleGraphs BSH_ns h ts =
  Ok (map (inner_copy h)
          (filter (fun t => node_eqb (predicate t)
                                     (BSH BSH_ns "offendingTriple")) ts)).
Proof.
  induction ts as [|[[s p] o] ts IH]; intros Hall; [reflexivity|].
  cbn [tripleGraphs filter predicate fst snd]. fold (BSH BSH_ns "offendingTriple").
  assert (IH' := IH (fun t Hin => Hall t (or_intror Hin))).
  destruct (node_eqb p (BSH BSH_ns "offendingTriple")) eqn:Hp.
  - unfold node_eqb in Hp.
    destruct (node_eq_dec p (BSH BSH_ns "offendingTriple")) as [->|];
      [|discriminate].
    destruct (Hall _ (or_introl eq_refl) eq_refl) as [i Hi]. simpl in Hi.
    subst o. cbn [iter_triples]. rewrite IH'. reflexivity.
  - exact IH'.
Qed.

(** C9. Write [text_of x] for the Turtle text that the serializer gives for
    the graph [x] once the prefixes of the registry are bound on it, and
    [shown x] for the lines of that text that are no prefix declaration, do
    not mention [offendingTriple] and are not blank, each followed by a line
    feed. A violation graph without attachment makes the renderer write the
    message, the shown lines of the violation and then the fixed placeholder
    line, and no section heading. A violation graph with attachments, each
    of which frames an inner graph, makes it write the message, the shown
    lines of the violation, then one heading ([Offending triple:] for one
    attachment, [Potential offending triples:] for several) and then, per
    attachment and in their order, the shown lines of a graph that has
    exactly the triples of its inner graph: every line that the serializer
    writes for such a graph, a prefix declaration or a blank line apart,
    stands in the output after the heading, followed by a line feed. The
    placeholder is not what is written after the body. *)
Theorem C9_placeholder_or_offending_section :
  forall (h : list Graph) (msg : option string) (g : Graph)
         (self : ResultsSerialize),
    let text_of x :=
      serialize h (fold_left (fun acc n => graph_bind (fst n) (snd n) acc)
                             (prefixes self) x) in
    let shown x :=
      flat_map (fun line => [line; nl])
               (filter (fun line => negb (Str.startswith line "@prefix") &&
                                    negb (Str.contains line "offendingTriple") &&
                                    Str.strip_nonempty line)
                       (Str.splitlines (text_of x))) in
    let body := (heading msg ++ shown g)%list in
    (attachments' g = [] ->
     snd (appendViolation' h msg g self) = Ok tt /\
     outFile (fst (appendViolation' h msg g self)) =
     (outFile self ++ body ++ [placeholder])%list) /\
    (attachments' g <> [] ->
     (forall a, In a (attachments' g) -> exists i, object a = GraphRef i) ->
     let label := if Nat.eqb (length (attachments' g)) 1
                  then "Offending triple:" ++ nl
                  else "Potential offending triples:" ++ nl in
     snd (appendViolation' h msg g self) = Ok tt /\
     outFile (fst (appendViolation' h msg g self)) =
     (outFile self ++ body ++ [label] ++
      flat_map shown (map (inner_copy h) (attachments' g)))%list /\
     label <> placeholder /\
     (forall a i t, In a (attachments' g) -> object a = GraphRef i ->
                    (In t (triples (inner_copy h a)) <->
                     In t (triples (nth i h Graph_new)))) /\
     (forall a line,
         In a (attachments' g) ->
         In line (Str.splitlines (text_of (inner_copy h a))) ->
         Str.startswith line "@prefix" = false ->
         Str.contains line "offendingTriple" = false ->
         Str.strip_nonempty line = true ->
         exists before after,
           outFile (fst (appendViolation' h msg g self)) =
           (outFile self ++ body ++ [label] ++
            before ++ line :: nl :: after)%list)).
Proof.
  intros h msg g self text_of shown.
  assert (Hshown : shown = graph_lines' h (prefixes self)) by reflexivity.
  assert (Hline : forall x line,
             In line (Str.splitlines (text_of x)) ->
             Str.startswith line "@prefix" = false ->
             Str.contains line "offendingTriple" = false ->
             Str.strip_nonempty line = true ->
             exists l1 l2, shown x = (l1 ++ line :: nl :: l2)%list).
  { intros x line Hin H1 H2 H3. unfold shown.
    assert (Hk : In line
                    (filter (fun line =>
                               negb (Str.startswith line "@prefix") &&
                               negb (Str.contains line "offendingTriple") &&
                               Str.strip_nonempty line)
                            (Str.splitlines (text_of x)))).
    { apply filter_In. split; [exact Hin|]. now rewrite H1, H2, H3. }
    apply in_split in Hk as (k1 & k2 & ->).
    rewrite flat_map_app. cbn [flat_map app]. eauto. }
  clearbody shown. intros body.
  destruct (appendGraph_outFile h msg g self) as [Hout Hpre].
  rewrite <- Hshown in Hout. fold body in Hout.
  assert (Hall : forall t, In t (triples g) ->
                           predicate t = BSH BSH_ns "offendingTriple" ->
                           In t (attachments' g)).
  { intros t Hin Hp. apply filter_In. split; [exact Hin|].
    rewrite Hp. unfold node_eqb.
    now destruct (node_eq_dec (BSH BSH_ns "offendingTriple")
                              (BSH BSH_ns "offendingTriple")). }
  split.
  - intros Hnone. unfold appendViolation.
    rewrite tripleGraphs_spec.
    + fold (attachments' g). rewrite Hnone. simpl. split; [reflexivity|].
      rewrite Hout. now rewrite <- !app_assoc.
    + intros t Hin Hp. specialize (Hall t Hin Hp). rewrite Hnone in Hall.
      destruct Hall.
  - intros Hsome Hrefs label.
    assert (Hfile :
              snd (appendViolation' h msg g self) = Ok tt /\
              outFile (fst (appendViolation' h msg g self)) =
              (outFile self ++ body ++ [label] ++
               flat_map shown (map (inner_copy h) (attachments' g)))%list).
    { unfold appendViolation.
      rewrite tripleGraphs_spec by (intros t Hin Hp; apply Hrefs; auto).
      fold (attachments' g). rewrite length_map. subst label.
      destruct (attachments' g) as [|a0 atts] eqn:Eatt; [congruence|].
      cbn [length Nat.eqb].
      split; [reflexivity|]. cbn [fst].
      match goal with
      | |- outFile (fold_left _ ?gs ?s) = _ =>
          destruct (appendGraph_all_outFile h gs s) as [H1 _]; rewrite H1
      end.
      assert (Hw : forall x,
                 outFile (write x (appendGraph' h msg g self)) =
                 (outFile self ++ body ++ [x])%list /\
                 prefixes (write x (appendGraph' h msg g self)) = prefixes self).
      { intros x. simpl. rewrite Hout, Hpre. now rewrite <- !app_assoc. }
      rewrite Hshown.
      destruct (Nat.eqb (length atts) 0);
        match goal with
        | |- context [write ?x _] => destruct (Hw x) as [H2 H3]
        end; rewrite H2, H3; now rewrite <- !app_assoc. }
    destruct Hfile as [Hok Hfile].
    split; [exact Hok|]. split; [exact Hfile|]. split; [|split].
    + unfold label. destruct (Nat.eqb (length (attachments' g)) 1); discriminate.
    + intros a i t _ Ha. now apply inner_copy_In.
    + intros a line Ha Hin H1 H2 H3.
      destruct (Hline (inner_copy h a) line Hin H1 H2 H3) as (l1 & l2 & Hl).
      apply in_split in Ha as (a1 & a2 & Ha).
      rewrite Hfile, Ha, map_app, flat_map_app. cbn [map flat_map].
      rewrite Hl.
      exists (flat_map shown (map (inner_copy h) a1) ++ l1)%list,
             (l2 ++ flat_map shown (map (inner_copy h) a2))%list.
      rewrite <- !app_assoc. reflexivity.
Qed.

(** * Further properties of the code *)

(** ** Registration *)

Lemma for_each_registration (l : NamespaceDict) (self : Validate) :
  for_each l buildNamespaceDict_step self =
  buildNamespaceDict (mkGraph [] l) self.
Proof. reflexivity. Qed.

(** The message of the assertion of lines 150-153. *)
Lemma buildNamespaceDict_step_raises (prefix path : string) (self self' : Validate)
      (e : exn) :
  buildNamespaceDict_step (prefix, path) self = (self', Raise e) ->
  exists old,
    self' = self /\ old <> path /\
    dict_get (namespaceDict self) prefix = Some old /\
    e = AssertionError ("Same prefix '" ++ prefix ++ "' used for " ++ old ++
                        " and " ++ path).
Proof.
  unfold buildNamespaceDict_step, bind, get, py_assert, dict_mem, modify, ret,
    raise.
  destruct (dict_get (namespaceDict self) prefix) as [old|]; simpl;
    [|discriminate].
  destruct (String.eqb_spec path old) as [->|Hne]; simpl; [discriminate|].
  intros H. injection H as <- <-. exists old. repeat split; congruence.
Qed.

(** X1. A registration that returns has bound every prefix of the graph: the
    registry then answers each prefix of the graph with the namespace that
    the graph gives it. So registering the same graph once more returns and
    changes nothing. *)
Theorem X1_registration_binds_every_prefix :
  forall (g : Graph) (self : Validate),
    snd (buildNamespaceDict g self) = Ok tt ->
    let self' := fst (buildNamespaceDict g self) in
    (forall prefix path,
        In (prefix, path) (namespaces g) ->
        dict_get (namespaceDict self') prefix = Some path) /\
    buildNamespaceDict g self' = (self', Ok tt).
Proof.
  intros g self Hok self'.
  assert (Hall : forall prefix path,
             In (prefix, path) (namespaces g) ->
             dict_get (namespaceDict self') prefix = Some path).
  { subst self'. revert Hok. unfold buildNamespaceDict.
    generalize (namespaces g) as l. intros l. revert self.
    induction l as [|[p0 q0] l IH]; intros self Hok prefix path Hin;
      [destruct Hin|].
    rewrite for_each_cons in *.
    pose proof (buildNamespaceDict_step_cases p0 q0 self) as H.
    destruct (dict_get (namespaceDict self) p0) as [old|] eqn:E.
    - destruct (String.eqb_spec q0 old) as [->|Hne].
      + rewrite H in *. destruct Hin as [Heq|Hin]; [|now apply IH].
        injection Heq as <- <-. rewrite for_each_registration.
        now apply buildNamespaceDict_keeps.
      + destruct H as [msg H]. rewrite H in Hok. discriminate.
    - rewrite H in *. destruct Hin as [Heq|Hin]; [|now apply IH].
      injection Heq as <- <-. rewrite for_each_registration.
      apply buildNamespaceDict_keeps. simpl. apply dict_get_set_same. }
  split; [exact Hall|]. now apply buildNamespaceDict_same.
Qed.

(** X2. A registration raises only for a conflict: the exception is the
    assertion error of lines 150-153 for a binding [(prefix, path)] of the
    graph, where the registry, as the registration leaves it, binds [prefix]
    to another namespace [old]; the message names the three. *)
Theorem X2_registration_raises_only_on_conflict :
  forall (g : Graph) (self : Validate) (e : exn),
    snd (buildNamespaceDict g self) = Raise e ->
    exists prefix path old,
      In (prefix, path) (namespaces g) /\
      old <> path /\
      dict_get (namespaceDict (fst (buildNamespaceDict g self))) prefix
      = Some old /\
      e = AssertionError ("Same prefix '" ++ prefix ++ "' used for " ++ old ++
                          " and " ++ path).
Proof.
  intros g self e. unfold buildNamespaceDict.
  generalize (namespaces g) as l. intros l. revert self.
  induction l as [|[p0 q0] l IH]; intros self Hr; [discriminate|].
  rewrite for_each_cons in *.
  destruct (buildNamespaceDict_step (p0, q0) self) as [s1 [u|e1]] eqn:Es.
  - destruct (IH s1 Hr) as (prefix & path & old & Hin & Hne & Hget & He).
    exists prefix, path, old. repeat split; auto. now right.
  - simpl in Hr. injection Hr as ->.
    destruct (buildNamespaceDict_step_raises _ _ _ _ _ Es)
      as (old & -> & Hne & Hget & He).
    exists p0, q0, old. repeat split; auto. now left.
Qed.

(** ** Lookups in a violation graph and in the data graph *)

(** X3. The lookup of lines 175-185 for a predicate text [pfx:local] that
    is a prefixed name of the SPARQL grammar and whose prefix the registry
    binds: it never changes the instance; an optional lookup answers the
    object of the first triple of the violation with that predicate, and
    [None] when there is none; a required lookup answers the object when
    exactly one triple has the predicate and raises the assertion error of
    line 181 otherwise. *)
Theorem X3_predicate_lookup :
  forall (violation : Graph) (pname pfx local ns : string) (self : Validate),
    Str.cut ":" pname = Some (pfx, local) ->
    prefixed_name pfx local = true ->
    dict_get (namespaceDict self) pfx = Some ns ->
    let os := objects_of (URIRef (ns ++ local)) violation in
    (os = [] ->
     violationPredicateObj violation pname false self = (self, Ok PyNone)) /\
    (forall o rest, os = o :: rest ->
                    violationPredicateObj violation pname false self
                    = (self, Ok o)) /\
    (forall o, os = [o] ->
               violationPredicateObj violation pname true self = (self, Ok o)) /\
    (length os <> 1 ->
     violationPredicateObj violation pname true self =
     (self, Raise (AssertionError ("Must have predicate '" ++ pname ++ "'")))).
Proof.
  intros violation pname pfx local ns self Hc Hq Hd os.
  assert (Heq : forall mustFind,
             violationPredicateObj violation pname mustFind self =
             (self,
              if mustFind && negb (Nat.eqb (length os) 1)
              then Raise (AssertionError ("Must have predicate '" ++ pname ++ "'"))
              else Ok (hd PyNone os))).
  { intros mustFind. unfold violationPredicateObj.
    rewrite bind_unfold. cbn [get]. rewrite bind_unfold. unfold lift at 1.
    rewrite (prepareQuery_predicate _ _ _ _ _ Hc Hq Hd). cbv zeta.
    rewrite graph_query_predicate. unfold os, objects_of.
    set (rows := filter _ (triples violation)).
    rewrite length_map. rewrite bind_unfold.
    destruct mustFind; cbn [andb].
    - unfold py_assert. rewrite length_map.
      destruct (Nat.eqb (length rows) 1); cbn [negb ret raise]; [|reflexivity].
      destruct rows as [|t rows]; reflexivity.
    - cbn [ret]. destruct rows as [|t rows]; reflexivity. }
  split; [intros Ho; now rewrite Heq, Ho|]. split; [|split].
  - intros o rest Ho. now rewrite Heq, Ho.
  - intros o Ho. rewrite Heq, Ho. reflexivity.
  - intros Hlen. rewrite Heq. apply Nat.eqb_neq in Hlen. now rewrite Hlen.
Qed.

(** A row of a query comes from a triple that the pattern matches. *)
Lemma graph_query_In (g : Graph) (q : slot * slot * slot) (row : triple) :
  In row (graph_query g q) ->
  exists t, In t (triples g) /\
            (subject row = subject t \/ subject row = PyNone) /\
            (predicate row = predicate t \/ predicate row = PyNone) /\
            (object row = object t \/ object row = PyNone).
Proof.
  destruct q as [[ss sp] so]. unfold graph_query. rewrite in_map_iff.
  intros (t & <- & Hin). apply filter_In in Hin as [Hin _].
  exists t. split; [exact Hin|]. unfold pattern_row, subject, predicate, object.
  cbn [fst snd]. destruct ss, sp, so; simpl; auto.
Qed.

(** X4. The query helper of lines 159-169, asked with a pattern each place
    of which is left open ([None] or an empty text) or holds a prefixed name
    of the SPARQL grammar, never answers an empty result: when it returns,
    the instance is as it was, a data graph has been recorded, there is at
    least one row, and every row stems from a triple of the data graph,
    whose terms it shows in the places that the pattern leaves open. *)
Theorem X4_query_result_is_never_empty :
  forall (s p o : option string) (self : Validate) (res : list triple),
    pattern_text s = true ->
    pattern_text p = true ->
    pattern_text o = true ->
    snd (queryDataGraph s p o self) = Ok res ->
    fst (queryDataGraph s p o self) = self /\
    res <> [] /\
    exists dg,
      data_graph self = Some dg /\
      forall row, In row res ->
        exists t, In t (triples dg) /\
                  (subject row = subject t \/ subject row = PyNone) /\
                  (predicate row = predicate t \/ predicate row = PyNone) /\
                  (object row = object t \/ object row = PyNone).
Proof.
  intros s p o self res _ _ _ H.
  split; [apply keeps_queryDataGraph with (f := fun x => x)|].
  revert H. unfold queryDataGraph.
  rewrite bind_unfold. cbn [get]. rewrite bind_unfold. unfold lift at 1.
  destruct (prepareQuery _ _ _ _) as [q|e]; [|discriminate].
  rewrite bind_unfold. unfold attr at 1.
  destruct (data_graph self) as [dg|]; [|discriminate]. cbv zeta.
  rewrite bind_unfold. unfold py_assert.
  destruct (graph_query dg q) as [|r rs] eqn:Eq; [discriminate|].
  cbn [length Nat.eqb negb ret]. intros H. injection H as <-.
  split; [discriminate|]. exists dg. split; [reflexivity|].
  intros row Hrow. apply (graph_query_In dg q). now rewrite Eq.
Qed.

(** ** Construction *)

(** The instance that [__init__] returns, field by field. *)
Lemma init_returns (attach : bool) (Brick_ttl BrickShape_ttl : Graph)
      (self : Validate) :
  init attach Brick_ttl BrickShape_ttl = (self, Ok tt) ->
  dict_get (namespaces Brick_ttl) "rdfs" = Some RDFS_ns ->
  self =
  mkValidate attach
    (mkGraph (filter (fun t => negb (node_eqb (predicate t) (RDFS "range")))
                (filter (fun t => negb (node_eqb (predicate t) (RDFS "domain")))
                        (triples Brick_ttl)))
             (namespaces Brick_ttl))
    BrickShape_ttl (namespaceDict self) None None None None None [] 0
    [("INFO", "Validate init")] /\
  forall k, dict_get (namespaceDict self) k = dict_get (namespaces Brick_ttl) k.
Proof.
  unfold init. intros Hinit Hrdfs.
  rewrite bind_unfold in Hinit. simpl in Hinit.
  rewrite bind_unfold in Hinit. simpl in Hinit.
  rewrite bind_unfold in Hinit. simpl in Hinit.
  rewrite bind_unfold in Hinit.
  match type of Hinit with
  | context [buildNamespaceDict Brick_ttl ?s] => set (s0 := s) in *
  end.
  pose proof (buildNamespaceDict_get Brick_ttl s0) as Hget.
  pose proof (keeps_buildNamespaceDict
                (fun s => (attachOffender s, brickG s, shapeG s, data_graph s,
                           conforms s, results_graph s, results_text s,
                           violationDict s, store s, bnodes s, log s))
                Brick_ttl (fun d self => eq_refl) s0) as Hb.
  destruct (buildNamespaceDict Brick_ttl s0) as [s1 [[]|e]];
    [|discriminate].
  cbn [fst snd] in Hget, Hb. specialize (Hget eq_refl).
  assert (Hreg : forall k, dict_get (namespaceDict s1) k
                           = dict_get (namespaces Brick_ttl) k).
  { intros k. rewrite Hget. reflexivity. }
  pose proof (Hreg "rdfs") as Hr. rewrite Hrdfs in Hr.
  rewrite bind_unfold in Hinit. unfold update_brickG at 1 in Hinit.
  rewrite bind_unfold in Hinit. cbn [get] in Hinit.
  rewrite bind_unfold in Hinit. cbn [get] in Hinit.
  rewrite bind_unfold in Hinit. unfold lift at 1 in Hinit.
  rewrite (delete_predicate_bound _ _ "rdfs:domain" "rdfs" "domain" RDFS_ns
             eq_refl eq_refl Hr) in Hinit.
  cbn [modify] in Hinit.
  rewrite bind_unfold in Hinit. unfold update_brickG at 1 in Hinit.
  rewrite bind_unfold in Hinit. cbn [get] in Hinit.
  rewrite bind_unfold in Hinit. cbn [get] in Hinit.
  rewrite bind_unfold in Hinit. unfold lift at 1 in Hinit.
  rewrite (delete_predicate_bound _ _ "rdfs:range" "rdfs" "range" RDFS_ns
             eq_refl eq_refl) in Hinit by (destruct s1; exact Hr).
  cbn [modify] in Hinit. injection Hinit as <-.
  destruct s1. simpl in *. injection Hb as -> -> -> -> -> -> -> -> -> -> ->.
  split; [reflexivity|exact Hreg].
Qed.

(** X5. Construction deletes the domain and range axioms and nothing else:
    when [__init__] returns, for a packaged ontology that binds [rdfs] to
    the RDF Schema namespace, the default ontology graph holds exactly the
    triples of Brick.ttl whose predicate is neither [rdfs:domain] nor
    [rdfs:range], with the prefixes of Brick.ttl; the default shapes graph
    is BrickShape.ttl; the registry answers every prefix as Brick.ttl binds
    it; and neither a data graph nor a violation dictionary exists yet. *)
Theorem X5_init_deletes_domain_and_range_only :
  forall (attach : bool) (Brick_ttl BrickShape_ttl : Graph) (self : Validate),
    init attach Brick_ttl BrickShape_ttl = (self, Ok tt) ->
    dict_get (namespaces Brick_ttl) "rdfs" = Some RDFS_ns ->
    (forall t, In t (triples (brickG self)) <->
               In t (triples Brick_ttl) /\
               predicate t <> RDFS "domain" /\ predicate t <> RDFS "range") /\
    namespaces (brickG self) = namespaces Brick_ttl /\
    shapeG self = BrickShape_ttl /\
    attachOffender self = attach /\
    (forall k, dict_get (namespaceDict self) k
               = dict_get (namespaces Brick_ttl) k) /\
    data_graph self = None /\
    violationDict self = None.
Proof.
  intros attach Brick_ttl BrickShape_ttl self Hinit Hrdfs.
  destruct (init_returns _ _ _ _ Hinit Hrdfs) as [Heq Hreg].
  rewrite Heq. cbn [brickG shapeG attachOffender data_graph violationDict
                    triples namespaces].
  split; [|now repeat split].
  clear SH_ns BSH_ns pyshacl_validate serialize.
  intros t. rewrite !filter_In, !negb_true_iff. unfold node_eqb.
  destruct (node_eq_dec (predicate t) (RDFS "range"));
    destruct (node_eq_dec (predicate t) (RDFS "domain"));
    intuition congruence.
Qed.

(** ** [validate] and the rest of the instance *)

Lemma keeps_attachOffendingTriples {B} (f : Validate -> B) :
  stable f ->
  (forall d self, f (set_namespaceDict d self) = f self) ->
  (forall d self, f (set_violationDict d self) = f self) ->
  keeps f attachOffendingTriples'.
Proof.
  intros Hf Hn Hv. pose proof Hf as [_ _ Hl]. unfold attachOffendingTriples.
  apply keeps_bind; [apply keeps_log; apply Hl|intros _].
  apply keeps_bind; [apply keeps_modify; intros s; apply Hn|intros _].
  apply keeps_bind; [auto with keeps|intros rg].
  apply keeps_bind; [now apply keeps_buildNamespaceDict|intros _].
  apply keeps_bind; [auto with keeps|intros dg].
  apply keeps_bind; [now apply keeps_buildNamespaceDict|intros _].
  apply keeps_bind; [auto with keeps|intros nsd].
  apply keeps_bind; [apply keeps_modify; intros s; apply Hv|intros _].
  apply keeps_bind; [auto with keeps|intros d].
  apply keeps_for_each. intros k. now apply keeps_resolve_entry.
Qed.

Lemma keeps_validate {B} (f : Validate -> B) (data : Graph)
      (sg og : option Graph) (opts : EngineOpts) :
  stable f ->
  (forall d self, f (set_namespaceDict d self) = f self) ->
  (forall d self, f (set_violationDict d self) = f self) ->
  (forall g self, f (set_data_graph g self) = f self) ->
  (forall r self, f (set_results r self) = f self) ->
  keeps f (validate' data sg og opts).
Proof.
  intros Hf Hn Hv Hd Hr. pose proof Hf as [_ _ Hl]. unfold validate.
  apply keeps_bind; [apply keeps_log; apply Hl|intros _].
  apply keeps_bind; [auto with keeps|intros sg'].
  apply keeps_bind; [auto with keeps|intros og'].
  apply keeps_bind; [apply keeps_modify; intros s; apply Hd|intros _].
  apply keeps_bind; [auto with keeps|intros [[c rg] text]].
  apply keeps_bind; [apply keeps_modify; intros s; apply Hr|intros _].
  apply keeps_bind; [auto with keeps|intros att].
  destruct (c || negb att); [auto with keeps|].
  apply keeps_bind; [now apply keeps_attachOffendingTriples|intros _].
  apply keeps_bind; auto with keeps.
Qed.

Lemma stable_shapeG : stable shapeG.
Proof. split; reflexivity. Qed.

Lemma stable_attachOffender : stable attachOffender.
Proof. split; reflexivity. Qed.

Lemma after_calls_keeps {B} (f : Validate -> B) (calls : list Call)
      (self : Validate) :
  stable f ->
  (forall d self, f (set_namespaceDict d self) = f self) ->
  (forall d self, f (set_violationDict d self) = f self) ->
  (forall g self, f (set_data_graph g self) = f self) ->
  (forall r self, f (set_results r self) = f self) ->
  f (after_calls' calls self) = f self.
Proof.
  intros Hf Hn Hv Hd Hr. unfold after_calls'. revert self.
  induction calls as [|c calls IH]; intros self; simpl; [reflexivity|].
  rewrite IH. now apply keeps_validate.
Qed.

(** X6. When the engine raises, [validate] raises the same exception. The
    data graph of the call has been recorded by then (line 69) while the
    results are still those of the call before, and registry and violation
    dictionary are untouched: the instance pairs the new data graph with
    the old results. *)
Theorem X6_engine_failure_leaves_old_results :
  forall (self : Validate) (data : Graph) (sg og : option Graph)
         (opts : EngineOpts) (e : exn),
    pyshacl_validate data (graph_or sg (shapeG self))
                     (graph_or og (brickG self)) opts = Raise e ->
    let self' := fst (validate' data sg og opts self) in
    snd (validate' data sg og opts self) = Raise e /\
    data_graph self' = Some data /\
    conforms self' = conforms self /\
    results_graph self' = results_graph self /\
    results_text self' = results_text self /\
    violationDict self' = violationDict self /\
    namespaceDict self' = namespaceDict self.
Proof.
  intros self data sg og opts e Heng self'. subst self'.
  unfold validate.
  rewrite bind_unfold. simpl. rewrite bind_unfold. simpl.
  rewrite bind_unfold. simpl. rewrite bind_unfold. simpl.
  rewrite bind_unfold. unfold lift at 1. rewrite Heng.
  simpl. now repeat split.
Qed.

(** X7. An optional graph without triples counts as not given (lines 66 and
    67 test the truth value of the graph, which is false for an empty one):
    a call with an empty shapes graph, or an empty ontology graph, is the
    call without that argument, so the default graph is used. *)
Theorem X7_empty_graph_argument_is_ignored :
  forall (self : Validate) (data g : Graph) (sg og : option Graph)
         (opts : EngineOpts),
    triples g = [] ->
    validate' data (Some g) og opts self = validate' data None og opts self /\
    validate' data sg (Some g) opts self = validate' data sg None opts self.
Proof.
  intros self data g sg og opts Hg.
  assert (Hor : forall d, graph_or (Some g) d = graph_or None d).
  { intros d. unfold graph_or, graph_len. now rewrite Hg. }
  split; unfold validate.
  - do 3 (rewrite bind_unfold; cbn [log_record modify get]).
    symmetry.
    do 3 (rewrite bind_unfold; cbn [log_record modify get]).
    now rewrite Hor.
  - do 3 (rewrite bind_unfold; cbn [log_record modify get]).
    symmetry.
    do 3 (rewrite bind_unfold; cbn [log_record modify get]).
    now rewrite Hor.
Qed.

(** ** The resolver on any violation *)

(** One step of a method whose first statement leaves the instance alone. *)
Tactic Notation "pure_step" ident(a) :=
  match goal with
  | |- context [bind ?m ?k ?s] =>
      let Hk := fresh "Hk" in
      let s1 := fresh "s" in
      let e := fresh "e" in
      assert (Hk : fst (m s) = s)
        by (apply (fun H : keeps (fun x : Validate => x) m => H s);
            auto with keeps);
      rewrite (bind_unfold m k s);
      destruct (m s) as [s1 [a|e]]; cbn [fst] in Hk; subst s1;
      [|first [reflexivity | simpl; reflexivity]]
  end.

Lemma queryDataGraph_returns (s p o : option string) (self self' : Validate)
      (res : list triple) :
  queryDataGraph s p o self = (self', Ok res) -> self' = self /\ res <> [].
Proof.
  intros H. split.
  - pose proof (keeps_queryDataGraph (fun x => x) s p o self) as Hk.
    rewrite H in Hk. exact Hk.
  - revert H. unfold queryDataGraph.
    rewrite bind_unfold. cbn [get]. rewrite bind_unfold. unfold lift at 1.
    destruct (prepareQuery _ _ _ _) as [q|e]; [|discriminate].
    rewrite bind_unfold. unfold attr at 1.
    destruct (data_graph self) as [dg|]; [|discriminate]. cbv zeta.
    rewrite bind_unfold. unfold py_assert.
    destruct (graph_query dg q) as [|r rs]; [discriminate|].
    cbn [length Nat.eqb negb ret]. intros H. injection H as _ <-. discriminate.
Qed.

(** Whatever the violation: a resolution that raises has left the instance
    as it was, and one that returns has created at least one inner graph,
    each of a single triple, and attached them all. *)
Lemma triplesForOneViolation_outcome (violation : Graph) (self : Validate) :
  match triplesForOneViolation' violation self with
  | (self', Raise _) => self' = self
  | (self', Ok violation') =>
      exists gs,
        gs <> [] /\
        Forall (fun g => exists t, g = mkGraph [t] []) gs /\
        self' = resolved self gs /\
        violation' = attach_all' (bnodes self) (length (store self))
                                 (length gs) violation
  end.
Proof.
  unfold triplesForOneViolation.
  pure_step resultPath. rewrite bind_unfold. cbn [get].
  destruct (truthy (store self) resultPath).
  - pure_step focusNode. pure_step valueNode.
    rewrite bind_unfold.
    destruct (Graph_with_outcome (focusNode, resultPath, valueNode) self)
      as [[msg ->]| ->]; [reflexivity|].
    unfold BNode_fresh.
    repeat (rewrite bind_unfold; cbn [get modify ret]).
    exists [mkGraph [(focusNode, resultPath, valueNode)] []].
    split; [discriminate|]. split; [|split].
    + constructor; [eexists; reflexivity|constructor].
    + rewrite <- resolved_cons, resolved_nil. reflexivity.
    + reflexivity.
  - pure_step sourceShape. pure_step parts. pure_step bsh_shapeName.
    destruct bsh_shapeName as [bsh shapeName]. cbn [snd].
    destruct (Str.endswith shapeName "DomainShape").
    + rewrite bind_unfold. cbn [get].
      pure_step brick. pure_step focusNode. pure_step parts'.
      pure_step ns_name. destruct ns_name as [ns name].
      pure_step u.
      rewrite bind_unfold.
      match goal with
      | |- context [queryDataGraph ?s ?p ?o self] =>
          pose proof (queryDataGraph_returns s p o self) as Hq;
          pose proof (keeps_queryDataGraph (fun x => x) s p o self) as Hk;
          destruct (queryDataGraph s p o self) as [s1 [res|e]]
      end.
      * destruct (Hq _ _ eq_refl) as [-> Hne].
        rewrite attach_rows_spec.
        eexists. split; [|split; [|split; [reflexivity|]]].
        -- destruct res; [congruence|discriminate].
        -- apply Forall_forall. intros g Hg. apply in_map_iff in Hg.
           destruct Hg as (row & <- & _). eexists. reflexivity.
        -- now rewrite length_map.
      * exact Hk.
    + rewrite bind_unfold. reflexivity.
Qed.

(** ** The attachment pass on any results graph *)

Lemma dict_get_None_iff (d : NamespaceDict) (k : string) :
  dict_get d k = None <-> ~ In k (map fst d).
Proof.
  induction d as [|[k' v'] d IH]; simpl; [tauto|].
  destruct (String.eqb_spec k k') as [->|Hne].
  - split; [discriminate|]. intros H. exfalso. apply H. now left.
  - rewrite IH. split.
    + intros H [Heq|Hin]; [congruence|contradiction].
    + intros H Hin. apply H. now right.
Qed.

Lemma dict_set_absent (d : NamespaceDict) (k v : string) :
  dict_get d k = None -> dict_set d k v = (d ++ [(k, v)])%list.
Proof.
  induction d as [|[k' v'] d IH]; simpl; [reflexivity|].
  destruct (String.eqb k k'); [discriminate|]. intros H. now rewrite IH.
Qed.

Lemma buildNamespaceDict_NoDup (g : Graph) (self : Validate) :
  NoDup (map fst (namespaceDict self)) ->
  NoDup (map fst (namespaceDict (fst (buildNamespaceDict g self)))).
Proof.
  unfold buildNamespaceDict. generalize (namespaces g) as l.
  intros l; revert self. induction l as [|[prefix path] l IH];
    intros self Hnd; [exact Hnd|].
  rewrite for_each_cons.
  pose proof (buildNamespaceDict_step_cases prefix path self) as H.
  destruct (dict_get (namespaceDict self) prefix) as [old|] eqn:E.
  - destruct (String.eqb path old).
    + rewrite H. now apply IH.
    + destruct H as [msg ->]. exact Hnd.
  - rewrite H. apply IH. simpl. rewrite dict_set_absent by exact E.
    rewrite map_app. simpl. apply NoDup_app; auto.
    + constructor; [intros []|constructor].
    + intros x Hx [<-|[]]. now apply dict_get_None_iff in E.
Qed.

Lemma bind_all_namespaces (l : NamespaceDict) (g : Graph) :
  NoDup (map fst (namespaces g ++ l)) ->
  namespaces (fold_left (fun acc b => graph_bind (fst b) (snd b) acc) l g) =
  (namespaces g ++ l)%list.
Proof.
  revert g. induction l as [|[k v] l IH]; intros g Hnd; simpl.
  - now rewrite app_nil_r.
  - assert (Hk : dict_get (namespaces g) k = None).
    { apply dict_get_None_iff. rewrite map_app in Hnd. simpl in Hnd.
      apply NoDup_remove_2 in Hnd. intros Hin. apply Hnd.
      apply in_or_app. now left. }
    rewrite IH; simpl; rewrite dict_set_absent by exact Hk.
    + now rewrite <- app_assoc.
    + now rewrite <- app_assoc.
Qed.

Lemma graph_add_namespaces (t : triple) (g : Graph) :
  namespaces (graph_add t g) = namespaces g.
Proof. unfold graph_add. now destruct (graph_mem t g). Qed.

Lemma graph_add_all_namespaces (ts : list triple) (g : Graph) :
  namespaces (fold_left (fun acc x => graph_add x acc) ts g) = namespaces g.
Proof.
  revert g. induction ts as [|t ts IH]; intros g; simpl; [reflexivity|].
  now rewrite IH, graph_add_namespaces.
Qed.

Lemma attach_all_namespaces (n b h : nat) (violation : Graph) :
  namespaces (attach_all' b h n violation) = namespaces violation.
Proof.
  revert b h violation. induction n as [|n IH]; intros b h violation; simpl;
    [reflexivity|].
  now rewrite IH, graph_add_namespaces.
Qed.

Lemma vdict_set_In (d : ViolationDict) (k k0 : node) (g g0 : Graph) :
  In (k0, g0) (vdict_set d k g) -> In (k0, g0) d \/ (k0, g0) = (k, g).
Proof.
  induction d as [|[k' g'] d IH]; simpl.
  - intros [H|[]]. right. now symmetry.
  - destruct (node_eqb k k'); simpl.
    + intros [H|H]; [right; now symmetry|left; now right].
    + intros [H|H]; [left; now left|].
      destruct (IH H) as [H'|H']; [left; now right|now right].
Qed.

(** Round 1 creates every graph with the bindings of the registry. *)
Lemma round1_graphs (nsd : NamespaceDict) (ts : list triple)
      (d : ViolationDict) (k : node) (g : Graph) :
  In (k, g) (fold_left (round1_step SH_ns nsd) ts d) ->
  In (k, g) d \/
  g = fold_left (fun g n => graph_bind (fst n) (snd n) g) nsd Graph_new.
Proof.
  revert d. induction ts as [|[[s p] o] ts IH]; intros d; [now left|].
  cbn [fold_left]. intros H. apply IH in H. destruct H as [H|H]; [|now right].
  unfold round1_step in H.
  destruct (negb (vdict_mem d o) && node_eqb p (SH SH_ns "result"));
    [|now left].
  apply vdict_set_In in H. destruct H as [H|H]; [now left|].
  right. now injection H.
Qed.

(** The dictionary that the two rounds build, entry by entry. *)
Lemma grouped_entries (nsd : NamespaceDict) (rg : Graph) :
  NoDup (map fst nsd) ->
  let d0 := round2 rg (round1 SH_ns nsd rg []) in
  NoDup (map fst d0) /\
  (forall k, In k (map fst d0) <-> In k (result_objects' (triples rg))) /\
  (forall k g0, vdict_get d0 k = Some g0 ->
                namespaces g0 = nsd /\
                forall t, In t (triples g0) <->
                          In t (triples rg) /\ subject t = k).
Proof.
  intros Hns d0. subst d0. unfold round2, round1.
  destruct (round1_spec nsd (triples rg) [] (NoDup_nil _))
    as (Hnd & Hkeys & Hempty).
  pose proof (round1_graphs nsd (triples rg) []) as Hgraphs.
  set (d1 := fold_left (round1_step SH_ns nsd) (triples rg) []) in *.
  destruct (round2_spec (triples rg) d1) as [Hk2 Hget].
  set (d2 := fold_left round2_step (triples rg) d1) in *.
  split; [now rewrite Hk2|]. split.
  - intros k. rewrite Hk2, Hkeys. simpl. split; [intros [[]|H]; exact H|now right].
  - intros k g0 Hg0. rewrite Hget in Hg0.
    destruct (vdict_get d1 k) as [g1|] eqn:Hg1; [|discriminate].
    injection Hg0 as <-. apply vdict_get_In in Hg1.
    destruct (Hgraphs _ _ Hg1) as [[]|Hb].
    destruct (Hempty _ _ Hg1) as [[]|He].
    split.
    + rewrite graph_add_all_namespaces, Hb.
      now rewrite bind_all_namespaces.
    + intros t. rewrite graph_add_all_In, He, own_triples_In. simpl.
      split; [intros [[]|H]; exact H|now right].
Qed.

(** One turn of the loop of lines 143-144. *)
Lemma resolve_entry_outcome (k : node) (self : Validate) (d : ViolationDict) :
  violationDict self = Some d ->
  match resolve_entry BSH_ns serialize k self with
  | (self', Raise _) => self' = self
  | (self', Ok _) =>
      match vdict_get d k with
      | None => self' = self
      | Some violation =>
          exists gs,
            gs <> [] /\
            Forall (fun g => exists t, g = mkGraph [t] []) gs /\
            self' = set_violationDict
                      (vdict_set d k
                         (attach_all' (bnodes self) (length (store self))
                                      (length gs) violation))
                      (resolved self gs)
      end
  end.
Proof.
  intros Hd. unfold resolve_entry. rewrite bind_unfold. unfold attr.
  rewrite Hd. destruct (vdict_get d k) as [violation|]; [|reflexivity].
  rewrite bind_unfold.
  pose proof (triplesForOneViolation_outcome violation self) as H.
  destruct (triplesForOneViolation' violation self) as [s1 [v'|e]];
    [|exact H].
  destruct H as (gs & Hne & Hall & -> & ->). cbn [modify].
  exists gs. now repeat split.
Qed.

Lemma store_set_violationDict (d : ViolationDict) (self : Validate) :
  store (set_violationDict d self) = store self.
Proof. reflexivity. Qed.

(** The loop of lines 143-144 over distinct keys, when it completes: every
    entry of a key of the loop has got at least one attachment, each with an
    inner graph that the store holds from then on; the other entries are as
    they were. *)
Lemma resolve_all_outcome (ks : list node) :
  forall (self self' : Validate) (d : ViolationDict),
    NoDup ks ->
    violationDict self = Some d ->
    for_each ks (resolve_entry BSH_ns serialize) self = (self', Ok tt) ->
    exists d' gs,
      violationDict self' = Some d' /\
      map fst d' = map fst d /\
      store self' = (store self ++ gs)%list /\
      Forall (fun g => exists t, g = mkGraph [t] []) gs /\
      forall k g0,
        vdict_get d k = Some g0 ->
        (In k ks ->
         exists b h n,
           1 <= n /\
           vdict_get d' k = Some (attach_all' b h n g0) /\
           length (store self) <= h /\ h + n <= length (store self')) /\
        (~ In k ks -> vdict_get d' k = Some g0).
Proof.
  induction ks as [|k0 ks IH]; intros self self' d Hnd Hd Hrun.
  - simpl in Hrun. injection Hrun as <-. exists d, [].
    rewrite app_nil_r. repeat split; auto. intros [].
  - rewrite for_each_cons in Hrun.
    pose proof (resolve_entry_outcome k0 self d Hd) as Hstep.
    inversion Hnd as [|? ? Hk0 Hnd']; subst.
    destruct (resolve_entry BSH_ns serialize k0 self) as [s1 [u|e]];
      [|discriminate].
    destruct (vdict_get d k0) as [v0|] eqn:Ev0.
    + destruct Hstep as (gs1 & Hne & Hall1 & ->).
      set (v1 := attach_all' (bnodes self) (length (store self)) (length gs1) v0)
        in *.
      set (d1 := vdict_set d k0 v1) in *.
      destruct (IH (set_violationDict d1 (resolved self gs1)) self' d1 Hnd'
                   eq_refl Hrun)
        as (d' & gs2 & Hd' & Hkeys & Hstore & Hall2 & Hent).
      rewrite store_set_violationDict, store_resolved in Hstore.
      exists d', (gs1 ++ gs2)%list.
      split; [exact Hd'|]. split; [|split; [|split]].
      * rewrite Hkeys. apply vdict_set_keys. unfold vdict_mem. now rewrite Ev0.
      * now rewrite Hstore, app_assoc.
      * apply Forall_app. now split.
      * intros k g0 Hg0.
        assert (Hlen1 : 1 <= length gs1)
          by (destruct gs1; [congruence|simpl; lia]).
        unfold node_eqb in *.
        destruct (node_eq_dec k k0) as [->|Hne0].
        -- rewrite Ev0 in Hg0. injection Hg0 as <-.
           assert (Hg1 : vdict_get d1 k0 = Some v1).
           { unfold d1. rewrite vdict_get_set. unfold node_eqb.
             now destruct (node_eq_dec k0 k0). }
           destruct (Hent _ _ Hg1) as [_ Hout]. split.
           ++ intros _. exists (bnodes self), (length (store self)), (length gs1).
              split; [exact Hlen1|]. split; [now apply Hout|].
              split; [lia|]. rewrite Hstore, !List.length_app. lia.
           ++ intros Hnot. exfalso. apply Hnot. now left.
        -- assert (Hg1 : vdict_get d1 k = Some g0).
           { unfold d1. rewrite vdict_get_set. unfold node_eqb.
             now destruct (node_eq_dec k k0). }
           destruct (Hent _ _ Hg1) as [Hin Hout]. split.
           ++ intros [Heq|Hk]; [congruence|].
              destruct (Hin Hk) as (b & h & n & Hn & Hget & Hlo & Hhi).
              exists b, h, n. repeat split; auto.
              rewrite store_set_violationDict, store_resolved,
                List.length_app in Hlo. lia.
           ++ intros Hnot. apply Hout. intros Hk. apply Hnot. now right.
    + subst s1.
      destruct (IH _ _ d Hnd' Hd Hrun)
        as (d' & gs2 & Hd' & Hkeys & Hstore & Hall2 & Hent).
      exists d', gs2. repeat split; auto.
      * intros [Heq|Hk]; [congruence|]. now apply (Hent k g0 H).
      * intros Hnot. apply (Hent k g0 H). intros Hk. apply Hnot. now right.
Qed.

(** The pass of lines 114-144, when it completes. *)
Lemma attachOffendingTriples_outcome (self self' : Validate) (rg : Graph) :
  results_graph self = Some rg ->
  attachOffendingTriples' self = (self', Ok tt) ->
  let nsd := namespaceDict self' in
  let d0 := round2 rg (round1 SH_ns nsd rg []) in
  NoDup (map fst nsd) /\
  exists d' gs,
    violationDict self' = Some d' /\
    map fst d' = map fst d0 /\
    store self' = (store self ++ gs)%list /\
    Forall (fun g => exists t, g = mkGraph [t] []) gs /\
    forall k g0,
      vdict_get d0 k = Some g0 ->
      exists b h n,
        1 <= n /\
        vdict_get d' k = Some (attach_all' b h n g0) /\
        length (store self) <= h /\ h + n <= length (store self').
Proof.
  intros Hrg E. cbv zeta.
  unfold attachOffendingTriples in E.
  rewrite bind_unfold in E. simpl in E. rewrite bind_unfold in E. simpl in E.
  rewrite bind_unfold in E. unfold attr at 1 in E. simpl in E.
  rewrite Hrg in E. rewrite bind_unfold in E.
  match type of E with
  | context [buildNamespaceDict rg ?s] => set (s0 := s) in *
  end.
  pose proof (buildNamespaceDict_NoDup rg s0 (NoDup_nil _)) as Hn1.
  pose proof (keeps_buildNamespaceDict store rg (fun d s => eq_refl) s0) as Hs1.
  destruct (buildNamespaceDict rg s0) as [s1 [u1|e1]]; [|discriminate].
  cbn [fst] in Hn1, Hs1.
  rewrite bind_unfold in E. unfold attr at 1 in E.
  destruct (data_graph s1) as [dg|]; [|discriminate].
  rewrite bind_unfold in E.
  pose proof (buildNamespaceDict_NoDup dg s1 Hn1) as Hn2.
  pose proof (keeps_buildNamespaceDict store dg (fun d s => eq_refl) s1) as Hs2.
  destruct (buildNamespaceDict dg s1) as [s2 [u2|e2]]; [|discriminate].
  cbn [fst] in Hn2, Hs2.
  rewrite bind_unfold in E. cbn [get] in E.
  rewrite bind_unfold in E. cbn [modify] in E.
  rewrite bind_unfold in E. unfold attr at 1 in E.
  cbn [violationDict set_violationDict] in E.
  set (d0 := round2 rg (round1 SH_ns (namespaceDict s2) rg [])) in *.
  destruct (grouped_entries (namespaceDict s2) rg Hn2) as (Hnd0 & _ & _).
  fold d0 in Hnd0.
  pose proof (keeps_for_each namespaceDict (map fst d0)
                (resolve_entry BSH_ns serialize)
                (fun k => keeps_resolve_entry namespaceDict k
                            stable_namespaceDict (fun d s => eq_refl))
                (set_violationDict d0 s2)) as Hreg.
  rewrite E in Hreg. cbn [fst] in Hreg.
  change (namespaceDict (set_violationDict d0 s2)) with (namespaceDict s2)
    in Hreg.
  rewrite Hreg. fold d0. split; [exact Hn2|].
  destruct (resolve_all_outcome (map fst d0) (set_violationDict d0 s2) self' d0
              Hnd0 eq_refl E)
    as (d' & gs & Hd' & Hkeys & Hstore & Hall & Hent).
  exists d', gs. split; [exact Hd'|]. split; [exact Hkeys|].
  assert (Hst : store (set_violationDict d0 s2) = store self).
  { rewrite store_set_violationDict, Hs2, Hs1. reflexivity. }
  rewrite Hst in *. split; [exact Hstore|]. split; [exact Hall|].
  intros k g0 Hg0. destruct (Hent k g0 Hg0) as [Hin _]. apply Hin.
  apply vdict_get_In in Hg0. apply in_map_iff. now exists (k, g0).
Qed.

(** X8. Whatever the violation graph, a resolution has one of two outcomes.
    If it raises, the instance is as it was. If it returns, it has created
    at least one inner graph, each holding a single triple, and as many blank
    nodes, and the violation graph has gained exactly the attachments of
    these inner graphs: the resolver never returns without an attachment. *)
Theorem X8_resolver_attaches_or_raises :
  forall (violation : Graph) (self : Validate),
    match triplesForOneViolation' violation self with
    | (self', Raise _) => self' = self
    | (self', Ok violation') =>
        exists gs,
          gs <> [] /\
          self' = resolved self gs /\
          (forall g, In g gs -> exists t, g = mkGraph [t] []) /\
          forall t, In t (triples violation') <->
                    In t (triples violation) \/
                    exists i, i < length gs /\
                              t = attachment BSH_ns (bnodes self)
                                             (length (store self)) i
    end.
Proof.
  intros violation self.
  pose proof (triplesForOneViolation_outcome violation self) as H.
  destruct (triplesForOneViolation' violation self) as [self' [v'|e]];
    [|exact H].
  destruct H as (gs & Hne & Hall & Hs & ->).
  exists gs. split; [exact Hne|]. split; [exact Hs|]. split.
  - now apply Forall_forall.
  - intros t. apply attach_all_In.
Qed.

(** X9. A violation without a result path whose source shape is a term
    without ['#'], a blank node for one, cannot be resolved: the unpacking
    of line 213 raises and the instance is as it was. *)
Theorem X9_source_shape_without_hash_raises :
  forall (self : Validate) (violation : Graph) (s : string),
    dict_get (namespaceDict self) "sh" = Some SH_ns ->
    objects_of (SH SH_ns "resultPath") violation = [] ->
    objects_of (SH SH_ns "sourceShape") violation = [URIRef s] \/
    objects_of (SH SH_ns "sourceShape") violation = [BNode s] ->
    Str.mem "#" s = false ->
    triplesForOneViolation' violation self =
    (self, Raise (ValueError "unpack")).
Proof.
  intros self violation s Hsh Hrp Hss Hs.
  unfold triplesForOneViolation.
  rewrite bind_unfold.
  rewrite (violationPredicateObj_sh violation "sh:resultPath" "resultPath"
             false self eq_refl eq_refl Hsh).
  rewrite Hrp. cbn [andb hd]. rewrite bind_unfold. cbn [get truthy].
  rewrite bind_unfold.
  rewrite (violationPredicateObj_sh violation "sh:sourceShape" "sourceShape"
             true self eq_refl eq_refl Hsh).
  destruct Hss as [-> | ->]; cbn [andb hd length Nat.eqb negb];
    rewrite bind_unfold; cbn [py_split ret];
    rewrite (split_no_sep "#" s Hs); rewrite bind_unfold; reflexivity.
Qed.

(** X10. Resolution of a domain-shape violation needs the registry. If no
    graph of the pass binds the prefix [brick], the lookup of line 220
    raises [KeyError]. If the registry binds [brick] but no prefix to the
    namespace of the focus node, the assertion of line 228 raises. Either
    way the instance is as it was and nothing is attached. *)
Theorem X10_domain_shape_needs_the_registry :
  forall (self : Validate) (violation : Graph) (shns P : string),
    dict_get (namespaceDict self) "sh" = Some SH_ns ->
    objects_of (SH SH_ns "resultPath") violation = [] ->
    objects_of (SH SH_ns "sourceShape") violation =
      [URIRef (shns ++ "#" ++ P ++ "DomainShape")] ->
    Str.mem "#" shns = false ->
    Str.mem "#" P = false ->
    (dict_get (namespaceDict self) "brick" = None ->
     triplesForOneViolation' violation self = (self, Raise (KeyError "brick"))) /\
    (forall (brick ns name : string),
        dict_get (namespaceDict self) "brick" = Some brick ->
        objects_of (SH SH_ns "focusNode") violation
        = [URIRef (ns ++ "#" ++ name)] ->
        Str.mem "#" ns = false ->
        Str.mem "#" name = false ->
        (forall k v, In (k, v) (namespaceDict self) -> v <> ns ++ "#") ->
        triplesForOneViolation' violation self =
        (self,
         Raise (AssertionError
                  ("Must find a prefix for " ++ ns ++ "#" ++ name)))).
Proof.
  intros self violation shns P Hsh Hrp Hss Hsh1 HP.
  assert (Hstart :
            triplesForOneViolation' violation self =
            (brick <- dict_item (namespaceDict self) "brick" ;;
             focusNode <- violationPredicateObj violation "sh:focusNode" true ;;
             parts <- py_split focusNode ;;
             ns_name <- unpack2 parts ;;
             let '(ns, name) := ns_name in
             let namespaces :=
               map fst (filter (fun kv => String.eqb (ns ++ "#") (snd kv))
                               (namespaceDict self)) in
             py_assert (negb (Nat.eqb (length namespaces) 0))
                       ("Must find a prefix for " ++ ns ++ "#" ++ name) ;;
             res <- queryDataGraph (Some (hd "" namespaces ++ ":" ++ name))
                                   (Some ("brick:" ++ P)) None ;;
             attach_rows BSH_ns focusNode (brick ++ P) res violation) self).
  { unfold triplesForOneViolation.
    rewrite bind_unfold.
    rewrite (violationPredicateObj_sh violation "sh:resultPath" "resultPath"
               false self eq_refl eq_refl Hsh).
    rewrite Hrp. cbn [andb hd]. rewrite bind_unfold. cbn [get truthy].
    rewrite bind_unfold.
    rewrite (violationPredicateObj_sh violation "sh:sourceShape" "sourceShape"
               true self eq_refl eq_refl Hsh).
    rewrite Hss. cbn [andb hd length Nat.eqb negb].
    rewrite bind_unfold. cbn [py_split ret].
    change (shns ++ "#" ++ P ++ "DomainShape")
      with (shns ++ String "#" (P ++ "DomainShape")).
    rewrite split_join; [|exact Hsh1|now rewrite mem_app, HP].
    rewrite bind_unfold. cbn [unpack2 ret snd].
    rewrite endswith_app, drop_last_app.
    rewrite bind_unfold. cbn [get]. reflexivity. }
  rewrite Hstart. clear Hstart. split.
  - intros Hnone. rewrite bind_unfold. unfold dict_item. now rewrite Hnone.
  - intros brick ns name Hbrick Hfn Hns Hname Hnone.
    rewrite bind_unfold. unfold dict_item at 1. rewrite Hbrick. cbn [ret].
    rewrite bind_unfold.
    rewrite (violationPredicateObj_sh violation "sh:focusNode" "focusNode"
               true self eq_refl eq_refl Hsh).
    rewrite Hfn. cbn [andb hd length Nat.eqb negb].
    rewrite bind_unfold. cbn [py_split ret].
    change (ns ++ "#" ++ name) with (ns ++ String "#" name).
    rewrite split_join by assumption.
    rewrite bind_unfold. cbn [unpack2 ret]. cbv zeta.
    assert (Hf : filter (fun kv : string * string =>
                           String.eqb (ns ++ "#") (snd kv))
                        (namespaceDict self) = []).
    { clear - Hnone. induction (namespaceDict self) as [|[k v] d IH];
        [reflexivity|]. simpl.
      destruct (String.eqb_spec (ns ++ "#") v) as [Heq|_].
      - exfalso. apply (Hnone k v); [now left|now symmetry].
      - apply IH. intros k' v' Hin. apply (Hnone k' v'). now right. }
    rewrite Hf. reflexivity.
Qed.

(** ** [validate] on data that does not conform *)

Lemma vdict_get_key (d : ViolationDict) (k : node) :
  In k (map fst d) -> exists g, vdict_get d k = Some g.
Proof.
  intros H. apply vdict_mem_In in H. unfold vdict_mem in H.
  destruct (vdict_get d k) as [g|]; [now exists g|discriminate].
Qed.

Lemma nth_error_tail {A} (P : A -> Prop) (l gs : list A) (j : nat) :
  Forall P gs ->
  length l <= j -> j < length (l ++ gs) ->
  exists x, nth_error (l ++ gs) j = Some x /\ P x.
Proof.
  intros Hall Hlo Hhi. rewrite List.length_app in Hhi.
  rewrite nth_error_app2 by exact Hlo.
  destruct (nth_error gs (j - length l)) as [x|] eqn:E.
  - exists x. split; [reflexivity|].
    apply nth_error_In in E. rewrite Forall_forall in Hall. now apply Hall.
  - apply nth_error_None in E. lia.
Qed.

(** The instance and the result of a call of [validate] that runs the pass
    and returns. *)
Lemma validate_violations (self : Validate) (data : Graph)
      (sg og : option Graph) (opts : EngineOpts) (rg : Graph) (text : string)
      (r : bool * Graph * string) :
  pyshacl_validate data (graph_or sg (shapeG self)) (graph_or og (brickG self))
                   opts = Ok (false, rg, text) ->
  attachOffender self = true ->
  snd (validate' data sg og opts self) = Ok r ->
  let self' := fst (validate' data sg og opts self) in
  exists d,
    violationDict self' = Some d /\
    r = (false, fold_left (fun acc kv => graph_union acc (snd kv)) d Graph_new,
         text) /\
    NoDup (map fst d) /\
    (forall k, In k (map fst d) <-> In k (result_objects' (triples rg))) /\
    forall k g,
      In (k, g) d ->
      namespaces g = namespaceDict self' /\
      exists b h n,
        1 <= n /\
        (forall t, In t (triples g) <->
                   (In t (triples rg) /\ subject t = k) \/
                   exists i, i < n /\ t = attachment BSH_ns b h i) /\
        (forall i, i < n ->
                   exists x, nth_error (store self') (h + i)
                             = Some (mkGraph [x] [])).
Proof.
  intros Heng Hatt. rewrite (validate_unfold _ _ _ _ _ _ _ _ Heng), Hatt.
  cbn [orb negb].
  pose proof (attachOffendingTriples_outcome
                (engine_answered data (false, rg, text) self)) as Hpass.
  destruct (attachOffendingTriples' _) as [self2 [[]|e]]; [|discriminate].
  destruct (Hpass self2 rg eq_refl eq_refl)
    as (Hns & d & gs & Hd & Hkeys & Hstore & Hall & Hent).
  clear Hpass. rewrite Hd. cbn [fst snd]. intros Hr. injection Hr as <-.
  destruct (grouped_entries (namespaceDict self2) rg Hns)
    as (Hnd0 & Hk0 & Hg0).
  set (d0 := round2 rg (round1 SH_ns (namespaceDict self2) rg [])) in *.
  assert (Hnd : NoDup (map fst d)) by now rewrite Hkeys.
  exists d. split; [exact Hd|]. split; [reflexivity|].
  split; [exact Hnd|]. split; [intros k; now rewrite Hkeys|].
  intros k g Hin.
  assert (Hk : In k (map fst d0)).
  { rewrite <- Hkeys. apply in_map_iff. now exists (k, g). }
  destruct (vdict_get_key _ _ Hk) as [g0 Hget0].
  destruct (Hent _ _ Hget0) as (b & h & n & Hn & Hget & Hlo & Hhi).
  rewrite (vdict_In_get _ _ _ Hnd Hin) in Hget. injection Hget as ->.
  destruct (Hg0 _ _ Hget0) as [Hbind Htr].
  split; [now rewrite attach_all_namespaces|].
  exists b, h, n. split; [exact Hn|]. split.
  - intros t. rewrite attach_all_In, Htr. reflexivity.
  - intros i Hi. rewrite Hstore.
    destruct (nth_error_tail (fun g => exists t, g = mkGraph [t] [])
                (store (engine_answered data (false, rg, text) self)) gs (h + i)
                Hall) as (x & Hx & t & ->).
    + lia.
    + rewrite <- Hstore. lia.
    + now exists t.
Qed.

(** X11. After a call of [validate] that finds the data not conforming, with
    attachment enabled, and returns, the violation list has one graph per
    distinct object of an [sh:result] triple of the results graph. The graph
    of the violation [k] holds exactly the triples of the results graph with
    the subject [k] and at least one attachment, and every attachment refers
    to an inner graph of the store that holds a single triple. *)
Theorem X11_violation_list_after_validate :
  forall (self : Validate) (data : Graph) (sg og : option Graph)
         (opts : EngineOpts) (rg : Graph) (text : string)
         (r : bool * Graph * string),
    pyshacl_validate data (graph_or sg (shapeG self))
                     (graph_or og (brickG self)) opts = Ok (false, rg, text) ->
    attachOffender self = true ->
    snd (validate' data sg og opts self) = Ok r ->
    let self' := fst (validate' data sg og opts self) in
    exists d,
      violationDict self' = Some d /\
      snd (violationList self') = Ok (map snd d) /\
      length (map snd d) =
        length (nodup node_eq_dec (result_objects' (triples rg))) /\
      (forall k, In k (map fst d) <->
                 exists s, In (s, SH SH_ns "result", k) (triples rg)) /\
      forall k g,
        In (k, g) d ->
        exists b h n,
          1 <= n /\
          (forall t, In t (triples g) <->
                     (In t (triples rg) /\ subject t = k) \/
                     exists i, i < n /\ t = attachment BSH_ns b h i) /\
          (forall i, i < n ->
                     exists x, nth_error (store self') (h + i)
                               = Some (mkGraph [x] [])).
Proof.
  intros self data sg og opts rg text r Heng Hatt Hret self'.
  destruct (validate_violations self data sg og opts rg text r Heng Hatt Hret)
    as (d & Hd & _ & Hnd & Hkeys & Hent).
  fold self' in Hd, Hent.
  exists d. split; [exact Hd|]. split; [|split; [|split]].
  - unfold violationList. rewrite bind_unfold. unfold attr. now rewrite Hd.
  - rewrite length_map, <- (length_map fst d). apply Nat.le_antisymm.
    + apply NoDup_incl_length; [exact Hnd|].
      intros k Hk. apply nodup_In. now apply Hkeys.
    + apply NoDup_incl_length; [apply NoDup_nodup|].
      intros k Hk. apply nodup_In in Hk. now apply Hkeys.
  - intros k. rewrite Hkeys. apply result_objects_In.
  - intros k g Hin. now destruct (Hent k g Hin) as [_ H].
Qed.

(** X12. The graph that [validate] returns, when it finds the data not
    conforming, with attachment enabled, and the pass completes, holds every
    triple of the results graph whose subject is a violation, that is an
    object of an [sh:result] triple, and besides these nothing but
    attachments, each referring to an inner graph of a single triple. The
    triples of the results graph about other subjects, the report node among
    them, are not returned. The flag and the text are those of the engine. *)
Theorem X12_returned_graph_is_violations_and_attachments :
  forall (self : Validate) (data : Graph) (sg og : option Graph)
         (opts : EngineOpts) (rg : Graph) (text : string)
         (c : bool) (G : Graph) (text' : string),
    pyshacl_validate data (graph_or sg (shapeG self))
                     (graph_or og (brickG self)) opts = Ok (false, rg, text) ->
    attachOffender self = true ->
    snd (validate' data sg og opts self) = Ok (c, G, text') ->
    let self' := fst (validate' data sg og opts self) in
    c = false /\ text' = text /\
    (forall t, In t (triples rg) ->
               (exists s, In (s, SH SH_ns "result", subject t) (triples rg)) ->
               In t (triples G)) /\
    (forall t, In t (triples G) ->
               (In t (triples rg) /\
                exists s, In (s, SH SH_ns "result", subject t) (triples rg)) \/
               exists b i x,
                 t = (GenBNode b, BSH BSH_ns "offendingTriple", GraphRef i) /\
                 nth_error (store self') i = Some (mkGraph [x] [])).
Proof.
  intros self data sg og opts rg text c G text' Heng Hatt Hret self'.
  destruct (validate_violations self data sg og opts rg text _ Heng Hatt Hret)
    as (d & Hd & Hr & Hnd & Hkeys & Hent).
  fold self' in Hd, Hent. injection Hr as -> -> ->.
  split; [reflexivity|]. split; [reflexivity|]. split.
  - intros t Hin Hs. apply result_objects_In, Hkeys, in_map_iff in Hs.
    destruct Hs as ([k g] & Hk & Hg). simpl in Hk. subst k.
    apply graph_union_all_In. right. exists (subject t), g.
    split; [exact Hg|].
    destruct (Hent _ _ Hg) as (_ & b & h & n & _ & Htr & _).
    apply Htr. left. now split.
  - intros t Hin. apply graph_union_all_In in Hin.
    destruct Hin as [[]|(k & g & Hg & Ht)].
    destruct (Hent _ _ Hg) as (_ & b & h & n & _ & Htr & Hst).
    apply Htr in Ht. destruct Ht as [[Ht Hk]|(i & Hi & ->)].
    + left. split; [exact Ht|]. apply result_objects_In, Hkeys. rewrite Hk.
      apply in_map_iff. now exists (k, g).
    + right. destruct (Hst i Hi) as [x Hx].
      exists (b + i), (h + i), x. now split.
Qed.

(** ** Shape files *)

(** The reader of rdflib. *)
Variable parse : string -> result Graph.

Local Abbreviation addShapeFile' := (addShapeFile parse).

Lemma graph_union_NoDup (g1 g2 : Graph) : NoDup (triples (graph_union g1 g2)).
Proof.
  unfold graph_union. apply graph_add_all_NoDup.
  rewrite graph_bind_all_triples. constructor.
Qed.

Lemma graph_add_all_length (ts : list triple) (g : Graph) :
  graph_len (fold_left (fun acc x => graph_add x acc) ts g)
  <= graph_len g + length ts.
Proof.
  revert g. induction ts as [|t ts IH]; intros g; simpl; [lia|].
  etransitivity; [apply IH|]. unfold graph_add, graph_len.
  destruct (graph_mem t g); simpl; [lia|]. rewrite List.length_app. simpl. lia.
Qed.

Lemma graph_union_length (g1 g2 : Graph) :
  graph_len (graph_union g1 g2) <= graph_len g1 + graph_len g2.
Proof.
  unfold graph_union. etransitivity; [apply graph_add_all_length|].
  unfold graph_len at 1. rewrite graph_bind_all_triples, List.length_app.
  simpl. reflexivity.
Qed.

Lemma addShapeFile_unfold (shapeFile : string) (self : Validate) :
  addShapeFile' shapeFile self =
  let self1 := fst (log_record "INFO" ("load shape file " ++ shapeFile) self) in
  match parse shapeFile with
  | Ok g =>
      (set_shapeG (graph_union (shapeG self) g) self1,
       Ok [decimal (graph_len (shapeG self)) ++ " " ++ decimal (graph_len g)
           ++ nl;
           decimal (graph_len (graph_union (shapeG self) g)) ++ nl])
  | Raise e => (self1, Raise e)
  end.
Proof.
  unfold addShapeFile. rewrite bind_unfold. cbn [log_record modify].
  rewrite bind_unfold. unfold lift at 1.
  destruct (parse shapeFile) as [g|e]; reflexivity.
Qed.

(** X13. [addShapeFile] with a file that the reader accepts replaces the
    default shapes graph by its union with the graph of the file: a triple
    is a default shape afterwards exactly if it was one before or is in the
    file, without duplicates; the two lines printed show the sizes before
    and the size after, which is at most their sum; ontology, registry and
    violation dictionary are untouched. With a file that the reader refuses,
    the exception of the reader leaves the method and the default shapes
    are as before. *)
Theorem X13_addShapeFile_extends_the_default_shapes :
  forall (shapeFile : string) (self : Validate),
    let self' := fst (addShapeFile' shapeFile self) in
    (forall g,
        parse shapeFile = Ok g ->
        snd (addShapeFile' shapeFile self) =
          Ok [decimal (graph_len (shapeG self)) ++ " " ++
              decimal (graph_len g) ++ nl;
              decimal (graph_len (shapeG self')) ++ nl] /\
        (forall t, In t (triples (shapeG self')) <->
                   In t (triples (shapeG self)) \/ In t (triples g)) /\
        NoDup (triples (shapeG self')) /\
        graph_len (shapeG self') <= graph_len (shapeG self) + graph_len g /\
        brickG self' = brickG self /\
        namespaceDict self' = namespaceDict self /\
        violationDict self' = violationDict self) /\
    (forall e,
        parse shapeFile = Raise e ->
        snd (addShapeFile' shapeFile self) = Raise e /\
        shapeG self' = shapeG self).
Proof.
  intros shapeFile self self'. subst self'.
  rewrite addShapeFile_unfold. cbv zeta. split.
  - intros g ->. cbn [fst snd shapeG set_shapeG].
    split; [reflexivity|]. split; [intros t; apply graph_union_In|].
    split; [apply graph_union_NoDup|]. split; [apply graph_union_length|].
    now repeat split.
  - intros e ->. now split.
Qed.

(** X14. Shapes added with [addShapeFile] stay the default over any
    sequence of [validate] calls, each of which may return or raise: the
    default shapes graph is still the union, and a call that names no shapes
    graph is the call with that union as the shapes graph. *)
Theorem X14_added_shapes_stay_the_default :
  forall (shapeFile : string) (g : Graph) (self : Validate)
         (calls : list Call),
    parse shapeFile = Ok g ->
    let self' := after_calls' calls (fst (addShapeFile' shapeFile self)) in
    shapeG self' = graph_union (shapeG self) g /\
    forall (data : Graph) (og : option Graph) (opts : EngineOpts),
      validate' data None og opts self' =
      validate' data (Some (graph_union (shapeG self) g)) og opts self'.
Proof.
  intros shapeFile g self calls Hparse self'.
  assert (Hs : shapeG self' = graph_union (shapeG self) g).
  { unfold self'. rewrite (after_calls_keeps shapeG);
      try reflexivity; [|apply stable_shapeG].
    rewrite addShapeFile_unfold, Hparse. reflexivity. }
  split; [exact Hs|]. intros data og opts. rewrite <- Hs. unfold validate.
  do 2 (rewrite bind_unfold; cbn [log_record modify get shapeG]).
  symmetry.
  do 2 (rewrite bind_unfold; cbn [log_record modify get shapeG]).
  now rewrite graph_or_same.
Qed.

(** ** The renderer on a list of violations *)

Local Abbreviation appendToOutput' := (appendToOutput BSH_ns serialize).
Local Abbreviation violation_lines' := (violation_lines BSH_ns serialize).

Lemma appendViolation_lines (h : list Graph) (g : Graph)
      (self : ResultsSerialize) :
  (forall a, In a (attachments' g) -> exists i, object a = GraphRef i) ->
  snd (appendViolation' h violation_title g self) = Ok tt /\
  outFile (fst (appendViolation' h violation_title g self)) =
  (outFile self ++ violation_lines' h (prefixes self) g)%list /\
  prefixes (fst (appendViolation' h violation_title g self)) = prefixes self.
Proof.
  intros Hrefs.
  destruct (appendGraph_outFile h violation_title g self) as [Hout Hpre].
  unfold appendViolation, violation_lines.
  rewrite tripleGraphs_spec.
  - fold (attachments' g). rewrite length_map.
    destruct (attachments' g) as [|a atts] eqn:Eatt.
    + cbn [length Nat.eqb fst snd map]. split; [reflexivity|].
      cbn [write outFile prefixes]. rewrite Hout, Hpre.
      split; [|reflexivity]. now rewrite <- !app_assoc.
    + cbn [length Nat.eqb fst snd]. split; [reflexivity|].
      match goal with
      | |- context [fold_left _ ?gs ?s] =>
          destruct (appendGraph_all_outFile h gs s) as [H1 H2]
      end.
      rewrite H1, H2. unfold section_label. cbn [length Nat.eqb].
      destruct (Nat.eqb (length atts) 0); cbn [write outFile prefixes];
        rewrite Hout, Hpre; (split; [|reflexivity]);
        rewrite <- !app_assoc; reflexivity.
  - intros t Hin Hp. apply Hrefs. apply filter_In. split; [exact Hin|].
    rewrite Hp. unfold node_eqb.
    now destruct (node_eq_dec (BSH BSH_ns "offendingTriple")
                              (BSH BSH_ns "offendingTriple")).
Qed.

Lemma appendViolations_lines (h : list Graph) (gs : list Graph)
      (self : ResultsSerialize) :
  (forall g a, In g gs -> In a (attachments' g) ->
               exists i, object a = GraphRef i) ->
  snd (appendViolations BSH_ns serialize h gs self) = Ok tt /\
  outFile (fst (appendViolations BSH_ns serialize h gs self)) =
  (outFile self ++ flat_map (violation_lines' h (prefixes self)) gs)%list.
Proof.
  revert self. induction gs as [|g gs IH]; intros self Hrefs.
  - simpl. now rewrite app_nil_r.
  - cbn [appendViolations flat_map].
    destruct (appendViolation_lines h g self
                (fun a => Hrefs g a (or_introl eq_refl))) as (Hok & Hout & Hpre).
    unfold violation_title in *.
    destruct (appendViolation' h _ g self) as [s1 [[]|e]]; [|discriminate].
    cbn [fst snd] in Hout, Hpre.
    destruct (IH s1 (fun g' a Hg => Hrefs g' a (or_intror Hg))) as [H1 H2].
    split; [exact H1|]. rewrite H2, Hout, Hpre. now rewrite <- app_assoc.
Qed.

Lemma appendToOutput_lines (h : list Graph) (self : ResultsSerialize) :
  (forall g a, In g (violations self) -> In a (attachments' g) ->
               exists i, object a = GraphRef i) ->
  snd (appendToOutput' h self) = Ok tt /\
  outFile (fst (appendToOutput' h self)) =
  (outFile self ++
   header (length (violations self)) ::
   flat_map (violation_lines' h (prefixes self)) (violations self))%list.
Proof.
  intros Hrefs. unfold appendToOutput.
  match goal with
  | |- context [appendViolations _ _ h ?gs ?s] =>
      destruct (appendViolations_lines h gs s Hrefs) as [H1 H2]
  end.
  split; [exact H1|]. rewrite H2. cbn [write outFile prefixes].
  now rewrite <- app_assoc.
Qed.


(** ** From [validate] to the report *)

(** The attachments of a violation graph that [validate] has built. *)
Lemma validated_attachments (rg g : Graph) (k : node) (b h n : nat)
      (st : list Graph) :
  (forall t, In t (triples rg) -> predicate t <> BSH BSH_ns "offendingTriple") ->
  1 <= n ->
  (forall t, In t (triples g) <->
             (In t (triples rg) /\ subject t = k) \/
             exists i, i < n /\ t = attachment BSH_ns b h i) ->
  (forall i, i < n -> exists x, nth_error st (h + i) = Some (mkGraph [x] [])) ->
  attachments' g <> [] /\
  forall a, In a (attachments' g) ->
            exists i x, object a = GraphRef i /\
                        nth_error st i = Some (mkGraph [x] []).
Proof.
  intros Hrg Hn Htr Hst. split.
  - assert (Hin : In (attachment BSH_ns b h 0) (attachments' g)).
    { apply filter_In. split.
      - apply Htr. right. exists 0. split; [lia|reflexivity].
      - unfold attachment, predicate, node_eqb. cbn [fst snd].
        now destruct (node_eq_dec (BSH BSH_ns "offendingTriple")
                                  (BSH BSH_ns "offendingTriple")). }
    intros Hnil. rewrite Hnil in Hin. destruct Hin.
  - intros a Ha. apply filter_In in Ha as [Hin Hp].
    unfold node_eqb in Hp.
    destruct (node_eq_dec (predicate a) (BSH BSH_ns "offendingTriple"))
      as [Hp'|]; [|discriminate].
    apply Htr in Hin. destruct Hin as [[Hin _]|(i & Hi & ->)].
    + now destruct (Hrg a Hin).
    + destruct (Hst i Hi) as [x Hx]. exists (h + i), x. now split.
Qed.

(** X16. The violations of a call of [validate] that has run the pass and
    returned can always be rendered, and never with the placeholder: if the
    results graph of the engine has no [bsh:offendingTriple] triple of its
    own, then every graph of the violation list has at least one attachment,
    every attachment frames an inner graph of a single triple, and
    [appendToOutput] for this list, the registry and the store returns,
    having written the count and the violations. *)
Theorem X16_validated_violations_render :
  forall (self : Validate) (data : Graph) (sg og : option Graph)
         (opts : EngineOpts) (rg : Graph) (text : string)
         (r : bool * Graph * string),
    pyshacl_validate data (graph_or sg (shapeG self))
                     (graph_or og (brickG self)) opts = Ok (false, rg, text) ->
    attachOffender self = true ->
    snd (validate' data sg og opts self) = Ok r ->
    (forall t, In t (triples rg) ->
               predicate t <> BSH BSH_ns "offendingTriple") ->
    let self' := fst (validate' data sg og opts self) in
    exists gs nsd,
      snd (violationList self') = Ok gs /\
      snd (accumulatedNamespaces self') = Ok nsd /\
      (forall g, In g gs ->
                 attachments' g <> [] /\
                 forall a, In a (attachments' g) ->
                           exists i x, object a = GraphRef i /\
                                       nth_error (store self') i
                                       = Some (mkGraph [x] [])) /\
      forall out,
        let rs := ResultsSerialize_init gs nsd out in
        snd (appendToOutput' (store self') rs) = Ok tt /\
        outFile (fst (appendToOutput' (store self') rs)) =
        (out ++ header (length gs) ::
         flat_map (violation_lines' (store self') nsd) gs)%list.
Proof.
  intros self data sg og opts rg text r Heng Hatt Hret Hrg self'.
  destruct (validate_violations self data sg og opts rg text r Heng Hatt Hret)
    as (d & Hd & _ & _ & _ & Hent).
  fold self' in Hd, Hent.
  assert (Hgs : forall g, In g (map snd d) ->
                  attachments' g <> [] /\
                  forall a, In a (attachments' g) ->
                            exists i x, object a = GraphRef i /\
                                        nth_error (store self') i
                                        = Some (mkGraph [x] [])).
  { intros g Hg. apply in_map_iff in Hg. destruct Hg as ([k g'] & <- & Hin).
    destruct (Hent k g' Hin) as (_ & b & h & n & Hn & Htr & Hst).
    now apply (validated_attachments rg g' k b h n). }
  exists (map snd d), (namespaceDict self').
  split; [|split; [reflexivity|split; [exact Hgs|]]].
  - unfold violationList. rewrite bind_unfold. unfold attr. now rewrite Hd.
  - intros out rs. apply appendToOutput_lines.
    intros g a Hg Ha. destruct (Hgs g Hg) as [_ H].
    destruct (H a Ha) as (i & x & Hi & _). now exists i.
Qed.

(** ** The command line *)

(** The two packaged files, as parsed. *)
Variable Brick_ttl BrickShape_ttl : Graph.

Local Abbreviation main' :=
  (main SH_ns BSH_ns pyshacl_validate serialize parse Brick_ttl BrickShape_ttl).

(** The keyword arguments that [__main] hands to [validate]. *)
Local Abbreviation opts_of args :=
  (mkEngineOpts (arg_inference args) (arg_abort args) (arg_metashacl args)
                (arg_debug args)).


(** X17. A run on data that the engine finds conforming, with an output
    file (the standard output, or the file named after [-o]), writes the
    results text of the engine and nothing else, closes the output and ends
    with [exit(0)]. With [-o] and no file name there is no output file: the
    validation runs all the same, then the write of line 361 raises, nothing
    is written and the script does not reach [exit]. *)
Theorem X17_main_on_conforming_data :
  forall (args : Args) (dataG : Graph) (shaclG ontG : option Graph)
         (v0 : Validate) (rg : Graph) (text : string),
    parse (arg_data args) = Ok dataG ->
    parse_optional parse (arg_shacl args) = Ok shaclG ->
    parse_optional parse (arg_ont args) = Ok ontG ->
    init true Brick_ttl BrickShape_ttl = (v0, Ok tt) ->
    pyshacl_validate dataG (graph_or shaclG (shapeG v0))
                     (graph_or ontG (brickG v0)) (opts_of args)
    = Ok (true, rg, text) ->
    (forall f, arg_output args = Some f ->
               main' args = (mkFile [text] true, Ok 0%Z)) /\
    (arg_output args = None ->
     main' args = (mkFile [] false, Raise (AttributeError "write"))).
Proof.
  intros args dataG shaclG ontG v0 rg text Hd Hs Ho Hinit Heng.
  split; [intros f Hout|intros Hout];
    unfold main; rewrite Hd, Hs, Ho, Hinit;
    rewrite (validate_unfold _ _ _ _ _ _ _ _ Heng); cbn [orb];
    rewrite Hout; reflexivity.
Qed.

(** X18. The script writes nothing before [validate] has returned: when
    [validate] raises, be it the engine or the attachment pass that fails,
    the exception leaves the script, the output holds nothing, not even the
    results text of the engine, and has not been closed. The same holds when
    the data graph cannot be read. *)
Theorem X18_main_writes_nothing_when_validate_raises :
  forall (args : Args) (e : exn),
    (parse (arg_data args) = Raise e ->
     main' args = (mkFile [] false, Raise e)) /\
    (forall (dataG : Graph) (shaclG ontG : option Graph) (v0 : Validate),
        parse (arg_data args) = Ok dataG ->
        parse_optional parse (arg_shacl args) = Ok shaclG ->
        parse_optional parse (arg_ont args) = Ok ontG ->
        init true Brick_ttl BrickShape_ttl = (v0, Ok tt) ->
        snd (validate' dataG shaclG ontG (opts_of args) v0) = Raise e ->
        main' args = (mkFile [] false, Raise e)).
Proof.
  intros args e. split.
  - intros Hd. unfold main. now rewrite Hd.
  - intros dataG shaclG ontG v0 Hd Hs Ho Hinit Hv.
    unfold main. rewrite Hd, Hs, Ho, Hinit.
    destruct (validate' dataG shaclG ontG _ v0) as [v1 [res|e']];
      [discriminate|].
    simpl in Hv. now injection Hv as ->.
Qed.






(** An attachment whose object cannot be iterated as a graph makes the
    collection of the inner graphs raise. *)
Lemma tripleGraphs_raises (h : list Graph) (ts : list triple) (a : triple) :
  In a ts ->
  predicate a = BSH BSH_ns "offendingTriple" ->
  (forall i, object a <> GraphRef i) ->
  object a <> URIRef "" -> object a <> BNode "" -> object a <> Literal "" ->
  tripleGraphs BSH_ns h ts = Raise (ValueError "not enough values to unpack") \/
  tripleGraphs BSH_ns h ts
  = Raise (TypeError "'NoneType' object is not iterable").
Proof.
  intros Hin Hp Hg Hu Hb Hl.
  induction ts as [|[[s p] o] ts IH]; [destruct Hin|].
  cbn [tripleGraphs].
  destruct (node_eqb p (BSH BSH_ns "offendingTriple")) eqn:Ep.
  - destruct (iter_triples h o) as [inner|e] eqn:Ei.
    + destruct Hin as [<-|Hin].
      * exfalso. unfold object in *. cbn [snd] in *.
        destruct o as [[|c s']|[|c s']| |[|c s']| |]; simpl in Ei;
          try discriminate; try congruence; try (eapply Hg; reflexivity).
      * destruct (IH Hin) as [-> | ->]; auto.
    + unfold iter_triples in Ei.
      destruct o as [[|c s']|[|c s']| |[|c s']| |]; try discriminate;
        injection Ei as <-; auto.
  - destruct Hin as [<-|Hin]; [|now apply IH].
    unfold predicate in Hp. cbn [fst snd] in Hp. subst p.
    unfold node_eqb in Ep.
    now destruct (node_eq_dec (BSH BSH_ns "offendingTriple")
                              (BSH BSH_ns "offendingTriple")).
Qed.

(** X21. A violation with an attachment whose object is not a graph, that
    is [None] or a term that is not empty, stops the renderer: it raises
    when it unpacks what the iteration of that object yields, after it has
    written the title and the body of the violation and before it writes a
    label, an inner graph or the placeholder. *)
Theorem X21_attachment_without_graph_stops_the_renderer :
  forall (h : list Graph) (msg : option string) (g : Graph)
         (self : ResultsSerialize) (a : triple),
    In a (attachments' g) ->
    (forall i, object a <> GraphRef i) ->
    object a <> URIRef "" -> object a <> BNode "" -> object a <> Literal "" ->
    (snd (appendViolation' h msg g self)
     = Raise (ValueError "not enough values to unpack") \/
     snd (appendViolation' h msg g self)
     = Raise (TypeError "'NoneType' object is not iterable")) /\
    outFile (fst (appendViolation' h msg g self)) =
    (outFile self ++ heading msg ++ graph_lines' h (prefixes self) g)%list.
Proof.
  intros h msg g self a Ha Hg Hu Hb Hl.
  apply filter_In in Ha as [Hin Hp]. unfold node_eqb in Hp.
  destruct (node_eq_dec (predicate a) (BSH BSH_ns "offendingTriple"))
    as [Hp'|]; [|discriminate].
  destruct (appendGraph_outFile h msg g self) as [Hout _].
  unfold appendViolation.
  destruct (tripleGraphs_raises h (triples g) a Hin Hp' Hg Hu Hb Hl)
    as [-> | ->]; cbn [fst snd]; (split; [auto|exact Hout]).
Qed.

(** ** A validator without attachment *)

Lemma validate_without_attachment (self : Validate) (data : Graph)
      (sg og : option Graph) (opts : EngineOpts) :
  attachOffender self = false ->
  let self' := fst (validate' data sg og opts self) in
  attachOffender self' = false /\
  violationDict self' = violationDict self /\
  namespaceDict self' = namespaceDict self.
Proof.
  intros Hatt self'. subst self'.
  destruct (pyshacl_validate data (graph_or sg (shapeG self))
                             (graph_or og (brickG self)) opts)
    as [[[c rg] text]|e] eqn:Heng.
  - rewrite (validate_unfold _ _ _ _ _ _ _ _ Heng), Hatt.
    cbn [negb]. rewrite orb_true_r. cbn [fst]. now repeat split.
  - unfold validate.
    rewrite bind_unfold. simpl. rewrite bind_unfold. simpl.
    rewrite bind_unfold. simpl. rewrite bind_unfold. simpl.
    rewrite bind_unfold. unfold lift at 1. rewrite Heng.
    simpl. now repeat split.
Qed.

(** X22. A validator built with attachment disabled never gets a violation
    list: over any sequence of [validate] calls, whatever the engine
    answers, the flag stays off and the violation dictionary and the
    registry stay as they were; on a validator that had no violation
    dictionary, the query for the violation list raises every time. *)
Theorem X22_no_violation_list_without_attachment :
  forall (self : Validate) (calls : list Call),
    attachOffender self = false ->
    let self' := after_calls' calls self in
    attachOffender self' = false /\
    violationDict self' = violationDict self /\
    namespaceDict self' = namespaceDict self /\
    (violationDict self = None ->
     snd (violationList self') = Raise (AttributeError "violationDict")).
Proof.
  intros self calls Hatt self'.
  assert (H : attachOffender self' = false /\
              violationDict self' = violationDict self /\
              namespaceDict self' = namespaceDict self).
  { subst self'. unfold after_calls'. revert self Hatt.
    induction calls as [|c calls IH]; intros self Hatt; [now repeat split|].
    cbn [fold_left].
    destruct (validate_without_attachment self (call_data c) (call_shacl c)
                (call_ont c) (call_opts c) Hatt) as (H1 & H2 & H3).
    destruct (IH _ H1) as (H4 & H5 & H6).
    rewrite H5, H6. now repeat split. }
  destruct H as (H1 & H2 & H3). repeat split; auto.
  intros Hnone. unfold violationList. rewrite bind_unfold. unfold attr.
  now rewrite H2, Hnone.
Qed.

(** ** What a call of [validate] records, whatever its outcome *)

Lemma resolve_all_keys (ks : list node) :
  forall (self : Validate) (d : ViolationDict),
    violationDict self = Some d ->
    exists d',
      violationDict (fst (for_each ks (resolve_entry BSH_ns serialize) self))
      = Some d' /\
      map fst d' = map fst d.
Proof.
  induction ks as [|k ks IH]; intros self d Hd; [now exists d|].
  rewrite for_each_cons.
  pose proof (resolve_entry_outcome k self d Hd) as Hstep.
  destruct (resolve_entry BSH_ns serialize k self) as [s1 [u|e]].
  - destruct (vdict_get d k) as [v|] eqn:Ev.
    + destruct Hstep as (gs & _ & _ & ->).
      destruct (IH _ _ (eq_refl : violationDict
                  (set_violationDict
                     (vdict_set d k
                        (attach_all' (bnodes self) (length (store self))
                                     (length gs) v))
                     (resolved self gs)) = Some _)) as (d' & Hd' & Hk).
      exists d'. split; [exact Hd'|]. rewrite Hk.
      apply vdict_set_keys. unfold vdict_mem. now rewrite Ev.
    + subst s1. now apply IH.
  - subst s1. now exists d.
Qed.

(** The violation dictionary after the pass, whether the pass returns or
    raises: it is the old one, when a registration has failed, or it is the
    dictionary of this results graph. *)
Lemma attachOffendingTriples_dictionary (self : Validate) (rg : Graph) :
  results_graph self = Some rg ->
  let self' := fst (attachOffendingTriples' self) in
  violationDict self' = violationDict self \/
  exists d,
    violationDict self' = Some d /\
    NoDup (map fst d) /\
    forall k, In k (map fst d) <-> In k (result_objects' (triples rg)).
Proof.
  intros Hrg self'. subst self'.
  destruct (attachOffendingTriples' self) as [s' r] eqn:E. cbn [fst].
  unfold attachOffendingTriples in E.
  rewrite bind_unfold in E. simpl in E. rewrite bind_unfold in E. simpl in E.
  rewrite bind_unfold in E. unfold attr at 1 in E. simpl in E.
  rewrite Hrg in E. rewrite bind_unfold in E.
  match type of E with
  | context [buildNamespaceDict rg ?s] => set (s0 := s) in *
  end.
  pose proof (buildNamespaceDict_NoDup rg s0 (NoDup_nil _)) as Hn1.
  pose proof (keeps_buildNamespaceDict violationDict rg (fun d s => eq_refl) s0)
    as Hv1.
  destruct (buildNamespaceDict rg s0) as [s1 [u1|e1]]; cbn [fst] in *;
    [|injection E as <- _; left; exact Hv1].
  rewrite bind_unfold in E. unfold attr at 1 in E.
  destruct (data_graph s1) as [dg|];
    [|injection E as <- _; left; exact Hv1].
  rewrite bind_unfold in E.
  pose proof (buildNamespaceDict_NoDup dg s1 Hn1) as Hn2.
  pose proof (keeps_buildNamespaceDict violationDict dg (fun d s => eq_refl) s1)
    as Hv2.
  destruct (buildNamespaceDict dg s1) as [s2 [u2|e2]]; cbn [fst] in *;
    [|injection E as <- _; left; rewrite Hv2; exact Hv1].
  rewrite bind_unfold in E. cbn [get] in E.
  rewrite bind_unfold in E. cbn [modify] in E.
  rewrite bind_unfold in E. unfold attr at 1 in E.
  cbn [violationDict set_violationDict] in E.
  set (d0 := round2 rg (round1 SH_ns (namespaceDict s2) rg [])) in *.
  destruct (grouped_entries (namespaceDict s2) rg Hn2) as (Hnd0 & Hk0 & _).
  fold d0 in Hnd0, Hk0.
  destruct (resolve_all_keys (map fst d0) (set_violationDict d0 s2) d0 eq_refl)
    as (d' & Hd' & Hkeys).
  rewrite E in Hd'. cbn [fst] in Hd'.
  right. exists d'. split; [exact Hd'|]. rewrite Hkeys. now split.
Qed.

(** X23. [validate] records what the engine answers before anything else
    can fail. Whenever the engine returns, then whether [validate] itself
    returns or raises afterwards, the instance holds the data graph and the
    flag, results graph and text of this call; and the violation dictionary
    is either untouched or the one of this call, with one entry per distinct
    object of an [sh:result] triple of this results graph. *)
Theorem X23_validate_records_the_results_first :
  forall (self : Validate) (data : Graph) (sg og : option Graph)
         (opts : EngineOpts) (c : bool) (rg : Graph) (text : string),
    pyshacl_validate data (graph_or sg (shapeG self))
                     (graph_or og (brickG self)) opts = Ok (c, rg, text) ->
    let self' := fst (validate' data sg og opts self) in
    data_graph self' = Some data /\
    conforms self' = Some c /\
    results_graph self' = Some rg /\
    results_text self' = Some text /\
    (violationDict self' = violationDict self \/
     exists d,
       violationDict self' = Some d /\
       NoDup (map fst d) /\
       forall k, In k (map fst d) <->
                 exists s, In (s, SH SH_ns "result", k) (triples rg)).
Proof.
  intros self data sg og opts c rg text Heng self'. subst self'.
  rewrite (validate_unfold _ _ _ _ _ _ _ _ Heng).
  destruct (c || negb (attachOffender self)).
  - cbn [fst]. repeat split. now left.
  - set (s := engine_answered data (c, rg, text) self).
    assert (Hst : stable (fun x => (data_graph x, conforms x, results_graph x,
                                    results_text x)))
      by (split; reflexivity).
    pose proof (keeps_attachOffendingTriples _ Hst
                  (fun _ _ => eq_refl) (fun _ _ => eq_refl) s) as Hk.
    pose proof (attachOffendingTriples_dictionary s rg eq_refl) as Hd.
    cbv zeta in Hd.
    assert (Hfst : fst (match attachOffendingTriples' s with
                        | (self2, Ok _) =>
                            match violationDict self2 with
                            | Some d =>
                                (self2,
                                 Ok (c, fold_left
                                          (fun acc kv => graph_union acc (snd kv))
                                          d Graph_new, text))
                            | None =>
                                (self2, Raise (AttributeError "violationDict"))
                            end
                        | (self2, Raise e) => (self2, Raise e)
                        end) = fst (attachOffendingTriples' s)).
    { destruct (attachOffendingTriples' s) as [s2 [u|e]]; [|reflexivity].
      now destruct (violationDict s2). }
    rewrite Hfst. cbn beta in Hk. injection Hk as H1 H2 H3 H4.
    rewrite H1, H2, H3, H4. repeat split.
    destruct Hd as [Hd|(d & Hd & Hnd & Hkeys)]; [now left|].
    right. exists d. split; [exact Hd|]. split; [exact Hnd|].
    intros k. rewrite Hkeys. apply result_objects_In.
Qed.

End Properties.


(** * The statements on concrete graphs *)

Module Concrete.

Import Examples.

Lemma registry_keys_distinct (dg : Graph) :
  dg = data \/ dg = data_without ->
  NoDup (map fst (namespaceDict (resolving dg))).
Proof.
  intros [-> | ->]; simpl; repeat constructor; simpl; intuition discriminate.
Qed.

(** The grouper on the report of scenario B. *)
Example grouped_domain :
  round2 results_domain
         (round1 SHn (namespaceDict (resolving data)) results_domain []) =
  [(v1, violation_of results_domain)].
Proof. vm_compute. reflexivity. Qed.

(** Scenario D on the code: the resolver raises. *)
Lemma C1_witness :
  resolve (violation_of results_other) (resolving data) =
  (resolving data, Raise (UnboundLocalError "g")).
Proof.
  apply (C1_unhandled_violation_raises SHn BSHn turtle (resolving data)
           (violation_of results_other)
           "https://brickschema.org/schema/1.1/BrickShape#MeterShape"
           "https://brickschema.org/schema/1.1/BrickShape" "MeterShape");
    reflexivity.
Defined.

(** Two calls of scenario B on one validator, both of which return: the
    binding of [bldg] that the first call leaves in the registry is gone
    after the second. *)
Lemma C2_counterexample :
  let self1 := fst (validate_with (false, results_domain, "report") data_more
                                  fresh) in
  let self2 := fst (validate_with (false, results_domain, "report") data
                                  self1) in
  is_ok (snd (validate_with (false, results_domain, "report") data_more fresh))
  = true /\
  dict_get (namespaceDict self1) "bldg" = Some BLDGn /\
  is_ok (snd (validate_with (false, results_domain, "report") data self1))
  = true /\
  dict_get (namespaceDict self2) "bldg" = None.
Proof. vm_compute. repeat split. Qed.

Lemma C2_witness :
  dict_get (namespaceDict (fst (buildNamespaceDict data_clash (resolving data))))
           "sh" = Some SHn /\
  incl (namespaceDict
          (fst (validate_with (false, results_domain, "report") data fresh)))
       (namespaces results_domain ++ namespaces data) /\
  namespaceDict (fst (validate_with (true, results_none, "report") data
                                    (resolving data))) =
  namespaceDict (resolving data).
Proof.
  destruct (C2_registry_rebuilt_by_each_pass SHn BSHn
              (engine (false, results_domain, "report")) turtle)
    as (H1 & H2 & _).
  destruct (C2_registry_rebuilt_by_each_pass SHn BSHn
              (engine (true, results_none, "report")) turtle)
    as (_ & _ & H3).
  split; [|split].
  - apply H1. reflexivity.
  - apply (H2 fresh data None None opts results_domain "report"); reflexivity.
  - apply (H3 (resolving data) data None None opts true results_none "report").
    + reflexivity.
    + left. reflexivity.
Defined.

Lemma C3_witness :
  ((exists msg,
       snd (buildNamespaceDict data_clash (resolving data)) =
       Raise (AssertionError msg)) /\
   dict_get (namespaceDict (fst (buildNamespaceDict data_clash (resolving data))))
            "sh" = Some SHn) /\
  buildNamespaceDict data (resolving data) = (resolving data, Ok tt).
Proof.
  destruct C3_conflicting_prefix_raises as (H1 & H2 & _). split.
  - apply (H1 data_clash (resolving data) "sh" EXn SHn).
    + reflexivity.
    + discriminate.
    + simpl. left. reflexivity.
  - apply H2. simpl. intros prefix path [H|[H|[]]];
      injection H as <- <-; reflexivity.
Defined.

(** A path violation without a focus node: no attachment, an assertion
    error. *)
Example path_violation_without_focus :
  objects_of (SH SHn "resultPath") violation_no_focus = [hasPoint] /\
  resolve violation_no_focus (resolving data) =
  (resolving data, Raise (AssertionError "Must have predicate 'sh:focusNode'")).
Proof. vm_compute. split; reflexivity. Qed.

(** Scenario A, a path violation without a value: [Graph.add] refuses the
    triple and nothing is attached. The same violation with a value gets
    its one attachment. *)
Lemma C5_witness :
  resolve (violation_of results_path) (resolving data) =
  (resolving data,
   Raise (AssertionError "Object None must be an rdflib term")) /\
  resolve (violation_of results_value) (resolving data) =
  (set_bnodes 1
     (set_store [mkGraph [(Meter1, hasPoint, Point1)] []] (resolving data)),
   Ok (graph_add (GenBNode 0, BSH BSHn "offendingTriple", GraphRef 0)
                 (violation_of results_value))).
Proof.
  split.
  - destruct (C5_path_violation_without_value_raises SHn BSHn turtle
                (resolving data) (violation_of results_path) hasPoint []
                eq_refl eq_refl eq_refl) as [Hone _].
    destruct (Hone Meter1 eq_refl eq_refl) as [_ Hnone].
    exact (Hnone eq_refl).
  - destruct (C5_path_violation_without_value_raises SHn BSHn turtle
                (resolving data) (violation_of results_value) hasPoint []
                eq_refl eq_refl eq_refl) as [Hone _].
    destruct (Hone Meter1 eq_refl eq_refl) as [Hvalue _].
    destruct (Hvalue Point1 [] eq_refl eq_refl) as [H _].
    exact H.
Defined.

(** Scenario B without the property assertion in the data graph: the query
    helper raises. *)
Lemma C6_counterexample :
  objects_at Meter1 hasPoint data_without = [] /\
  resolve (violation_of results_domain) (resolving data_without) =
  (resolving data_without,
   Raise (AssertionError
            "Must have at lease one triple like 'ex:Meter1 brick:hasPoint None'")).
Proof. vm_compute. split; reflexivity. Qed.

(** Scenario B. *)
Lemma C6_witness :
  exists self' violation',
    resolve (violation_of results_domain) (resolving data) =
    (self', Ok violation') /\
    (forall i o,
        nth_error (objects_at Meter1 hasPoint data) i = Some o ->
        nth_error (store self') (length (store (resolving data)) + i) =
        Some (mkGraph [(Meter1, hasPoint, o)] []) /\
        In (GenBNode (bnodes (resolving data) + i),
            BSH BSHn "offendingTriple",
            GraphRef (length (store (resolving data)) + i))
           (triples violation')) /\
    (forall t,
        In t (triples violation') ->
        In t (triples (violation_of results_domain)) \/
        exists i, i < length (objects_at Meter1 hasPoint data) /\
                  t = (GenBNode (bnodes (resolving data) + i),
                       BSH BSHn "offendingTriple",
                       GraphRef (length (store (resolving data)) + i))) /\
    (forall t, In t (triples (violation_of results_domain)) ->
               In t (triples violation')).
Proof.
  assert (H := C6_domain_shape_attachments SHn BSHn turtle (resolving data)
                 (violation_of results_domain) data
                 "https://brickschema.org/schema/1.1/BrickShape" "hasPoint"
                 "http://example.com" "Meter1" BRICKn "ex" []
                 eq_refl eq_refl
                 (registry_keys_distinct data (or_introl eq_refl))
                 eq_refl eq_refl eq_refl eq_refl eq_refl eq_refl eq_refl
                 eq_refl eq_refl).
  apply H. discriminate.
Defined.

(** Scenario B through [validate]: the single offending triple. *)
Example scenario_B :
  let r := validate_with (false, results_domain, "report") data fresh in
  snd r =
  Ok (false,
      mkGraph [ (v1, SH SHn "focusNode", Meter1);
                (v1, SH SHn "sourceShape", BSH BSHn "hasPointDomainShape");
                (GenBNode 0, BSH BSHn "offendingTriple", GraphRef 0) ]
              (results_ns ++ namespaces data)%list,
      "report") /\
  store (fst r) = [mkGraph [(Meter1, hasPoint, Point1)] []].
Proof. vm_compute. split; reflexivity. Qed.

(** Scenario A through [validate]: the assertion of [Graph.add] reaches the
    caller. With a value, the call returns the single offending triple. *)
Example scenario_A :
  snd (validate_with (false, results_path, "report") data fresh) =
  Raise (AssertionError "Object None must be an rdflib term").
Proof. vm_compute. reflexivity. Qed.

Example scenario_A_with_value :
  let r := validate_with (false, results_value, "report") data fresh in
  snd r =
  Ok (false,
      mkGraph [ (v1, SH SHn "focusNode", Meter1);
                (v1, SH SHn "resultPath", hasPoint);
                (v1, SH SHn "value", Point1);
                (v1, SH SHn "sourceShape", BSH BSHn "MeterShape");
                (GenBNode 0, BSH BSHn "offendingTriple", GraphRef 0) ]
              (results_ns ++ namespaces data)%list,
      "report") /\
  store (fst r) = [mkGraph [(Meter1, hasPoint, Point1)] []].
Proof. vm_compute. split; reflexivity. Qed.

(** Scenario D through [validate]: the exception of the resolver reaches
    the caller. *)
Example scenario_D :
  snd (validate_with (false, results_other, "report") data fresh) =
  Raise (UnboundLocalError "g").
Proof. vm_compute. reflexivity. Qed.

(** A data graph that binds [sh] to another namespace than the results
    graph: the pass raises and [validate] returns nothing. *)
Lemma C7_counterexample :
  snd (validate_with (false, results_empty, "report") data_clash fresh) =
  Raise (AssertionError
           "Same prefix 'sh' used for http://www.w3.org/ns/shacl# and http://example.com#").
Proof. vm_compute. reflexivity. Qed.

Lemma C7_witness :
  snd (validate_with (true, results_none, "report") data fresh) =
    Ok (true, results_none, "report") /\
  exists d G,
    violationDict
      (fst (validate_with (false, results_domain, "report") data fresh))
    = Some d /\
    snd (validate_with (false, results_domain, "report") data fresh) =
      Ok (false, G, "report") /\
    forall t, In t (triples G) <-> exists k v, In (k, v) d /\ In t (triples v).
Proof.
  split.
  - apply (C7_validate_returns SHn BSHn (engine (true, results_none, "report"))
             turtle fresh data None None opts true results_none "report").
    + reflexivity.
    + left. reflexivity.
  - apply (C7_validate_returns SHn BSHn
             (engine (false, results_domain, "report"))
             turtle fresh data None None opts false results_domain "report");
      reflexivity.
Defined.

(** A new validator and a conforming data graph: the violation list does
    not exist. *)
Example conforming_then_violation_list :
  snd (validate_with (true, results_none, "report") data fresh) =
    Ok (true, results_none, "report") /\
  snd (violationList
         (fst (validate_with (true, results_none, "report") data fresh))) =
    Raise (AttributeError "violationDict").
Proof. vm_compute. split; reflexivity. Qed.

Lemma C8_witness :
  snd (validate_with (true, results_none, "report") data fresh) =
    Ok (true, results_none, "report") /\
  violationDict (fst (validate_with (true, results_none, "report") data fresh))
  = violationDict fresh /\
  snd (violationList
         (fst (validate_with (true, results_none, "report") data fresh))) =
  match violationDict fresh with
  | Some d => Ok (map snd d)
  | None => Raise (AttributeError "violationDict")
  end.
Proof.
  apply (C8_conforming_leaves_violations_alone SHn BSHn
           (engine (true, results_none, "report")) turtle fresh data None None
           opts results_none "report").
  reflexivity.
Defined.

Lemma enriched_attachments :
  attachments BSHn enriched =
  [(GenBNode 0, BSH BSHn "offendingTriple", GraphRef 0)].
Proof. vm_compute. reflexivity. Qed.

(** Scenario D and scenario B in the renderer: the placeholder, and the
    heading with the line of the offending triple. *)
Lemma C9_witness :
  (snd (appendViolation BSHn turtle [] title (violation_of results_other)
                        renderer) = Ok tt /\
   outFile (fst (appendViolation BSHn turtle [] title
                                 (violation_of results_other) renderer)) =
   [ nl ++ "Constraint violation:" ++ nl;
     "_:v1 <http://www.w3.org/ns/shacl#focusNode> <http://example.com#Meter1> .";
     nl;
     "_:v1 <http://www.w3.org/ns/shacl#sourceShape> <https://brickschema.org/schema/1.1/BrickShape#MeterShape> .";
     nl;
     "Please add triple finder for the above violation!!!" ++ nl ]) /\
  (snd (appendViolation BSHn turtle (store after_domain) title enriched
                        renderer) = Ok tt /\
   outFile (fst (appendViolation BSHn turtle (store after_domain) title
                                 enriched renderer)) =
   [ nl ++ "Constraint violation:" ++ nl;
     "_:v1 <http://www.w3.org/ns/shacl#focusNode> <http://example.com#Meter1> .";
     nl;
     "_:v1 <http://www.w3.org/ns/shacl#sourceShape> <https://brickschema.org/schema/1.1/BrickShape#hasPointDomainShape> .";
     nl;
     "Offending triple:" ++ nl;
     "<http://example.com#Meter1> <https://brickschema.org/schema/1.1/Brick#hasPoint> <http://example.com#Point1> .";
     nl ]).
Proof.
  destruct (C9_placeholder_or_offending_section BSHn turtle [] title
              (violation_of results_other) renderer) as [H1 _].
  destruct (C9_placeholder_or_offending_section BSHn turtle
              (store after_domain) title enriched renderer) as [_ H2].
  split.
  - destruct H1 as [Ha Hb]; [vm_compute; reflexivity|].
    split; [exact Ha|]. rewrite Hb. vm_compute. reflexivity.
  - destruct H2 as (Ha & Hb & _).
    + rewrite enriched_attachments. discriminate.
    + rewrite enriched_attachments. intros a [<-|[]]. exists 0. reflexivity.
    + split; [exact Ha|]. rewrite Hb. vm_compute. reflexivity.
Defined.

(** What the renderer writes for scenario D and for scenario B. *)
Example rendered_unhandled :
  outFile (fst (appendViolation BSHn turtle [] title
                                (violation_of results_other) renderer)) =
  [ nl ++ "Constraint violation:" ++ nl;
    "_:v1 <http://www.w3.org/ns/shacl#focusNode> <http://example.com#Meter1> .";
    nl;
    "_:v1 <http://www.w3.org/ns/shacl#sourceShape> <https://brickschema.org/schema/1.1/BrickShape#MeterShape> .";
    nl;
    "Please add triple finder for the above violation!!!" ++ nl ].
Proof. vm_compute. reflexivity. Qed.

Example rendered_domain :
  outFile (fst (appendViolation BSHn turtle (store after_domain) title
                                enriched renderer)) =
  [ nl ++ "Constraint violation:" ++ nl;
    "_:v1 <http://www.w3.org/ns/shacl#focusNode> <http://example.com#Meter1> .";
    nl;
    "_:v1 <http://www.w3.org/ns/shacl#sourceShape> <https://brickschema.org/schema/1.1/BrickShape#hasPointDomainShape> .";
    nl;
    "Offending triple:" ++ nl;
    "<http://example.com#Meter1> <https://brickschema.org/schema/1.1/Brick#hasPoint> <http://example.com#Point1> .";
    nl ].
Proof. vm_compute. reflexivity. Qed.

(** The default ontology of the example: of the three triples of the
    packaged file the label is left. *)
Example stripped_ontology :
  triples (brickG fresh) = [(hasPoint, RDFS "label", Literal "Has point")].
Proof. vm_compute. reflexivity. Qed.

(** A validator that has been through scenario B, and the engine that
    answers the ontology it is given: a call without the ontology argument
    answers the stripped ontology. *)
Lemma C10_witness :
  let self := after_calls SHn BSHn echo_engine turtle
                          [mkCall data None None opts] fresh in
  (forall t, In t (triples (brickG self)) ->
             predicate t <> RDFS "domain" /\ predicate t <> RDFS "range") /\
  validate SHn BSHn echo_engine turtle data None None opts self =
  (engine_answered data (true, brickG fresh, "ontology") self,
   Ok (true, brickG fresh, "ontology")).
Proof.
  intros self.
  destruct (C10_default_ontology_has_no_domain_or_range SHn BSHn echo_engine
              turtle true Brick_ttl BrickShape_ttl fresh eq_refl eq_refl
              [mkCall data None None opts]) as [Hnone Hcall].
  split; [exact Hnone|].
  destruct (Hcall data None opts) as [_ Hanswer].
  destruct (Hanswer true (brickG fresh) "ontology" eq_refl) as [Hreturn _].
  apply Hreturn. left. reflexivity.
Defined.

End Concrete.

(** * The further properties on concrete graphs *)

Module Scenarios.

Import Examples.

Lemma results_domain_has_no_attachment :
  forall t, In t (triples results_domain) ->
            predicate t <> BSH BSHn "offendingTriple".
Proof.
  simpl. intros t [<-|[<-|[<-|[<-|[]]]]] H; vm_compute in H; discriminate H.
Qed.

(** Registering the data graph of scenario B with a new validator binds
    [ex]. *)
Lemma X1_witness :
  dict_get (namespaceDict (fst (buildNamespaceDict data fresh))) "ex"
  = Some EXn /\
  buildNamespaceDict data (fst (buildNamespaceDict data fresh))
  = (fst (buildNamespaceDict data fresh), Ok tt).
Proof.
  destruct (X1_registration_binds_every_prefix data fresh) as [H1 H2].
  - vm_compute. reflexivity.
  - split; [|exact H2]. apply H1. simpl. right. left. reflexivity.
Defined.

(** The data graph that uses [sh] for another namespace. *)
Lemma X2_witness :
  exists prefix path old,
    In (prefix, path) (namespaces data_clash) /\
    old <> path /\
    dict_get (namespaceDict (fst (buildNamespaceDict data_clash
                                                     (resolving data))))
             prefix = Some old /\
    AssertionError
      "Same prefix 'sh' used for http://www.w3.org/ns/shacl# and http://example.com#"
    = AssertionError ("Same prefix '" ++ prefix ++ "' used for " ++ old ++
                      " and " ++ path).
Proof.
  apply (X2_registration_raises_only_on_conflict data_clash (resolving data)).
  vm_compute. reflexivity.
Defined.

(** The lookups of the resolver in the violation of scenario A. *)
Lemma X3_witness :
  violationPredicateObj (violation_of results_path) "sh:value" false
                        (resolving data) = (resolving data, Ok PyNone) /\
  violationPredicateObj (violation_of results_path) "sh:resultPath" false
                        (resolving data) = (resolving data, Ok hasPoint) /\
  violationPredicateObj (violation_of results_path) "sh:focusNode" true
                        (resolving data) = (resolving data, Ok Meter1) /\
  violationPredicateObj (violation_of results_path) "sh:value" true
                        (resolving data) =
  (resolving data, Raise (AssertionError "Must have predicate 'sh:value'")).
Proof.
  destruct (X3_predicate_lookup (violation_of results_path) "sh:value" "sh"
              "value" SHn (resolving data) eq_refl eq_refl eq_refl)
    as (H1 & _ & _ & H4).
  destruct (X3_predicate_lookup (violation_of results_path) "sh:resultPath"
              "sh" "resultPath" SHn (resolving data) eq_refl eq_refl eq_refl)
    as (_ & H2 & _ & _).
  destruct (X3_predicate_lookup (violation_of results_path) "sh:focusNode"
              "sh" "focusNode" SHn (resolving data) eq_refl eq_refl eq_refl)
    as (_ & _ & H3 & _).
  split; [|split; [|split]].
  - apply H1. vm_compute. reflexivity.
  - apply (H2 hasPoint []). vm_compute. reflexivity.
  - apply H3. vm_compute. reflexivity.
  - apply H4. vm_compute. discriminate.
Defined.

(** The query of scenario B. *)
Lemma X4_witness :
  fst (queryDataGraph (Some "ex:Meter1") (Some "brick:hasPoint") None
                      (resolving data)) = resolving data /\
  [(PyNone, PyNone, Point1)] <> [] /\
  exists dg,
    data_graph (resolving data) = Some dg /\
    forall row, In row [(PyNone, PyNone, Point1)] ->
      exists t, In t (triples dg) /\
                (subject row = subject t \/ subject row = PyNone) /\
                (predicate row = predicate t \/ predicate row = PyNone) /\
                (object row = object t \/ object row = PyNone).
Proof.
  apply (X4_query_result_is_never_empty (Some "ex:Meter1")
           (Some "brick:hasPoint") None (resolving data));
    vm_compute; reflexivity.
Defined.

(** The small ontology: the label stays, the two axioms go. *)
Lemma X5_witness :
  (forall t, In t (triples (brickG fresh)) <->
             In t (triples Brick_ttl) /\
             predicate t <> RDFS "domain" /\ predicate t <> RDFS "range") /\
  namespaces (brickG fresh) = namespaces Brick_ttl /\
  shapeG fresh = BrickShape_ttl /\
  attachOffender fresh = true /\
  (forall k, dict_get (namespaceDict fresh) k
             = dict_get (namespaces Brick_ttl) k) /\
  data_graph fresh = None /\
  violationDict fresh = None.
Proof.
  apply (X5_init_deletes_domain_and_range_only true Brick_ttl BrickShape_ttl
           fresh); vm_compute; reflexivity.
Defined.

(** A first call that returns and a second call in which the engine fails:
    the data graph is the one of the second call, the results are those of
    the first. *)
Lemma X6_witness :
  let self := after_domain in
  let self' := fst (validate SHn BSHn failing_engine turtle data_bare None None
                             opts self) in
  snd (validate SHn BSHn failing_engine turtle data_bare None None opts self)
  = Raise (ValueError "engine") /\
  data_graph self' = Some data_bare /\
  conforms self' = conforms self /\
  results_graph self' = results_graph self /\
  results_text self' = results_text self /\
  violationDict self' = violationDict self /\
  namespaceDict self' = namespaceDict self.
Proof.
  apply (X6_engine_failure_leaves_old_results SHn BSHn failing_engine turtle
           after_domain data_bare None None opts (ValueError "engine")).
  reflexivity.
Defined.

(** An empty graph as the shapes graph or as the ontology graph. *)
Lemma X7_witness :
  validate_with (false, results_domain, "report") data fresh =
  validate SHn BSHn (engine (false, results_domain, "report")) turtle data
           (Some Graph_new) None opts fresh /\
  validate_with (false, results_domain, "report") data fresh =
  validate SHn BSHn (engine (false, results_domain, "report")) turtle data
           None (Some Graph_new) opts fresh.
Proof.
  destruct (X7_empty_graph_argument_is_ignored SHn BSHn
              (engine (false, results_domain, "report")) turtle fresh data
              Graph_new None None opts eq_refl) as [H1 H2].
  split; symmetry; [exact H1|exact H2].
Defined.

(** A source shape that is a blank node. *)
Lemma X9_witness :
  resolve violation_blank_shape (resolving data)
  = (resolving data, Raise (ValueError "unpack")).
Proof.
  apply (X9_source_shape_without_hash_raises SHn BSHn turtle (resolving data)
           violation_blank_shape "shape1").
  - reflexivity.
  - vm_compute. reflexivity.
  - right. vm_compute. reflexivity.
  - reflexivity.
Defined.

(** Scenario B with a data graph that binds no prefix, and with one that
    binds [brick] only. *)
Lemma X10_witness :
  resolve (violation_of results_domain) (resolving data_bare)
  = (resolving data_bare, Raise (KeyError "brick")) /\
  resolve (violation_of results_domain) (resolving data_without_ex)
  = (resolving data_without_ex,
     Raise (AssertionError
              "Must find a prefix for http://example.com#Meter1")).
Proof.
  split.
  - refine (proj1 (X10_domain_shape_needs_the_registry SHn BSHn turtle
                     (resolving data_bare) (violation_of results_domain)
                     "https://brickschema.org/schema/1.1/BrickShape"
                     "hasPoint" _ _ _ _ _) _); vm_compute; reflexivity.
  - refine (proj2 (X10_domain_shape_needs_the_registry SHn BSHn turtle
                     (resolving data_without_ex) (violation_of results_domain)
                     "https://brickschema.org/schema/1.1/BrickShape"
                     "hasPoint" _ _ _ _ _)
                  BRICKn "http://example.com" "Meter1" _ _ _ _ _);
      try (vm_compute; reflexivity).
    simpl. intros k v [H|[H|[H|[]]]] Hv; injection H as <- <-;
      vm_compute in Hv; discriminate Hv.
Defined.

(** Scenario B: one violation. *)
Lemma X11_witness :
  exists d,
    violationDict after_domain = Some d /\
    snd (violationList after_domain) = Ok (map snd d) /\
    length (map snd d) =
      length (nodup node_eq_dec
                    (result_objects SHn (triples results_domain))) /\
    (forall k, In k (map fst d) <->
               exists s, In (s, SH SHn "result", k) (triples results_domain)) /\
    forall k g,
      In (k, g) d ->
      exists b h n,
        1 <= n /\
        (forall t, In t (triples g) <->
                   (In t (triples results_domain) /\ subject t = k) \/
                   exists i, i < n /\ t = attachment BSHn b h i) /\
        (forall i, i < n ->
                   exists x, nth_error (store after_domain) (h + i)
                             = Some (mkGraph [x] [])).
Proof.
  apply (X11_violation_list_after_validate SHn BSHn
           (engine (false, results_domain, "report")) turtle fresh data None
           None opts results_domain "report" returned_domain).
  - reflexivity.
  - vm_compute. reflexivity.
  - vm_compute. reflexivity.
Defined.

Lemma X12_witness :
  false = false /\ "report" = "report" /\
  (forall t, In t (triples results_domain) ->
             (exists s, In (s, SH SHn "result", subject t)
                           (triples results_domain)) ->
             In t (triples (snd (fst returned_domain)))) /\
  (forall t, In t (triples (snd (fst returned_domain))) ->
             (In t (triples results_domain) /\
              exists s, In (s, SH SHn "result", subject t)
                           (triples results_domain)) \/
             exists b i x,
               t = (GenBNode b, BSH BSHn "offendingTriple", GraphRef i) /\
               nth_error (store after_domain) i = Some (mkGraph [x] [])).
Proof.
  apply (X12_returned_graph_is_violations_and_attachments SHn BSHn
           (engine (false, results_domain, "report")) turtle fresh data None
           None opts results_domain "report").
  - reflexivity.
  - vm_compute. reflexivity.
  - vm_compute. reflexivity.
Defined.

(** A shapes file that the reader accepts and a file that it refuses. *)
Lemma X13_witness :
  (snd (addShapeFile reader "shapes.ttl" fresh) =
     Ok [decimal 0 ++ " " ++ decimal 1 ++ nl; decimal 1 ++ nl] /\
   (forall t, In t (triples (shapeG (fst (addShapeFile reader "shapes.ttl"
                                                        fresh)))) <->
              In t (triples (shapeG fresh)) \/ In t (triples shapes))) /\
  (snd (addShapeFile reader "shapes.csv" fresh)
   = Raise (ValueError "not a Turtle file") /\
   shapeG (fst (addShapeFile reader "shapes.csv" fresh)) = shapeG fresh).
Proof.
  destruct (X13_addShapeFile_extends_the_default_shapes reader "shapes.ttl"
              fresh) as [H1 _].
  destruct (X13_addShapeFile_extends_the_default_shapes reader "shapes.csv"
              fresh) as [_ H2].
  split.
  - destruct (H1 shapes eq_refl) as (Ha & Hb & _). split; [exact Ha|exact Hb].
  - apply H2. reflexivity.
Defined.

Lemma X14_witness :
  let self' :=
    after_calls SHn BSHn (engine (false, results_domain, "report")) turtle
                [mkCall data None None opts]
                (fst (addShapeFile reader "shapes.ttl" fresh)) in
  shapeG self' = graph_union (shapeG fresh) shapes /\
  forall (dg : Graph) (og : option Graph) (o : EngineOpts),
    validate SHn BSHn (engine (false, results_domain, "report")) turtle
             dg None og o self' =
    validate SHn BSHn (engine (false, results_domain, "report")) turtle
             dg (Some (graph_union (shapeG fresh) shapes)) og o self'.
Proof.
  apply (X14_added_shapes_stay_the_default SHn BSHn
           (engine (false, results_domain, "report")) turtle reader
           "shapes.ttl" shapes fresh [mkCall data None None opts]).
  reflexivity.
Defined.


Lemma X16_witness :
  exists gs nsd,
    snd (violationList after_domain) = Ok gs /\
    snd (accumulatedNamespaces after_domain) = Ok nsd /\
    (forall g, In g gs ->
               attachments BSHn g <> [] /\
               forall a, In a (attachments BSHn g) ->
                         exists i x, object a = GraphRef i /\
                                     nth_error (store after_domain) i
                                     = Some (mkGraph [x] [])) /\
    forall out,
      let rs := ResultsSerialize_init gs nsd out in
      snd (appendToOutput BSHn turtle (store after_domain) rs) = Ok tt /\
      outFile (fst (appendToOutput BSHn turtle (store after_domain) rs)) =
      (out ++ header (length gs) ::
       flat_map (violation_lines BSHn turtle (store after_domain) nsd)
                gs)%list.
Proof.
  apply (X16_validated_violations_render SHn BSHn
           (engine (false, results_domain, "report")) turtle fresh data None
           None opts results_domain "report" returned_domain).
  - reflexivity.
  - vm_compute. reflexivity.
  - vm_compute. reflexivity.
  - exact results_domain_has_no_attachment.
Defined.

(** The command line on a conforming data graph. *)
Lemma X17_witness :
  script (true, results_none, "report") args
  = (mkFile ["report"] true, Ok 0%Z) /\
  script (true, results_none, "report") args_bare_output
  = (mkFile [] false, Raise (AttributeError "write")).
Proof.
  split.
  - refine (proj1 (X17_main_on_conforming_data SHn BSHn
                     (engine (true, results_none, "report")) turtle reader
                     Brick_ttl BrickShape_ttl args data None None fresh
                     results_none "report" _ _ _ _ _) "<stdout>" _);
      vm_compute; reflexivity.
  - refine (proj2 (X17_main_on_conforming_data SHn BSHn
                     (engine (true, results_none, "report")) turtle reader
                     Brick_ttl BrickShape_ttl args_bare_output data None None
                     fresh results_none "report" _ _ _ _ _) _);
      vm_compute; reflexivity.
Defined.

(** A data file that the reader refuses, and scenario D, in which the
    resolver raises: nothing is written. *)
Lemma X18_witness :
  script (true, results_none, "report") args_unreadable
  = (mkFile [] false, Raise (ValueError "not a Turtle file")) /\
  script (false, results_other, "report") args
  = (mkFile [] false, Raise (UnboundLocalError "g")).
Proof.
  destruct (X18_main_writes_nothing_when_validate_raises SHn BSHn
              (engine (true, results_none, "report")) turtle reader Brick_ttl
              BrickShape_ttl args_unreadable (ValueError "not a Turtle file"))
    as [H1 _].
  destruct (X18_main_writes_nothing_when_validate_raises SHn BSHn
              (engine (false, results_other, "report")) turtle reader Brick_ttl
              BrickShape_ttl args (UnboundLocalError "g"))
    as [_ H2].
  split.
  - apply H1. reflexivity.
  - apply (H2 data None None fresh); vm_compute; reflexivity.
Defined.


(** What the command line writes in scenario B. *)
Example written_domain :
  script (false, results_domain, "report") args =
  (mkFile
     [ "report";
       nl ++ "Additional info (1 constraint violations with offending triples):"
          ++ nl;
       nl ++ "Constraint violation:" ++ nl;
       "_:v1 <http://www.w3.org/ns/shacl#focusNode> <http://example.com#Meter1> .";
       nl;
       "_:v1 <http://www.w3.org/ns/shacl#sourceShape> <https://brickschema.org/schema/1.1/BrickShape#hasPointDomainShape> .";
       nl;
       "Offending triple:" ++ nl;
       "<http://example.com#Meter1> <https://brickschema.org/schema/1.1/Brick#hasPoint> <http://example.com#Point1> .";
       nl ]
     true,
   Ok (-1)%Z).
Proof. vm_compute. reflexivity. Qed.

(** The same with [-o] and no file name. *)
Example written_bare_output :
  script (false, results_domain, "report") args_bare_output =
  (mkFile [] false, Raise (AttributeError "write")).
Proof. vm_compute. reflexivity. Qed.

(** An attachment that frames a term. *)
Lemma X21_witness :
  (snd (appendViolation BSHn turtle [] title violation_framing_a_term renderer)
   = Raise (ValueError "not enough values to unpack") \/
   snd (appendViolation BSHn turtle [] title violation_framing_a_term renderer)
   = Raise (TypeError "'NoneType' object is not iterable")) /\
  outFile (fst (appendViolation BSHn turtle [] title violation_framing_a_term
                                renderer)) =
  (outFile renderer ++ heading title ++
   graph_lines turtle [] (prefixes renderer) violation_framing_a_term)%list.
Proof.
  apply (X21_attachment_without_graph_stops_the_renderer BSHn turtle [] title
           violation_framing_a_term renderer
           (BNode "b1", URIRef (BSHn ++ "offendingTriple"), Meter1)).
  - vm_compute. left. reflexivity.
  - intros i H. vm_compute in H. discriminate H.
  - intros H. vm_compute in H. discriminate H.
  - intros H. vm_compute in H. discriminate H.
  - intros H. vm_compute in H. discriminate H.
Defined.

(** Scenario B on a validator without attachment. *)
Lemma X22_witness :
  let self' :=
    after_calls SHn BSHn (engine (false, results_domain, "report")) turtle
                [mkCall data None None opts] fresh_without_attachment in
  attachOffender self' = false /\
  violationDict self' = violationDict fresh_without_attachment /\
  namespaceDict self' = namespaceDict fresh_without_attachment /\
  snd (violationList self') = Raise (AttributeError "violationDict").
Proof.
  destruct (X22_no_violation_list_without_attachment SHn BSHn
              (engine (false, results_domain, "report")) turtle
              fresh_without_attachment [mkCall data None None opts] eq_refl)
    as (H1 & H2 & H3 & H4).
  repeat split; auto.
Defined.

(** Scenario D: [validate] raises, and the instance holds the results of
    the failed call. *)
Lemma X23_witness :
  let self' := fst (validate_with (false, results_other, "report") data fresh) in
  data_graph self' = Some data /\
  conforms self' = Some false /\
  results_graph self' = Some results_other /\
  results_text self' = Some "report" /\
  (violationDict self' = violationDict fresh \/
   exists d,
     violationDict self' = Some d /\
     NoDup (map fst d) /\
     forall k, In k (map fst d) <->
               exists s, In (s, SH SHn "result", k) (triples results_other)).
Proof.
  apply (X23_validate_records_the_results_first SHn BSHn
           (engine (false, results_other, "report")) turtle fresh data None
           None opts false results_other "report").
  reflexivity.
Defined.

End Scenarios.
